(** * Chess analyzer: evaluation, bot move selection, game sessions, rating

    A shallow embedding of the decision core of the chess-analyzer server,
    and of the pure helpers of its client:

    - [server/services/stockfishEngine.ts]: the simulated engine
      ([StockfishEngine]) and the service built on it
      ([EnhancedChessEngineService]), its fallback analysis included;
    - [server/services/chessEngine.ts]: [ChessEngineService], its
      evaluation, analysis, move selection and bot;
    - [server/services/dataService.ts]: games, statistics and the history
      of analyses, from the state the constructor leaves;
    - [server/routes/game.ts]: the [createGame], [makeMove], [getGame] and
      [resignGame] handlers;
    - [server/routes/analysis.ts]: [isValidFen], the position analysis
      handler and the deletion of an analysis;
    - [client/components] and [client/pages]: the naming of the cells of
      the boards, and what the pages say of a finished game.

    The rules library (chess.js) is not part of the repository: it is the
    interface [Rules] below, and every engine function is stated over an
    arbitrary implementation of it.  [Math.random] and [new Date()] are read
    from explicit streams carried in the state.  JavaScript numbers are
    integers ([Z]) wherever the code keeps them integral, and exact rationals
    ([Q]) where it multiplies by a random draw, which the code rounds to a
    double.  The functions that print a
    number or a date ([toFixed], [toString(36)], [Date.now]) and the
    reading of a number ([parseInt]) are parameters of the sections that use
    them. *)

From Stdlib Require Import ZArith QArith Qround String Ascii List Lia Lqa DecimalString.
From stdpp Require Import base option list strings gmap.
Import ListNotations.

Local Open Scope string_scope.
Local Open Scope Z_scope.

(** ** JavaScript primitives used by the code *)

Module Js.

(** [s] without its first [n] characters. *)
Fixpoint skip (n : nat) (s : string) : string :=
  match n, s with
  | S n', String _ s' => skip n' s'
  | _, _ => s
  end.

(** [s.replace(pat, rep)] with a string pattern: the first occurrence only. *)
Fixpoint replace (pat rep s : string) : string :=
  if String.prefix pat s then rep +:+ skip (String.length pat) s
  else match s with
       | EmptyString => EmptyString
       | String c s' => String c (replace pat rep s')
       end.

(** [s.split(' ')]: the pieces between single separator characters. *)
Fixpoint split_aux (sep : ascii) (cur : string) (s : string) : list string :=
  match s with
  | EmptyString => [cur]
  | String c s' =>
      if Ascii.eqb c sep then cur :: split_aux sep EmptyString s'
      else split_aux sep (cur +:+ String c EmptyString) s'
  end.

Definition split (sep : ascii) (s : string) : list string :=
  split_aux sep EmptyString s.

(** [s.includes(sub)]. *)
Fixpoint includes (sub s : string) : bool :=
  String.prefix sub s ||
  match s with
  | EmptyString => false
  | String _ s' => includes sub s'
  end.

(** [Math.floor] and [Math.round] (halves go up) on exact rationals. *)
Definition floor (x : Q) : Z := Qfloor x.
Definition round (x : Q) : Z := Qfloor (x + (1 # 2)).

Definition min (x y : Q) : Q := if Qle_bool x y then x else y.

(** The value of a comparison chain over numbers that may be
    [-Infinity] or [Infinity] ([evaluateQuick], [calculateBestMove]). *)
Inductive num := NegInf | Fin (z : Z) | PosInf.

Definition neg (x : num) : num :=
  match x with NegInf => PosInf | Fin z => Fin (- z) | PosInf => NegInf end.

Definition gtb (x y : num) : bool :=
  match x, y with
  | NegInf, _ => false
  | Fin _, NegInf => true
  | Fin a, Fin b => b <? a
  | Fin _, PosInf => false
  | PosInf, PosInf => false
  | PosInf, _ => true
  end.

Definition max (x y : num) : num := if gtb y x then y else x.

(** Decimal digits of a natural number, and [(n / 100).toFixed(2)] for an
    integer [n]: sign, integer part, a dot, two digits. *)
Definition digits (n : Z) : string := NilZero.string_of_uint (N.to_uint (Z.to_N n)).

Definition two_digits (n : Z) : string :=
  if n <? 10 then "0" +:+ digits n else digits n.

Definition toFixed2_hundredths (n : Z) : string :=
  let a := Z.abs n in
  (if n <? 0 then "-" else "") +:+ digits (a / 100) +:+ "." +:+ two_digits (a mod 100).

End Js.


(** ** The rules library (chess.js) as an interface *)

Inductive Color := White | Black.

Inductive PieceSymbol := Pawn | Knight | Bishop | Rook | Queen | King.

Record Piece := { p_type : PieceSymbol; p_color : Color }.

(** A move as [chess.moves({ verbose: true })] and [chess.move] report it. *)
Record Move := {
  m_from : string;
  m_to : string;
  m_san : string;
  m_promotion : option string
}.

(** What the code hands to [chess.move]: an object read through its
    [from], [to] and [promotion] fields. *)
Record MoveReq := {
  q_from : string;
  q_to : string;
  q_promotion : option string
}.

Definition req_of_move (m : Move) : MoveReq :=
  {| q_from := m_from m; q_to := m_to m; q_promotion := m_promotion m |}.

#[global] Instance Color_eq_dec : EqDecision Color.
Proof. solve_decision. Defined.

#[global] Instance PieceSymbol_eq_dec : EqDecision PieceSymbol.
Proof. solve_decision. Defined.

(** One [Chess] object.  [load] is [new Chess(fen)] and [chess.load(fen)],
    [None] when the library throws on the string; [move] is
    [chess.move(...)], [None] when the library rejects the move (it throws);
    [chess.undo()] is the board held before the move.  [moves] is the
    legal-move enumeration, in the library's order; [chess.moves()] without
    [verbose] is the same list, read through [m_san]. *)
Class Rules := {
  Board : Type;
  load : string -> option Board;
  fen : Board -> string;
  turn : Board -> Color;
  moves : Board -> list Move;
  move : Board -> MoveReq -> option (Move * Board);
  isGameOver : Board -> bool;
  isCheck : Board -> bool;
  isCheckmate : Board -> bool;
  isStalemate : Board -> bool;
  isDraw : Board -> bool;
  board : Board -> list (list (option Piece));
  get : Board -> string -> option Piece;
  history : Board -> list string
}.

(** ** Outcomes, and the state-and-exception monad of the handlers *)

(** [Throw] is a JavaScript exception, caught by the nearest [try];
    [Fatal] is an exception raised inside the timer callback of
    [StockfishEngine.analyzePosition], which no [try] of the caller sees and
    which leaves the awaited promise unsettled. *)
Inductive res (A : Type) :=
| Ok (a : A)
| Throw (msg : string)
| Fatal (msg : string).
Arguments Ok {A} a.
Arguments Throw {A} msg.
Arguments Fatal {A} msg.

Definition M (S A : Type) : Type := S -> res A * S.

Definition ret {S A} (a : A) : M S A := fun s => (Ok a, s).

Definition bind {S A B} (m : M S A) (k : A -> M S B) : M S B :=
  fun s =>
    match m s with
    | (Ok a, s') => k a s'
    | (Throw e, s') => (Throw e, s')
    | (Fatal e, s') => (Fatal e, s')
    end.

Definition throw {S A} (msg : string) : M S A := fun s => (Throw msg, s).

(** [try { m } catch (error) { h error }]. *)
Definition try_catch {S A} (m : M S A) (h : string -> M S A) : M S A :=
  fun s =>
    match m s with
    | (Throw e, s') => h e s'
    | r => r
    end.

(** A computation that cannot touch the state. *)
Definition pure_res {S A} (r : res A) : M S A := fun s => (r, s).

Definition of_option {A} (msg : string) (o : option A) : res A :=
  match o with Some a => Ok a | None => Throw msg end.

Definition res_bind {A B} (r : res A) (k : A -> res B) : res B :=
  match r with
  | Ok a => k a
  | Throw e => Throw e
  | Fatal e => Fatal e
  end.

Declare Scope js_scope.
Delimit Scope js_scope with js.
Notation "'let*' x := m 'in' k" := (bind m (fun x => k))
  (at level 10, x pattern, m at level 100, k at level 200) : js_scope.
Notation "'let+' x := r 'in' k" := (res_bind r (fun x => k))
  (at level 10, x pattern, r at level 100, k at level 200) : js_scope.
Local Open Scope js_scope.

(** [Math.random]: the generator is the stream of the draws still to come. *)
Definition Rng : Type := nat -> Q.

Definition random : M Rng Q := fun g => (Ok (g 0%nat), fun n => g (S n)).

(** Every draw is in [[0, 1)]. *)
Definition rng_ok (g : Rng) : Prop := forall n, (0 <= g n)%Q /\ (g n < 1)%Q.

(** ** [StockfishEngine] (server/services/stockfishEngine.ts) *)

Inductive EvalType := Cp | Mate.

(** [{ type, value, formatted }]. *)
Record Evaluation := {
  ev_type : EvalType;
  ev_value : Z;
  ev_formatted : string
}.

(** [{ from, to, san, promotion }], the engine's best move. *)
Record BestMove := {
  bm_from : string;
  bm_to : string;
  bm_san : string;
  bm_promotion : option string
}.

Definition req_of_best (m : BestMove) : MoveReq :=
  {| q_from := bm_from m; q_to := bm_to m; q_promotion := bm_promotion m |}.

(** What [StockfishEngine.analyzePosition] resolves to. *)
Record EngineResult := {
  er_depth : Z;
  er_evaluation : Evaluation;
  er_bestMove : BestMove;
  er_principalVariation : list string;
  er_nodes : Z;
  er_time : Z;
  er_nps : Z
}.

Definition color_eqb (a b : Color) : bool := bool_decide (a = b).

Definition is_minor (t : PieceSymbol) : bool :=
  match t with Knight | Bishop => true | _ => false end.

Section StockfishEngine.

Context `{R : Rules}.

(** [pieceValues[square.type] || 0]. *)
Definition pieceValues (t : PieceSymbol) : Z :=
  match t with
  | Pawn => 100 | Knight => 320 | Bishop => 330
  | Rook => 500 | Queen => 900 | King => 0
  end.

Definition evaluateMaterial (b : Board) : Z :=
  fold_left (fun material row =>
    fold_left (fun material square =>
      match square with
      | Some pc =>
          let value := pieceValues (p_type pc) in
          material + (if color_eqb (p_color pc) White then value else - value)
      | None => material
      end) row material) (board b) 0.

Definition developmentSquares_white : list string :=
  ["c3"; "d2"; "e2"; "f3"; "g3"; "c4"; "d3"; "e3"; "f4"; "g4"].
Definition developmentSquares_black : list string :=
  ["c6"; "d7"; "e7"; "f6"; "g6"; "c5"; "d6"; "e6"; "f5"; "g5"].

Definition count_developed (b : Board) (c : Color) (squares : list string) : Z :=
  fold_left (fun n square =>
    match get b square with
    | Some pc => if color_eqb (p_color pc) c && is_minor (p_type pc) then n + 1 else n
    | None => n
    end) squares 0.

(** [{ white, black }]. *)
Definition countDevelopedPieces (b : Board) : Z * Z :=
  (count_developed b White developmentSquares_white,
   count_developed b Black developmentSquares_black).

Definition centerSquares : list string := ["d4"; "d5"; "e4"; "e5"].

Definition evaluatePosition (b : Board) : Z :=
  let positional :=
    fold_left (fun positional square =>
      match get b square with
      | Some pc => positional + (if color_eqb (p_color pc) White then 20 else -20)
      | None => positional
      end) centerSquares 0 in
  if (length (history b) <? 10)%nat then
    let developedPieces := countDevelopedPieces b in
    positional + (fst developedPieces * 10 - snd developedPieces * 10)
  else positional.

(** [String.fromCharCode(97 + col) + (8 - row)]. *)
Definition square_name (row col : nat) : string :=
  String (ascii_of_nat (97 + col)) (Js.digits (8 - Z.of_nat row)).

(** The first index below [n] at which [f] answers, scanning upwards. *)
Fixpoint first_from {A} (f : nat -> option A) (i n : nat) : option A :=
  match n with
  | O => None
  | S n' => match f i with
            | Some a => Some a
            | None => first_from f (S i) n'
            end
  end.

(** Rows 0..7, columns 0..7 of [chess.board()]. *)
Definition findKing (b : Board) (color : Color) : option string :=
  first_from (fun row =>
    first_from (fun col =>
      match nth_error (board b) row with
      | Some r =>
          match nth_error r col with
          | Some (Some pc) =>
              if bool_decide (p_type pc = King) && color_eqb (p_color pc) color
              then Some (square_name row col) else None
          | _ => None
          end
      | None => None
      end) 0 8) 0 8.

Definition countAttackers (b : Board) (square : string) (attackerColor : Color) : Z :=
  fold_left (fun attackers mv =>
    if String.eqb (m_to mv) square &&
       match get b (m_from mv) with
       | Some pc => color_eqb (p_color pc) attackerColor
       | None => false
       end
    then attackers + 1 else attackers) (moves b) 0.

Definition evaluateKingSafety (b : Board) : Z :=
  match findKing b White, findKing b Black with
  | Some whiteKing, Some blackKing =>
      let whiteAttackers := countAttackers b whiteKing Black in
      let blackAttackers := countAttackers b blackKing White in
      0 - whiteAttackers * 15 + blackAttackers * 15
  | _, _ => 0
  end.

(** [chess.fen().replace(' w ', ' b ').replace(' b ', ' w ')]. *)
Definition swapped_fen (s : string) : string :=
  Js.replace " b " " w " (Js.replace " w " " b " s).

(** [evaluateMobility] reloads the [Chess] object it is given: the result
    carries the board the object holds afterwards. *)
Definition evaluateMobility (b : Board) : res (Z * Board) :=
  let whiteMoves := Z.of_nat (length (moves b)) in
  let+ b' := of_option "Invalid FEN" (load (swapped_fen (fen b))) in
  let blackMoves := Z.of_nat (length (moves b')) in
  Ok ((whiteMoves - blackMoves) * 2, b').

Definition format_cp (evaluation : Z) : string :=
  if 0 <? evaluation then "+" +:+ Js.toFixed2_hundredths evaluation
  else Js.toFixed2_hundredths evaluation.

(** The terminal test reads the [Chess] object after [evaluateMobility]
    has reloaded it. *)
Definition calculateStockfishEvaluation (fen0 : string) (depth : Z) : M Rng Evaluation :=
  let* b := pure_res (of_option "Invalid FEN" (load fen0)) in
  let evaluation := evaluateMaterial b in
  let evaluation := evaluation + evaluatePosition b in
  let evaluation := evaluation + evaluateKingSafety b in
  let* (mobility, b') := pure_res (evaluateMobility b) in
  let evaluation := evaluation + mobility in
  let accuracy := Js.min (inject_Z depth / 20) 1 in
  let* r := random in
  let evaluation := (inject_Z evaluation + (r - (1 # 2)) * 100 * (1 - accuracy))%Q in
  let evaluation := Js.round evaluation in
  if isGameOver b' then
    if isCheckmate b' then
      let mateScore := if color_eqb (turn b') White then -30000 else 30000 in
      ret {| ev_type := Mate;
             ev_value := if 0 <? mateScore then 1 else -1;
             ev_formatted := if 0 <? mateScore then "M1" else "M-1" |}
    else
      ret {| ev_type := Cp; ev_value := 0; ev_formatted := "0.00" |}
  else
    ret {| ev_type := Cp; ev_value := evaluation; ev_formatted := format_cp evaluation |}.

(** [evaluateQuick(chess, depth)]; the recursion is on [depth], a call
    with [depth <= 0] being the base case.  [chess.move] followed by
    [chess.undo] leaves the object on the board it had. *)
Fixpoint evaluateQuick (b : Board) (depth : nat) : res Js.num :=
  match depth with
  | O => Ok (Js.Fin (evaluateMaterial b + evaluatePosition b))
  | S depth' =>
      if isGameOver b then Ok (Js.Fin (evaluateMaterial b + evaluatePosition b))
      else
        fold_left (fun acc mv =>
          let+ maxScore := acc in
          let+ (_, b1) := of_option "Invalid move" (move b (req_of_move mv)) in
          let+ score := evaluateQuick b1 depth' in
          Ok (Js.max maxScore (Js.neg score)))
          (firstn 3 (moves b)) (Ok Js.NegInf)
  end.

Definition calculateBestMove (fen0 : string) (depth : Z) : res BestMove :=
  let+ b := of_option "Invalid FEN" (load fen0) in
  match moves b with
  | [] => Ok {| bm_from := ""; bm_to := ""; bm_san := "No legal moves"; bm_promotion := None |}
  | first :: _ =>
      let+ (bestMove, _) :=
        fold_left (fun acc mv =>
          let+ (bestMove, bestScore) := acc in
          let+ (_, b1) := of_option "Invalid move" (move b (req_of_move mv)) in
          let+ score := evaluateQuick b1 (Z.to_nat depth) in
          if Js.gtb score bestScore then Ok (mv, score) else Ok (bestMove, bestScore))
          (firstn (Nat.min (length (moves b)) 10) (moves b)) (Ok (first, Js.NegInf)) in
      Ok {| bm_from := m_from bestMove; bm_to := m_to bestMove;
            bm_san := m_san bestMove; bm_promotion := m_promotion bestMove |}
  end.

(** [l[i]] for a number [i]: [undefined] outside the list. *)
Definition nth_Z {A} (l : list A) (i : Z) : option A :=
  if i <? 0 then None else nth_error l (Z.to_nat i).

(** The loop [for (let i = 1; i < depth; i++)], [n] iterations to go. *)
Fixpoint pv_loop (n : nat) (b : Board) (pv : list string) : M Rng (list string) :=
  match n with
  | O => ret pv
  | S n' =>
      match moves b with
      | [] => ret pv
      | _ :: _ =>
          let* r := random in
          let i := Js.floor (r * inject_Z (Z.of_nat (Nat.min 3 (length (moves b))))) in
          match nth_Z (moves b) i with
          | None => throw "TypeError"
          | Some nextMove =>
              let* (_, b') := pure_res (of_option "Invalid move" (move b (req_of_move nextMove))) in
              pv_loop n' b' (pv ++ [m_san nextMove])
          end
      end
  end.

Definition calculatePrincipalVariation (fen0 : string) (bestMove : BestMove) (depth : nat)
  : M Rng (list string) :=
  let pv := [bm_san bestMove] in
  let* b := pure_res (of_option "Invalid FEN" (load fen0)) in
  let* (_, b1) := pure_res (of_option "Invalid move" (move b (req_of_best bestMove))) in
  pv_loop (depth - 1) b1 pv.

(** The constructor sets [isReady] to [true]; nothing resets it. *)
Definition isReady : bool := true.

(** The body of a [setTimeout] callback: what it throws is not caught by
    the caller and the promise stays pending. *)
Definition in_timer {A} (m : M Rng A) : M Rng A :=
  fun g =>
    match m g with
    | (Throw e, g') => (Fatal e, g')
    | r => r
    end.

(** [StockfishEngine.analyzePosition(fen, depth)].  The delay of the timer
    is drawn when the timer is set; the draws of the callback follow in the
    order of the object literal. *)
Definition analyzePosition (fen0 : string) (depth : Z) : M Rng EngineResult :=
  if negb isReady then throw "Stockfish engine not ready"
  else
    let* _ := random in
    in_timer (
      let* evaluation := calculateStockfishEvaluation fen0 depth in
      let* bestMove := pure_res (calculateBestMove fen0 depth) in
      let* pv := calculatePrincipalVariation fen0 bestMove 3 in
      let* r1 := random in
      let* r2 := random in
      let* r3 := random in
      ret {| er_depth := depth;
             er_evaluation := evaluation;
             er_bestMove := bestMove;
             er_principalVariation := pv;
             er_nodes := Js.floor (r1 * 100000) + 50000;
             er_time := Js.floor (r2 * 2000) + 500;
             er_nps := Js.floor (r3 * 500000) + 1000000 |}).

End StockfishEngine.

(** ** [EnhancedChessEngineService] (server/services/stockfishEngine.ts)

    The service keeps one [Chess] object in [this.chess]; every method
    reloads it from its [fen] argument before reading it, so the field
    carries nothing from one call to the next. *)

Inductive Difficulty := Beginner | Intermediate | Advanced | Stockfish.

(** [{ fen, turn }] of an analysis ([pgn] is written and never read). *)
Record AnalysisPosition := {
  ap_fen : string;
  ap_turn : Color
}.

(** [ChessAnalysis] of shared/api.ts. *)
Record ChessAnalysis := {
  ca_position : AnalysisPosition;
  ca_evaluation : Evaluation;
  ca_bestMove : BestMove;
  ca_principalVariation : list string;
  ca_depth : Z;
  ca_confidence : Z;
  ca_analysisTime : Z
}.

(** What [getStockfishMove] returns: [{ from, to, san, fen, promotion }]. *)
Record BotMove := {
  bot_from : string;
  bot_to : string;
  bot_san : string;
  bot_fen : string;
  bot_promotion : option string
}.

(** What [makeMove] of the service returns. *)
Record MoveResult := {
  mr_move : Move;
  mr_fen : string;
  mr_isGameOver : bool;
  mr_isCheck : bool;
  mr_isCheckmate : bool;
  mr_isStalemate : bool;
  mr_isDraw : bool
}.

Definition Qltb (x y : Q) : bool := negb (Qle_bool y x).

Module Enhanced.
Section EnhancedChessEngineService.

Context `{R : Rules}.

Definition analyzeWithStockfish (fen0 : string) (depth : Z) (timeout : Z) : M Rng ChessAnalysis :=
  try_catch (
    let* b := pure_res (of_option "Invalid FEN" (load fen0)) in
    let* stockfishResult := analyzePosition fen0 depth in
    ret {| ca_position := {| ap_fen := fen0; ap_turn := turn b |};
           ca_evaluation := er_evaluation stockfishResult;
           ca_bestMove := er_bestMove stockfishResult;
           ca_principalVariation := er_principalVariation stockfishResult;
           ca_depth := er_depth stockfishResult;
           ca_confidence := Z.min 98 (85 + depth);
           ca_analysisTime := er_time stockfishResult |})
    (fun message => throw ("Stockfish analysis failed: " +:+ message)).

(** [moves.find(move => move.from === best.from && move.to === best.to)]. *)
Definition find_best (ms : list Move) (best : BestMove) : option Move :=
  List.find (fun mv => String.eqb (m_from mv) (bm_from best) && String.eqb (m_to mv) (bm_to best)) ms.

(** [a || b] on a possibly undefined move. *)
Definition or_else {A} (a : option A) (b : option A) : option A :=
  match a with Some _ => a | None => b end.

(** The [switch (difficulty)]: the move handed to [chess.move], [None]
    for [undefined]. *)
Definition selectMove (fen0 : string) (difficulty : Difficulty) (ms : list Move)
  : M Rng (option Move) :=
  match difficulty with
  | Stockfish =>
      let* analysis := analyzePosition fen0 18 in
      ret (or_else (find_best ms (er_bestMove analysis)) (nth_Z ms 0))
  | Advanced =>
      let* advancedAnalysis := analyzePosition fen0 12 in
      ret (or_else (find_best ms (er_bestMove advancedAnalysis)) (nth_Z ms 0))
  | Intermediate =>
      let* intAnalysis := analyzePosition fen0 8 in
      let topMoves := firstn 3 ms in
      let* r := random in
      if Qltb r (7 # 10) then
        ret (or_else (find_best ms (er_bestMove intAnalysis)) (nth_Z topMoves 0))
      else
        let* r' := random in
        ret (nth_Z topMoves (Js.floor (r' * inject_Z (Z.of_nat (length topMoves)))))
  | Beginner =>
      let* r := random in
      if Qltb r (3 # 10) then
        let* begAnalysis := analyzePosition fen0 4 in
        ret (or_else (find_best ms (er_bestMove begAnalysis)) (nth_Z ms 0))
      else
        let* r' := random in
        ret (nth_Z ms (Js.floor (r' * inject_Z (Z.of_nat (length ms)))))
  end.

(** [getStockfishMove(fen, difficulty)]: [None] is [null]. *)
Definition getStockfishMove (fen0 : string) (difficulty : Difficulty) : M Rng (option BotMove) :=
  let* b := pure_res (of_option "Invalid FEN" (load fen0)) in
  match moves b with
  | [] => ret None
  | _ :: _ =>
      let* selectedMove := selectMove fen0 difficulty (moves b) in
      match selectedMove with
      | None => throw "TypeError"
      | Some selected =>
          let* (mv, b') := pure_res (of_option "Invalid move" (move b (req_of_move selected))) in
          ret (Some {| bot_from := m_from mv; bot_to := m_to mv; bot_san := m_san mv;
                       bot_fen := fen b'; bot_promotion := m_promotion mv |})
      end
  end.

(** [try { load; move; return result !== null } catch { return false }]. *)
Definition isLegalMove (fen0 : string) (mv : MoveReq) : bool :=
  match load fen0 with
  | None => false
  | Some b => match move b mv with
              | Some _ => true
              | None => false
              end
  end.

(** [makeMove(fen, move)] of the service.  The library throws on a
    rejected move, so [null] is never the [return] taken. *)
Definition makeMove (fen0 : string) (mv : MoveReq) : res (option MoveResult) :=
  let+ b := of_option "Invalid FEN" (load fen0) in
  let+ (result, b') := of_option "Invalid move" (move b mv) in
  Ok (Some {| mr_move := result;
              mr_fen := fen b';
              mr_isGameOver := isGameOver b';
              mr_isCheck := isCheck b';
              mr_isCheckmate := isCheckmate b';
              mr_isStalemate := isStalemate b';
              mr_isDraw := isDraw b' |}).

(** [getGameStatus(fen)]. *)
Definition getGameStatus (fen0 : string) : res string :=
  let+ b := of_option "Invalid FEN" (load fen0) in
  if isCheckmate b then
    Ok (if color_eqb (turn b) White then "0-1" else "1-0")
  else if isStalemate b || isDraw b then Ok "1/2-1/2"
  else Ok "active".

End EnhancedChessEngineService.
End Enhanced.

(** ** [ChessEngineService] (server/services/chessEngine.ts) *)

Module ChessEngine.
Section ChessEngineService.

Context `{R : Rules}.

(** [pieceValues[piece.type] || 0]: [piece.type] is a lower-case letter. *)
Definition pieceValues (t : PieceSymbol) : Z :=
  match t with
  | Pawn => 1 | Knight => 3 | Bishop => 3 | Rook => 5 | Queen => 9 | King => 0
  end.

(** [evaluatePosition()] on the board [this.chess] holds. *)
Definition evaluatePosition (b : Board) : M Rng Z :=
  let evaluation :=
    fold_left (fun evaluation row =>
      fold_left (fun evaluation square =>
        match square with
        | Some pc =>
            let value := pieceValues (p_type pc) in
            evaluation + (if color_eqb (p_color pc) White then value else - value)
        | None => evaluation
        end) row evaluation) (board b) 0 in
  let evaluation := (inject_Z evaluation + inject_Z (Z.of_nat (length (moves b))) * (1 # 10))%Q in
  let* r := random in
  let evaluation := (evaluation + (r * 100 - 50))%Q in
  ret (Js.round (evaluation * 100)).

Definition getGameStatus (fen0 : string) : res string :=
  let+ b := of_option "Invalid FEN" (load fen0) in
  if isCheckmate b then
    Ok (if color_eqb (turn b) White then "0-1" else "1-0")
  else if isStalemate b || isDraw b then Ok "1/2-1/2"
  else Ok "active".

End ChessEngineService.
End ChessEngine.

(** ** Game sessions and user statistics (shared/api.ts) *)

Inductive Status := Active | Checkmate | Stalemate | Draw | Resignation.

#[global] Instance Status_eq_dec : EqDecision Status.
Proof. solve_decision. Defined.

Inductive ColorChoice := ChooseWhite | ChooseBlack | ChooseRandom.

(** [ChessPosition]: [turn] is whatever [fen.split(' ')[1]] gave. *)
Record ChessPosition := {
  cp_fen : string;
  cp_turn : option string
}.

(** One entry of the move log. *)
Record ChessMove := {
  cm_from : string;
  cm_to : string;
  cm_san : string;
  cm_fen : string;
  cm_timestamp : string;
  cm_isPlayerMove : bool
}.

Record GameSettings := {
  gs_initial : Z;
  gs_increment : Z;
  gs_difficulty : Difficulty;
  gs_color : ColorChoice
}.

(** [ChessGame].  [result] holds the string the handler stored. *)
Record ChessGame := {
  g_id : string;
  g_playerColor : Color;
  g_currentPosition : ChessPosition;
  g_moves : list ChessMove;
  g_status : Status;
  g_settings : GameSettings;
  g_startTime : string;
  g_endTime : option string;
  g_result : option string
}.

Definition with_move (e : ChessMove) (p : ChessPosition) (g : ChessGame) : ChessGame :=
  {| g_id := g_id g; g_playerColor := g_playerColor g;
     g_currentPosition := p; g_moves := g_moves g ++ [e];
     g_status := g_status g; g_settings := g_settings g;
     g_startTime := g_startTime g; g_endTime := g_endTime g; g_result := g_result g |}.

Definition with_status (st : Status) (endTime : string) (g : ChessGame) : ChessGame :=
  {| g_id := g_id g; g_playerColor := g_playerColor g;
     g_currentPosition := g_currentPosition g; g_moves := g_moves g;
     g_status := st; g_settings := g_settings g;
     g_startTime := g_startTime g; g_endTime := Some endTime; g_result := g_result g |}.

Definition with_result (r : string) (g : ChessGame) : ChessGame :=
  {| g_id := g_id g; g_playerColor := g_playerColor g;
     g_currentPosition := g_currentPosition g; g_moves := g_moves g;
     g_status := g_status g; g_settings := g_settings g;
     g_startTime := g_startTime g; g_endTime := g_endTime g; g_result := Some r |}.

Record UserStats := {
  totalAnalyses : Z;
  totalGames : Z;
  gamesWon : Z;
  gamesLost : Z;
  gamesDrawn : Z;
  currentRating : Z;
  favoriteOpenings : list string
}.

(** ** [DataService] (server/services/dataService.ts) *)

(** The store; the analyses map is not read by any operation below. *)
Record DataStore := {
  games : gmap string ChessGame;
  stats : UserStats
}.

Module DataService.

(** The statistics the constructor installs. *)
Definition initial_stats : UserStats :=
  {| totalAnalyses := 0; totalGames := 0; gamesWon := 0; gamesLost := 0; gamesDrawn := 0;
     currentRating := 1200;
     favoriteOpenings := ["Italian Game"; "Sicilian Defense"; "Queen's Gambit"] |}.

Definition result_is (g : ChessGame) (r : string) : bool :=
  match g_result g with
  | Some r' => String.eqb r' r
  | None => false
  end.

(** The [if (game.status !== 'active')] block of [saveGame]. *)
Definition update_stats (game : ChessGame) (s : UserStats) : UserStats :=
  if bool_decide (g_status game <> Active) then
    let total := totalGames s + 1 in
    let '(won, lost, drawn, rating) :=
      if result_is game "1-0" && color_eqb (g_playerColor game) White then
        (gamesWon s + 1, gamesLost s, gamesDrawn s, currentRating s + 20)
      else if result_is game "0-1" && color_eqb (g_playerColor game) Black then
        (gamesWon s + 1, gamesLost s, gamesDrawn s, currentRating s + 20)
      else if result_is game "1/2-1/2" then
        (gamesWon s, gamesLost s, gamesDrawn s + 1, currentRating s + 5)
      else
        (gamesWon s, gamesLost s + 1, gamesDrawn s, currentRating s - 15) in
    {| totalAnalyses := totalAnalyses s; totalGames := total;
       gamesWon := won; gamesLost := lost; gamesDrawn := drawn;
       currentRating := Z.max 800 (Z.min 2400 rating);
       favoriteOpenings := favoriteOpenings s |}
  else s.

Definition saveGame (game : ChessGame) (d : DataStore) : DataStore :=
  {| games := <[g_id game := game]> (games d);
     stats := update_stats game (stats d) |}.

Definition getGame (gameId : string) (d : DataStore) : option ChessGame :=
  games d !! gameId.

End DataService.

(** ** The handlers of server/routes/game.ts *)

(** What a handler reads and writes: the random generator, the clock
    ([new Date().toISOString()], one reading per call) and the store. *)
Record World := {
  w_rng : Rng;
  w_clock : nat -> string;
  w_data : DataStore
}.

Definition liftRng {A} (m : M Rng A) : M World A :=
  fun w =>
    let '(r, g) := m (w_rng w) in
    (r, {| w_rng := g; w_clock := w_clock w; w_data := w_data w |}).

Definition now : M World string :=
  fun w => (Ok (w_clock w 0%nat),
            {| w_rng := w_rng w; w_clock := fun n => w_clock w (S n); w_data := w_data w |}).

Definition read_data {A} (f : DataStore -> A) : M World A :=
  fun w => (Ok (f (w_data w)), w).

Definition write_data (f : DataStore -> DataStore) : M World unit :=
  fun w => (Ok tt, {| w_rng := w_rng w; w_clock := w_clock w; w_data := f (w_data w) |}).

(** [getGame] hands out the object the map holds, and the handlers assign
    to its fields: each assignment is a write to the entry it was read from. *)
Definition assign (gameId : string) (game : ChessGame) : M World unit :=
  write_data (fun d => {| games := <[gameId := game]> (games d); stats := stats d |}).

(** [res.status(code).json({ success, game, botMove, error })]. *)
Record Response := {
  r_code : Z;
  r_success : bool;
  r_error : option string;
  r_game : option ChessGame;
  r_botMove : option ChessMove
}.

Definition failure (code : Z) (msg : string) : Response :=
  {| r_code := code; r_success := false; r_error := Some msg; r_game := None; r_botMove := None |}.

Definition success (game : ChessGame) (botMove : option ChessMove) : Response :=
  {| r_code := 200; r_success := true; r_error := None; r_game := Some game; r_botMove := botMove |}.

(** The body of [POST /api/game/move]. *)
Record MakeMoveRequest := {
  req_gameId : option string;
  req_move : option MoveReq
}.

(** [fen.split(' ')[1]]. *)
Definition fen_turn (s : string) : option string := nth_error (Js.split " " s) 1.

Module Game.
Section Handlers.

Context `{R : Rules}.

(** The part of [makeMove] after the player's entry is in the log and the
    game goes on: the bot's reply. *)
Definition bot_reply (gameId : string) (game : ChessGame) (moveResult : MoveResult)
  : M World Response :=
  let* botMove := liftRng (Enhanced.getStockfishMove (mr_fen moveResult) (gs_difficulty (g_settings game))) in
  match botMove with
  | Some botMove =>
      let* timestamp := now in
      let botMoveEntry :=
        {| cm_from := bot_from botMove; cm_to := bot_to botMove; cm_san := bot_san botMove;
           cm_fen := bot_fen botMove; cm_timestamp := timestamp; cm_isPlayerMove := false |} in
      let game := with_move botMoveEntry
                    {| cp_fen := bot_fen botMove; cp_turn := fen_turn (bot_fen botMove) |} game in
      let* _ := assign gameId game in
      let* gameStatus := pure_res (Enhanced.getGameStatus (bot_fen botMove)) in
      if negb (String.eqb gameStatus "active") then
        let* endTime := now in
        let game := with_status (if Js.includes "1/2" gameStatus then Draw else Checkmate)
                      endTime game in
        let game := with_result gameStatus game in
        let* _ := assign gameId game in
        let* _ := write_data (DataService.saveGame game) in
        ret (success game (Some botMoveEntry))
      else
        let* _ := write_data (DataService.saveGame game) in
        ret (success game (Some botMoveEntry))
  | None =>
      let* _ := write_data (DataService.saveGame game) in
      ret (success game None)
  end.

(** The part of [makeMove] from the player's log entry on. *)
Definition player_move (gameId : string) (game : ChessGame) (moveResult : MoveResult)
  : M World Response :=
  let* timestamp := now in
  let playerMoveEntry :=
    {| cm_from := m_from (mr_move moveResult);
       cm_to := m_to (mr_move moveResult);
       cm_san := m_san (mr_move moveResult);
       cm_fen := mr_fen moveResult;
       cm_timestamp := timestamp;
       cm_isPlayerMove := true |} in
  let game := with_move playerMoveEntry
                {| cp_fen := mr_fen moveResult; cp_turn := fen_turn (mr_fen moveResult) |} game in
  let* _ := assign gameId game in
  if mr_isGameOver moveResult then
    let* endTime := now in
    let game := with_status
                  (if mr_isCheckmate moveResult then Checkmate
                   else if mr_isStalemate moveResult then Stalemate
                   else Draw) endTime game in
    let* _ := assign gameId game in
    let* result := pure_res (ChessEngine.getGameStatus (mr_fen moveResult)) in
    let game := with_result result game in
    let* _ := assign gameId game in
    let* _ := write_data (DataService.saveGame game) in
    ret (success game None)
  else bot_reply gameId game moveResult.

(** [POST /api/game/move]. *)
Definition makeMove (req : MakeMoveRequest) : M World Response :=
  try_catch (
    match req_gameId req, req_move req with
    | Some gameId, Some mv =>
        if String.eqb gameId "" then ret (failure 400 "Game ID and move are required")
        else
          let* found := read_data (DataService.getGame gameId) in
          match found with
          | None => ret (failure 404 "Game not found")
          | Some game =>
              if bool_decide (g_status game <> Active) then
                ret (failure 400 "Game is not active")
              else if negb (Enhanced.isLegalMove (cp_fen (g_currentPosition game)) mv) then
                ret (failure 400 "Illegal move")
              else
                let* moveResult :=
                  pure_res (Enhanced.makeMove (cp_fen (g_currentPosition game)) mv) in
                match moveResult with
                | None => ret (failure 400 "Failed to make move")
                | Some moveResult => player_move gameId game moveResult
                end
          end
    | _, _ => ret (failure 400 "Game ID and move are required")
    end)
    (fun _ => ret (failure 500 "Failed to make move")).

(** [POST /api/game/:gameId/resign]. *)
Definition resignGame (gameId : string) : M World Response :=
  try_catch (
    let* found := read_data (DataService.getGame gameId) in
    match found with
    | None => ret (failure 404 "Game not found")
    | Some game =>
        if bool_decide (g_status game <> Active) then
          ret (failure 400 "Game is not active")
        else
          let* endTime := now in
          let game := with_status Resignation endTime game in
          let game := with_result
                        (if color_eqb (g_playerColor game) White then "0-1" else "1-0") game in
          let* _ := assign gameId game in
          let* _ := write_data (DataService.saveGame game) in
          ret (success game None)
    end)
    (fun _ => ret (failure 500 "Failed to resign game")).

End Handlers.
End Game.

(** ** The guard of the move handler, for either way the library rejects *)

(** What [chess.move] does with a request: it plays it, or it rejects it, by
    returning [null] or by throwing, according to the version of the
    library. *)
Inductive Attempt `{R : Rules} :=
  | Played (result : Move) (b' : Board)
  | Null
  | Thrown.

Module Guarded.
Section Guarded.

Context `{R : Rules}.
Variable chess_move : Board -> MoveReq -> Attempt.

(** [try { load; result = move; return result !== null } catch { return false }]. *)
Definition isLegalMove (fen0 : string) (mv : MoveReq) : bool :=
  match load fen0 with
  | None => false
  | Some b => match chess_move b mv with
              | Played _ _ => true
              | Null => false
              | Thrown => false
              end
  end.

(** [load; result = move; if (result) return {...}; return null]. *)
Definition makeMove (fen0 : string) (mv : MoveReq) : res (option MoveResult) :=
  let+ b := of_option "Invalid FEN" (load fen0) in
  match chess_move b mv with
  | Played result b' =>
      Ok (Some {| mr_move := result;
                  mr_fen := fen b';
                  mr_isGameOver := isGameOver b';
                  mr_isCheck := isCheck b';
                  mr_isCheckmate := isCheckmate b';
                  mr_isStalemate := isStalemate b';
                  mr_isDraw := isDraw b' |})
  | Null => Ok None
  | Thrown => Throw "Invalid move"
  end.

(** The two tests of [POST /api/game/move] on the move, on the position
    [fen0] of the game: the response the handler returns with, or the result
    it goes on with. *)
Definition validated_move (fen0 : string) (mv : MoveReq) : res (Response + MoveResult) :=
  if negb (isLegalMove fen0 mv) then Ok (inl (failure 400 "Illegal move"))
  else
    let+ moveResult := makeMove fen0 mv in
    match moveResult with
    | None => Ok (inl (failure 400 "Failed to make move"))
    | Some moveResult => Ok (inr moveResult)
    end.

End Guarded.

(** The library that throws: [move] of [Rules]. *)
Definition throwing `{R : Rules} (b : Board) (mv : MoveReq) : Attempt :=
  match move b mv with
  | Some (result, b') => Played result b'
  | None => Thrown
  end.

(** A library that answers [null] to every request. *)
Definition refusing `{R : Rules} (b : Board) (mv : MoveReq) : Attempt := Null.

End Guarded.

(** ** Finite extracts of the rules library

    A [Rules] instance read off a table: for each position listed, whether
    the side to move is in check and the legal moves in the library's order,
    each with the position it leads to.  Side to move and piece placement are
    parsed from the FEN string itself.  A position that is not listed does
    not load. *)

Module Book.

Record Entry := {
  e_fen : string;
  e_check : bool;
  e_moves : list (Move * string)
}.

(** The [Chess] object: the position it holds and the moves played on it
    since it was loaded. *)
Record State := {
  bk_fen : string;
  bk_history : list string
}.

Definition piece_of_char (c : ascii) : option Piece :=
  let mk t col := Some {| p_type := t; p_color := col |} in
  if Ascii.eqb c "p" then mk Pawn Black else
  if Ascii.eqb c "n" then mk Knight Black else
  if Ascii.eqb c "b" then mk Bishop Black else
  if Ascii.eqb c "r" then mk Rook Black else
  if Ascii.eqb c "q" then mk Queen Black else
  if Ascii.eqb c "k" then mk King Black else
  if Ascii.eqb c "P" then mk Pawn White else
  if Ascii.eqb c "N" then mk Knight White else
  if Ascii.eqb c "B" then mk Bishop White else
  if Ascii.eqb c "R" then mk Rook White else
  if Ascii.eqb c "Q" then mk Queen White else
  if Ascii.eqb c "K" then mk King White else None.

(** One rank of the placement field: a digit is a run of empty squares. *)
Fixpoint parse_rank (s : string) : list (option Piece) :=
  match s with
  | EmptyString => []
  | String c s' =>
      let n := nat_of_ascii c in
      if ((48 <? n) && (n <? 57))%nat then repeat None (n - 48) ++ parse_rank s'
      else piece_of_char c :: parse_rank s'
  end.

Definition placement (s : string) : list (list (option Piece)) :=
  match Js.split " " s with
  | field :: _ => map parse_rank (Js.split "/" field)
  | [] => []
  end.

(** The piece on a square named like [e4]. *)
Definition piece_at (s : string) (square : string) : option Piece :=
  match square with
  | String f (String r EmptyString) =>
      let col := (nat_of_ascii f - 97)%nat in
      let row := (56 - nat_of_ascii r)%nat in
      match nth_error (placement s) row with
      | Some rank => match nth_error rank col with
                     | Some sq => sq
                     | None => None
                     end
      | None => None
      end
  | _ => None
  end.

Section Table.

Variable table : list Entry.

Definition lookup (s : string) : option Entry :=
  List.find (fun e => String.eqb (e_fen e) s) table.

Definition bk_load (s : string) : option State :=
  match lookup s with
  | Some _ => Some {| bk_fen := s; bk_history := [] |}
  | None => None
  end.

Definition bk_turn (b : State) : Color :=
  match fen_turn (bk_fen b) with
  | Some side => if String.eqb side "b" then Black else White
  | None => White
  end.

Definition bk_entries (b : State) : list (Move * string) :=
  match lookup (bk_fen b) with
  | Some e => e_moves e
  | None => []
  end.

Definition bk_moves (b : State) : list Move := map fst (bk_entries b).

Definition matches (q : MoveReq) (m : Move) : bool :=
  String.eqb (m_from m) (q_from q) && String.eqb (m_to m) (q_to q) &&
  match q_promotion q with
  | None => true
  | Some p => match m_promotion m with
              | Some p' => String.eqb p p'
              | None => false
              end
  end.

Definition bk_move (b : State) (q : MoveReq) : option (Move * State) :=
  match List.find (fun ms => matches q (fst ms)) (bk_entries b) with
  | Some (m, s') =>
      match lookup s' with
      | Some _ => Some (m, {| bk_fen := s'; bk_history := bk_history b ++ [m_san m] |})
      | None => None
      end
  | None => None
  end.

(** Every move of the table leads to a position of the table. *)
Definition closed : bool :=
  forallb (fun e =>
    forallb (fun ms => match lookup (snd ms) with Some _ => true | None => false end)
      (e_moves e)) table.

Definition bk_isCheck (b : State) : bool :=
  match lookup (bk_fen b) with
  | Some e => e_check e
  | None => false
  end.

Definition stuck (b : State) : bool :=
  match bk_moves b with [] => true | _ :: _ => false end.

Definition bk_isCheckmate (b : State) : bool := bk_isCheck b && stuck b.
Definition bk_isStalemate (b : State) : bool := negb (bk_isCheck b) && stuck b.

(** None of the positions listed is drawn by the fifty-move rule, by
    insufficient material or by repetition. *)
Definition bk_isDraw (b : State) : bool := bk_isStalemate b.

Definition bk_isGameOver (b : State) : bool :=
  bk_isCheckmate b || bk_isStalemate b || bk_isDraw b.

#[local] Instance rules : Rules := {|
    Board := State;
    load := bk_load;
    fen := bk_fen;
    turn := bk_turn;
    moves := bk_moves;
    move := bk_move;
    isGameOver := bk_isGameOver;
    isCheck := bk_isCheck;
    isCheckmate := bk_isCheckmate;
    isStalemate := bk_isStalemate;
    isDraw := bk_isDraw;
    board := fun b => placement (bk_fen b);
    get := fun b sq => piece_at (bk_fen b) sq;
    history := bk_history
  |}.

End Table.

Definition mv (from to san : string) : Move :=
  {| m_from := from; m_to := to; m_san := san; m_promotion := None |}.

(** *** A locked pawn ending

    White: Ka1, pawns b2, g4, g6, h7.  Black: Kh8, pawns a2, b3, b5, g7.
    Both kings are walled in and every pawn but g4 and b5 is blocked: White
    can only play g5, Black can only answer b4, and White is then
    stalemated. *)

Definition locked0 := "7k/6pP/6P1/1p6/6P1/1p6/pP6/K7 w - - 0 1".
Definition locked1 := "7k/6pP/6P1/1p4P1/8/1p6/pP6/K7 b - - 0 1".
Definition locked2 := "7k/6pP/6P1/6P1/1p6/1p6/pP6/K7 w - - 0 2".
(** [locked1] with White to move: the g-pawn is blocked, White has no move. *)
Definition locked1w := "7k/6pP/6P1/1p4P1/8/1p6/pP6/K7 w - - 0 1".

(** The same ending with the black pawn already on b4: Black to move is
    stalemated, White to move still has g5. *)
Definition stale_b := "7k/6pP/6P1/8/1p4P1/1p6/pP6/K7 b - - 0 1".
Definition stale_w := "7k/6pP/6P1/8/1p4P1/1p6/pP6/K7 w - - 0 1".
Definition stale_end := "7k/6pP/6P1/6P1/1p6/1p6/pP6/K7 b - - 0 1".

Definition locked_table : list Entry :=
  [ {| e_fen := locked0; e_check := false; e_moves := [(mv "g4" "g5" "g5", locked1)] |};
    {| e_fen := locked1; e_check := false; e_moves := [(mv "b5" "b4" "b4", locked2)] |};
    {| e_fen := locked2; e_check := false; e_moves := [] |};
    {| e_fen := locked1w; e_check := false; e_moves := [] |};
    {| e_fen := stale_b; e_check := false; e_moves := [] |};
    {| e_fen := stale_w; e_check := false; e_moves := [(mv "g4" "g5" "g5", stale_end)] |};
    {| e_fen := stale_end; e_check := false; e_moves := [] |} ].

(** *** A mate by a pawn

    White: Kf5, pawns g3, g4, g5.  Black: Kh5, to move and mated by the
    pawn on g4.  [mated_w] is the same placement with White to move, the
    string [evaluateMobility] loads; the library lists White's moves there,
    the capture on h5 among them. *)

Definition mated := "8/8/8/5KPk/6P1/6P1/8/8 b - - 0 1".
Definition mated_w := "8/8/8/5KPk/6P1/6P1/8/8 w - - 0 1".

Definition mate_table : list Entry :=
  [ {| e_fen := mated; e_check := true; e_moves := [] |};
    {| e_fen := mated_w; e_check := false;
       e_moves := [ (mv "f5" "e6" "Ke6+", "8/8/4K3/6Pk/6P1/6P1/8/8 b - - 1 1");
                    (mv "f5" "f6" "Kf6+", "8/8/5K2/6Pk/6P1/6P1/8/8 b - - 1 1");
                    (mv "f5" "f4" "Kf4+", "8/8/8/6Pk/5KP1/6P1/8/8 b - - 1 1");
                    (mv "f5" "e4" "Ke4+", "8/8/8/6Pk/4K1P1/6P1/8/8 b - - 1 1");
                    (mv "f5" "e5" "Ke5+", "8/8/8/4K1Pk/6P1/6P1/8/8 b - - 1 1");
                    (mv "g5" "g6" "g6+", "8/8/6P1/5K1k/6P1/6P1/8/8 b - - 0 1");
                    (mv "g4" "h5" "gxh5", "8/8/8/5KPP/8/6P1/8/8 b - - 0 1") ] |} ].

(** *** A double pawn push beside a black pawn

    White: Kh1, pawn e4, which has just come from e2.  Black: Kh8, pawn d4,
    to move: the king has three squares and the pawn can advance or take
    en passant on e3.  The same string with White to move is no position at
    all, its en-passant square being on the third rank: the library refuses
    to load it, and the table does not hold it. *)

Definition pushed := "7k/8/8/8/3pP3/8/8/7K b - e3 0 1".

Definition en_passant_table : list Entry :=
  [ {| e_fen := pushed; e_check := false;
       e_moves := [ (mv "h8" "h7" "Kh7", "8/7k/8/8/3pP3/8/8/7K w - - 1 2");
                    (mv "h8" "g7" "Kg7", "8/6k1/8/8/3pP3/8/8/7K w - - 1 2");
                    (mv "h8" "g8" "Kg8", "6k1/8/8/8/3pP3/8/8/7K w - - 1 2");
                    (mv "d4" "d3" "d3", "7k/8/8/8/4P3/3p4/8/7K w - - 0 2");
                    (mv "d4" "e3" "dxe3", "7k/8/8/8/8/4p3/8/7K w - - 0 2") ] |} ].

End Book.

(** ** Vocabulary of the statements *)

(** What the rules library is relied on for: a position without legal moves
    is over, the legal moves are determined by the FEN string, and
    [chess.move] plays only moves of the enumeration. *)
Class Lawful (R : Rules) : Prop := {
  stuck_is_over : forall b : Board, moves b = [] -> isGameOver b = true;
  reload_moves : forall b b' : Board, load (fen b) = Some b' -> moves b' = moves b;
  move_listed : forall (b : Board) q m b', move b q = Some (m, b') -> In m (moves b)
}.

(** The library accepts every move it lists for [b]. *)
Definition accepts `{R : Rules} (b : Board) : Prop :=
  forall m, In m (moves b) -> exists m' b', move b (req_of_move m) = Some (m', b').

(** The engine's analysis of [fen0] settles, at every depth. *)
Definition analysis_settles `{R : Rules} (fen0 : string) : Prop :=
  forall depth g, rng_ok g -> exists a g', analyzePosition fen0 depth g = (Ok a, g').

(** The bot's move is the library's move [m]. *)
Definition same_move (bm : BotMove) (m : Move) : Prop :=
  bot_from bm = m_from m /\ bot_to bm = m_to m /\
  bot_san bm = m_san m /\ bot_promotion bm = m_promotion m.

(** The evaluation returned once the [Chess] object holds [b'], the
    rounded score being [evaluation]; and that score, from the mobility term
    and the draw [r]. *)
Section Verdict.

Context `{R : Rules}.

Definition verdict (b' : Board) (evaluation : Z) : Evaluation :=
  if isGameOver b' then
    if isCheckmate b' then
      if color_eqb (turn b') White
      then {| ev_type := Mate; ev_value := -1; ev_formatted := "M-1" |}
      else {| ev_type := Mate; ev_value := 1; ev_formatted := "M1" |}
    else {| ev_type := Cp; ev_value := 0; ev_formatted := "0.00" |}
  else {| ev_type := Cp; ev_value := evaluation; ev_formatted := format_cp evaluation |}.

Definition score (b : Board) (mobility depth : Z) (r : Q) : Z :=
  Js.round (inject_Z (evaluateMaterial b + evaluatePosition b + evaluateKingSafety b + mobility)
            + (r - (1 # 2)) * 100 * (1 - Js.min (inject_Z depth / 20) 1))%Q.

End Verdict.

Definition clamp (r : Z) : Z := Z.max 800 (Z.min 2400 r).

Definition rating (d : DataStore) : Z := currentRating (stats d).

(** Outcome of a finished game for the player, from the stored result and
    the recorded side. *)
Definition playerWon (g : ChessGame) : Prop :=
  (g_result g = Some "1-0" /\ g_playerColor g = White) \/
  (g_result g = Some "0-1" /\ g_playerColor g = Black).

Definition playerDrew (g : ChessGame) : Prop := g_result g = Some "1/2-1/2".

Definition playerLost (g : ChessGame) : Prop :=
  (g_result g = Some "0-1" /\ g_playerColor g = White) \/
  (g_result g = Some "1-0" /\ g_playerColor g = Black).

Definition saveGames (gs : list ChessGame) (d : DataStore) : DataStore :=
  fold_left (fun d g => DataService.saveGame g d) gs d.

(** Every game is stored under its own identifier. *)
Definition store_wf (d : DataStore) : Prop :=
  forall k g, games d !! k = Some g -> g_id g = k.

(** The two operations on a session after its creation. *)
Inductive Op :=
| ApplyMove (req : MakeMoveRequest)
| Resign (gameId : string).

Definition exec `{R : Rules} (op : Op) (w : World) : World :=
  match op with
  | ApplyMove req => snd (Game.makeMove req w)
  | Resign gameId => snd (Game.resignGame gameId w)
  end.

Definition exec_all `{R : Rules} (ops : list Op) (w : World) : World :=
  fold_left (fun w op => exec op w) ops w.

Definition session (w : World) (gameId : string) : option ChessGame :=
  games (w_data w) !! gameId.

Fixpoint no_space (s : string) : bool :=
  match s with
  | EmptyString => true
  | String c s' => negb (Ascii.eqb c " ") && no_space s'
  end.

(** Constant generators and clocks, and a store holding one game, for the
    worked examples. *)
Definition always (q : Q) : Rng := fun _ => q.

Definition midnight : nat -> string := fun _ => "2024-01-01T00:00:00.000Z".

Definition settings_of (d : Difficulty) (c : ColorChoice) : GameSettings :=
  {| gs_initial := 600; gs_increment := 5; gs_difficulty := d; gs_color := c |}.

Definition game_at (id fen0 : string) (side : Color) (d : Difficulty) : ChessGame :=
  {| g_id := id; g_playerColor := side;
     g_currentPosition := {| cp_fen := fen0; cp_turn := fen_turn fen0 |};
     g_moves := []; g_status := Active;
     g_settings := settings_of d (match side with White => ChooseWhite | Black => ChooseBlack end);
     g_startTime := "2024-01-01T00:00:00.000Z"; g_endTime := None; g_result := None |}.

Definition world_with (game : ChessGame) (g : Rng) : World :=
  {| w_rng := g; w_clock := midnight;
     w_data := {| games := {[ g_id game := game ]}; stats := DataService.initial_stats |} |}.

(** [g'] is what is left of the stream [g] after some draws; a computation
    advances the generator when it only ever does that to it. *)
Definition later (g g' : Rng) : Prop := exists k, forall n, g' n = g (k + n)%nat.

Definition advances {A} (m : M Rng A) : Prop := forall g, later g (snd (m g)).

(** The store [d] is [d0] with, at most, the session [gameId] replaced by a
    game of the same identifier. *)
Definition inv (d0 : DataStore) (gameId : string) (d : DataStore) : Prop :=
  games d = games d0 \/
  exists g', g_id g' = gameId /\ games d = <[gameId := g']> (games d0).

(** A computation keeps a property of the store. *)
Definition keeps (P : DataStore -> Prop) {A} (m : M World A) : Prop :=
  forall w, P (w_data w) -> P (w_data (snd (m w))).

(** ** The rest of [DataService] on games *)

Module Store.

(** [calculateRatingChange(game)], the change [getGameHistory] reports. *)
Definition calculateRatingChange (game : ChessGame) : Z :=
  if bool_decide (g_status game = Active) then 0
  else
    match g_result game with
    | Some r =>
        if String.eqb r "1-0" then (if color_eqb (g_playerColor game) White then 20 else -15)
        else if String.eqb r "0-1" then (if color_eqb (g_playerColor game) Black then 20 else -15)
        else if String.eqb r "1/2-1/2" then 5
        else 0
    | None => 0
    end.

(** [deleteGame(id)]: what it returns and the store it leaves. *)
Definition deleteGame (id : string) (d : DataStore) : bool * DataStore :=
  let game := games d !! id in
  let deleted := bool_decide (is_Some (games d !! id)) in
  let s := stats d in
  (deleted,
   {| games := delete id (games d);
      stats :=
        match game with
        | Some g =>
            if deleted && bool_decide (g_status g <> Active) then
              {| totalAnalyses := totalAnalyses s;
                 totalGames := Z.max 0 (totalGames s - 1);
                 gamesWon := gamesWon s; gamesLost := gamesLost s; gamesDrawn := gamesDrawn s;
                 currentRating := currentRating s;
                 favoriteOpenings := favoriteOpenings s |}
            else s
        | None => s
        end |}).

(** [getStats()]: a copy of the statistics. *)
Definition getStats (d : DataStore) : UserStats := stats d.

End Store.

(** ** The fallback of [EnhancedChessEngineService]
    (server/services/stockfishEngine.ts) *)

Module Service.
Section EnhancedChessEngineService.

Context `{R : Rules}.

(** [x.toFixed(2)] for the number [x]. *)
Variable toFixed2 : Q -> string.

(** [basicAnalysis(fen, depth)]. *)
Definition basicAnalysis (fen0 : string) (depth : Z) : M Rng ChessAnalysis :=
  let* b := pure_res (of_option "Invalid FEN" (load fen0)) in
  match moves b with
  | [] =>
      let evaluation :=
        if isCheckmate b then (if color_eqb (turn b) White then -30000 else 30000) else 0 in
      ret {| ca_position := {| ap_fen := fen0; ap_turn := turn b |};
             ca_evaluation :=
               {| ev_type := if isCheckmate b then Mate else Cp;
                  ev_value := evaluation;
                  ev_formatted :=
                    if isCheckmate b then (if color_eqb (turn b) White then "M-1" else "M1")
                    else "0.00" |};
             ca_bestMove :=
               {| bm_from := ""; bm_to := ""; bm_san := "Game Over"; bm_promotion := None |};
             ca_principalVariation := [];
             ca_depth := depth;
             ca_confidence := 100;
             ca_analysisTime := 100 |}
  | bestMove :: _ =>
      let* r := random in
      let evaluation := (r * 200 - 100)%Q in
      ret {| ca_position := {| ap_fen := fen0; ap_turn := turn b |};
             ca_evaluation :=
               {| ev_type := Cp;
                  ev_value := Js.round (evaluation * 100);
                  ev_formatted :=
                    if Qltb 0 evaluation then "+" +:+ toFixed2 evaluation
                    else toFixed2 evaluation |};
             ca_bestMove :=
               {| bm_from := m_from bestMove; bm_to := m_to bestMove;
                  bm_san := m_san bestMove; bm_promotion := m_promotion bestMove |};
             ca_principalVariation := [m_san bestMove];
             ca_depth := depth;
             ca_confidence := 70;
             ca_analysisTime := 500 |}
  end.

(** [analyzePosition(fen, depth, timeout)]: the engine's analysis, and the
    basic one when it throws. *)
Definition analyzePosition (fen0 : string) (depth timeout : Z) : M Rng ChessAnalysis :=
  try_catch (Enhanced.analyzeWithStockfish fen0 depth timeout)
    (fun _ => basicAnalysis fen0 depth).

End EnhancedChessEngineService.
End Service.

(** ** The other handlers of server/routes/game.ts *)

(** [settings] as the request body carries it: a field that is missing is
    [None]; the two times are numbers when [timeControl] is there. *)
Record RawSettings := {
  rs_timeControl : option (Z * Z);
  rs_difficulty : option string;
  rs_color : option string
}.

(** [!x] for a string field. *)
Definition falsy (o : option string) : bool :=
  match o with
  | None => true
  | Some s => String.eqb s ""
  end.

Definition text (o : option string) : string :=
  match o with Some s => s | None => "" end.

Definition included (s : string) (l : list string) : bool :=
  existsb (String.eqb s) l.

Definition difficulty_of (s : string) : option Difficulty :=
  if String.eqb s "beginner" then Some Beginner
  else if String.eqb s "intermediate" then Some Intermediate
  else if String.eqb s "advanced" then Some Advanced
  else if String.eqb s "stockfish" then Some Stockfish
  else None.

Definition color_choice_of (s : string) : option ColorChoice :=
  if String.eqb s "white" then Some ChooseWhite
  else if String.eqb s "black" then Some ChooseBlack
  else if String.eqb s "random" then Some ChooseRandom
  else None.

(** The settings object as the game record keeps it. *)
Definition settings_read (s : RawSettings) : option GameSettings :=
  match rs_timeControl s, difficulty_of (text (rs_difficulty s)), color_choice_of (text (rs_color s)) with
  | Some (initial, increment), Some d, Some c =>
      Some {| gs_initial := initial; gs_increment := increment; gs_difficulty := d; gs_color := c |}
  | _, _, _ => None
  end.

Definition startingFen : string := "rnbqkbnr/pppppppp/8/8/8/8/PPPPPPPP/RNBQKBNR w KQkq - 0 1".

Module GameRoutes.
Section Handlers.

Context `{R : Rules}.

(** [Date.now()] printed in decimal, for the instant the clock reads, and
    [x.toString(36).substr(2, 9)] for a draw [x]. *)
Variable stamp : string -> string.
Variable base36 : Q -> string.

(** [validateGameSettings(settings)]: the message, [None] for [null]. *)
Definition validateGameSettings (settings : RawSettings) : option string :=
  match rs_timeControl settings with
  | None => Some "Missing required settings"
  | Some (initial, increment) =>
      if falsy (rs_difficulty settings) || falsy (rs_color settings) then
        Some "Missing required settings"
      else if negb (included (text (rs_difficulty settings))
                      ["beginner"; "intermediate"; "advanced"; "stockfish"]) then
        Some "Invalid difficulty level"
      else if negb (included (text (rs_color settings)) ["white"; "black"; "random"]) then
        Some "Invalid color choice"
      else if (initial <? 60) || (3600 <? initial) then
        Some "Initial time must be between 1 and 60 minutes"
      else if (increment <? 0) || (60 <? increment) then
        Some "Increment must be between 0 and 60 seconds"
      else None
  end.

(** [generateGameId()]. *)
Definition generateGameId : M World string :=
  let* t := now in
  let* r := liftRng random in
  ret ("game_" +:+ stamp t +:+ "_" +:+ base36 r).

(** [POST /api/game/create]; [None] is a body without [settings]. *)
Definition createGame (body : option RawSettings) : M World Response :=
  try_catch (
    match body with
    | None => ret (failure 400 "Game settings are required")
    | Some settings =>
        match validateGameSettings settings with
        | Some validationError => ret (failure 400 validationError)
        | None =>
            match settings_read settings with
            | None => throw "TypeError"
            | Some kept =>
                let* playerColor :=
                  match gs_color kept with
                  | ChooseRandom =>
                      let* r := liftRng random in
                      ret (if Qltb r (1 # 2) then White else Black)
                  | ChooseWhite => ret White
                  | ChooseBlack => ret Black
                  end in
                let* gameId := generateGameId in
                let* startTime := now in
                let game :=
                  {| g_id := gameId; g_playerColor := playerColor;
                     g_currentPosition := {| cp_fen := startingFen; cp_turn := Some "w" |};
                     g_moves := []; g_status := Active; g_settings := kept;
                     g_startTime := startTime; g_endTime := None; g_result := None |} in
                let* game :=
                  match playerColor with
                  | Black =>
                      let* botMove :=
                        liftRng (Enhanced.getStockfishMove startingFen (gs_difficulty kept)) in
                      match botMove with
                      | Some botMove =>
                          let* timestamp := now in
                          let moveEntry :=
                            {| cm_from := bot_from botMove; cm_to := bot_to botMove;
                               cm_san := bot_san botMove; cm_fen := bot_fen botMove;
                               cm_timestamp := timestamp; cm_isPlayerMove := false |} in
                          ret (with_move moveEntry
                                 {| cp_fen := bot_fen botMove; cp_turn := Some "b" |} game)
                      | None => ret game
                      end
                  | White => ret game
                  end in
                let* _ := write_data (DataService.saveGame game) in
                ret (success game None)
            end
        end
    end)
    (fun _ => ret (failure 500 "Failed to create game")).

(** [GET /api/game/:gameId]. *)
Definition getGame (gameId : string) : M World Response :=
  try_catch (
    let* found := read_data (DataService.getGame gameId) in
    match found with
    | None => ret (failure 404 "Game not found")
    | Some game => ret (success game None)
    end)
    (fun _ => ret (failure 500 "Failed to retrieve game")).

End Handlers.
End GameRoutes.

(** ** The rest of [ChessEngineService] (server/services/chessEngine.ts) *)

(** [ChessAnalysis] as this service fills it: the confidence and the
    analysis time are not whole numbers. *)
Record DemoAnalysis := {
  da_position : AnalysisPosition;
  da_evaluation : Evaluation;
  da_bestMove : BestMove;
  da_principalVariation : list string;
  da_depth : Z;
  da_confidence : Q;
  da_analysisTime : Q
}.

Module ChessEngineService.
Section Service.

Context `{R : Rules}.

(** [move.captured] read as a condition, and [x.toFixed(1)]. *)
Variable captured : Move -> bool.
Variable toFixed1 : Q -> string.

Definition centerNames : list string :=
  ["e4"; "e5"; "d4"; "d5"; "Nf3"; "Nc3"; "Nf6"; "Nc6"].

(** [l[Math.floor(Math.random() * l.length)]]. *)
Definition pick {A} (l : list A) : M Rng (option A) :=
  let* r := random in
  ret (nth_Z l (Js.floor (r * inject_Z (Z.of_nat (length l))))).

(** [getBestMove(moves)]. *)
Definition getBestMove (ms : list Move) : M Rng (option Move) :=
  let captures := List.filter captured ms in
  if (0 <? length captures)%nat then pick captures
  else
    let centerMoves := List.filter (fun mv => included (m_san mv) centerNames) ms in
    if (0 <? length centerMoves)%nat then pick centerMoves
    else pick ms.

(** [analyzePosition(fen, depth, timeout)]. *)
Definition analyzePosition (fen0 : string) (depth timeout : Z) : M Rng DemoAnalysis :=
  try_catch (
    let* b := pure_res (of_option "Invalid FEN" (load fen0)) in
    if negb (isGameOver b) then
      match moves b with
      | [] => throw "No legal moves available"
      | _ :: _ =>
          let* evaluation := ChessEngine.evaluatePosition b in
          let* bestMove := getBestMove (moves b) in
          match bestMove with
          | None => throw "TypeError"
          | Some bestMove =>
              let* r1 := random in
              let* r2 := random in
              ret {| da_position := {| ap_fen := fen0; ap_turn := turn b |};
                     da_evaluation :=
                       {| ev_type := Cp;
                          ev_value := evaluation;
                          ev_formatted :=
                            if 0 <? evaluation
                            then "+" +:+ toFixed1 (inject_Z evaluation / 100)
                            else toFixed1 (inject_Z evaluation / 100) |};
                     da_bestMove :=
                       {| bm_from := m_from bestMove; bm_to := m_to bestMove;
                          bm_san := m_san bestMove; bm_promotion := m_promotion bestMove |};
                     da_principalVariation := [m_san bestMove];
                     da_depth := depth;
                     da_confidence := Js.min 95 (70 + r1 * 25);
                     da_analysisTime := (r2 * 1000 + 500)%Q |}
          end
      end
    else
      let evaluation :=
        if isCheckmate b then (if color_eqb (turn b) White then -30000 else 30000) else 0 in
      ret {| da_position := {| ap_fen := fen0; ap_turn := turn b |};
             da_evaluation :=
               {| ev_type := if isCheckmate b then Mate else Cp;
                  ev_value := evaluation;
                  ev_formatted :=
                    if isCheckmate b then (if color_eqb (turn b) White then "M-1" else "M1")
                    else "0.0" |};
             da_bestMove :=
               {| bm_from := ""; bm_to := ""; bm_san := "Game Over"; bm_promotion := None |};
             da_principalVariation := [];
             da_depth := depth;
             da_confidence := 100;
             da_analysisTime := 100 |})
    (fun message => throw ("Failed to analyze position: " +:+ message)).

(** [makeBotMove(fen, difficulty)]; a tier the [switch] does not name
    takes the [default] branch. *)
Definition makeBotMove (fen0 : string) (difficulty : Difficulty) : M Rng (option BotMove) :=
  let* b := pure_res (of_option "Invalid FEN" (load fen0)) in
  match moves b with
  | [] => ret None
  | _ :: _ =>
      let* selectedMove :=
        match difficulty with
        | Beginner => pick (moves b)
        | Intermediate => getBestMove (moves b)
        | Advanced =>
            let* analysis := analyzePosition fen0 15 5000 in
            match List.find (fun mv => String.eqb (m_san mv) (bm_san (da_bestMove analysis)))
                    (moves b) with
            | Some mv => ret (Some mv)
            | None => getBestMove (moves b)
            end
        | Stockfish => getBestMove (moves b)
        end in
      match selectedMove with
      | None => throw "TypeError"
      | Some selected =>
          let* (mv, b') := pure_res (of_option "Invalid move" (move b (req_of_move selected))) in
          ret (Some {| bot_from := m_from mv; bot_to := m_to mv; bot_san := m_san mv;
                       bot_fen := fen b'; bot_promotion := m_promotion mv |})
      end
  end.

(** [isLegalMove(fen, move)] and [makeMove(fen, move)]. *)
Definition isLegalMove (fen0 : string) (mv : MoveReq) : bool :=
  match load fen0 with
  | None => false
  | Some b => match move b mv with
              | Some _ => true
              | None => false
              end
  end.

Definition makeMove (fen0 : string) (mv : MoveReq) : res (option MoveResult) :=
  let+ b := of_option "Invalid FEN" (load fen0) in
  let+ (result, b') := of_option "Invalid move" (move b mv) in
  Ok (Some {| mr_move := result;
              mr_fen := fen b';
              mr_isGameOver := isGameOver b';
              mr_isCheck := isCheck b';
              mr_isCheckmate := isCheckmate b';
              mr_isStalemate := isStalemate b';
              mr_isDraw := isDraw b' |}).

End Service.
End ChessEngineService.

(** The three operations that write to the store of games. *)
Inductive Request :=
| Create (body : option RawSettings)
| Submit (req : MakeMoveRequest)
| GiveUp (gameId : string).

Definition handle `{R : Rules} (stamp : string -> string) (base36 : Q -> string)
    (rq : Request) : M World Response :=
  match rq with
  | Create body => GameRoutes.createGame stamp base36 body
  | Submit req => Game.makeMove req
  | GiveUp gameId => Game.resignGame gameId
  end.

Definition serve `{R : Rules} (stamp : string -> string) (base36 : Q -> string)
    (rq : Request) (w : World) : World :=
  snd (handle stamp base36 rq w).

Definition serve_all `{R : Rules} (stamp : string -> string) (base36 : Q -> string)
    (rqs : list Request) (w : World) : World :=
  fold_left (fun w rq => serve stamp base36 rq w) rqs w.

(** The games side of a process that has just started: no game, and the
    statistics as the constructor leaves them, [initializeSampleData] having
    counted its two sample analyses. *)
Definition fresh_world (g : Rng) (clock : nat -> string) : World :=
  {| w_rng := g; w_clock := clock;
     w_data :=
       {| games := ∅;
          stats :=
            {| totalAnalyses := 2; totalGames := 0; gamesWon := 0; gamesLost := 0;
               gamesDrawn := 0; currentRating := 1200;
               favoriteOpenings := ["Italian Game"; "Sicilian Defense"; "Queen's Gambit"] |} |} |}.

(** ** Analysis history ([DataService]) and the handlers of
    server/routes/analysis.ts *)

Inductive Source := Camera | Upload | Manual.

(** An entry of the history.  The analysis is kept with its numbers as
    numbers: the entries the constructor installs carry a confidence and an
    analysis time that are not whole. *)
Record AnalysisHistory := {
  ah_id : string;
  ah_position : ChessPosition;
  ah_analysis : DemoAnalysis;
  ah_timestamp : string;
  ah_source : Source
}.

(** A [ChessAnalysis] of the engine service, as the history keeps it. *)
Definition kept_analysis (a : ChessAnalysis) : DemoAnalysis :=
  {| da_position := ca_position a;
     da_evaluation := ca_evaluation a;
     da_bestMove := ca_bestMove a;
     da_principalVariation := ca_principalVariation a;
     da_depth := ca_depth a;
     da_confidence := inject_Z (ca_confidence a);
     da_analysisTime := inject_Z (ca_analysisTime a) |}.

(** The whole of what [DataService] holds, with the generator and the
    clock. *)
Record Server := {
  sv_world : World;
  sv_analyses : gmap string AnalysisHistory
}.

(** A computation on the games side, run in the server. *)
Definition in_world {A} (m : M World A) : M Server A :=
  fun s =>
    let '(r, w) := m (sv_world s) in
    (r, {| sv_world := w; sv_analyses := sv_analyses s |}).

Definition with_totalAnalyses (n : Z) (s : UserStats) : UserStats :=
  {| totalAnalyses := n; totalGames := totalGames s;
     gamesWon := gamesWon s; gamesLost := gamesLost s; gamesDrawn := gamesDrawn s;
     currentRating := currentRating s; favoriteOpenings := favoriteOpenings s |}.

Definition set_totalAnalyses (f : Z -> Z) : M Server unit :=
  in_world (write_data (fun d =>
    {| games := games d; stats := with_totalAnalyses (f (totalAnalyses (stats d))) (stats d) |})).

Definition total_analyses (s : Server) : Z := totalAnalyses (stats (w_data (sv_world s))).

Definition set_analysis (id : string) (entry : AnalysisHistory) : M Server unit :=
  fun s => (Ok tt, {| sv_world := sv_world s; sv_analyses := <[id := entry]> (sv_analyses s) |}).

(** [{ success, analysis, error }] with its status code. *)
Record AnalysisResponse := {
  ar_code : Z;
  ar_success : bool;
  ar_error : option string;
  ar_analysis : option ChessAnalysis
}.

(** The body of [POST /api/analysis/position]. *)
Record PositionAnalysisRequest := {
  pa_fen : option string;
  pa_depth : option Z;
  pa_timeout : option Z
}.

Definition one_of (chars : string) (c : ascii) : bool :=
  existsb (Ascii.eqb c) (list_ascii_of_string chars).

(** [parseInt(char)] for a character of ['12345678']. *)
Definition digit_value (c : ascii) : Z := Z.of_nat (nat_of_ascii c) - 48.

(** The inner loop of [isValidFen] over the characters of a rank: [None]
    is [return false]. *)
Fixpoint rank_squares (rank : string) (squares : Z) : option Z :=
  match rank with
  | EmptyString => Some squares
  | String c rest =>
      if one_of "12345678" c then rank_squares rest (squares + digit_value c)
      else if one_of "pnbrqkPNBRQK" c then rank_squares rest (squares + 1)
      else None
  end.

Definition rank_ok (rank : string) : bool :=
  match rank_squares rank 0 with
  | Some squares => squares =? 8
  | None => false
  end.

(** The last character is one of [chars]. *)
Fixpoint ends_with_one_of (chars : string) (s : string) : bool :=
  match s with
  | EmptyString => false
  | String c EmptyString => one_of chars c
  | String _ rest => ends_with_one_of chars rest
  end.

(** The last two characters are a file and one of the ranks 3 and 6. *)
Fixpoint ends_with_square (s : string) : bool :=
  match s with
  | EmptyString => false
  | String f rest =>
      match rest with
      | String r EmptyString => one_of "abcdefgh" f && one_of "36" r
      | _ => ends_with_square rest
      end
  end.

(** [/^-|[KQkq]+$/.test(s)] and [/^-|[a-h][36]$/.test(s)]: the anchors
    bind tighter than the alternation. *)
Definition castling_test (s : string) : bool :=
  String.prefix "-" s || ends_with_one_of "KQkq" s.

Definition en_passant_test (s : string) : bool :=
  String.prefix "-" s || ends_with_square s.

Module AnalysisRoutes.
Section Handlers.

Context `{R : Rules}.

(** [Date.now()] printed in decimal and [x.toString(36).substr(2, 9)], as
    for the game identifiers; [!isNaN(parseInt(s))]. *)
Variable stamp : string -> string.
Variable base36 : Q -> string.
Variable numeric : string -> bool.

(** [isValidFen(fen)]. *)
Definition isValidFen (fen0 : string) : bool :=
  match Js.split " " fen0 with
  | [placement; side; castling; enPassant; halfmove; fullmove] =>
      let ranks := Js.split "/" placement in
      if negb (length ranks =? 8)%nat then false
      else if negb (forallb rank_ok ranks) then false
      else if negb (Js.includes side "wb") then false
      else if negb (castling_test castling) then false
      else if negb (en_passant_test enPassant) then false
      else if negb (numeric halfmove) || negb (numeric fullmove) then false
      else true
  | _ => false
  end.

(** [DataService.generateId()]. *)
Definition generateId : M Server string :=
  let* t := in_world now in
  let* r := in_world (liftRng random) in
  ret (stamp t +:+ "_" +:+ base36 r).

(** [DataService.saveAnalysis(position, analysis, source)]. *)
Definition saveAnalysis (position : ChessPosition) (analysis : DemoAnalysis) (source : Source)
  : M Server AnalysisHistory :=
  let* id := generateId in
  let* timestamp := in_world now in
  let historyEntry :=
    {| ah_id := id; ah_position := position; ah_analysis := analysis;
       ah_timestamp := timestamp; ah_source := source |} in
  let* _ := set_analysis id historyEntry in
  let* _ := set_totalAnalyses (fun n => n + 1) in
  ret historyEntry.

(** [DataService.deleteAnalysis(id)]. *)
Definition deleteAnalysis (id : string) : M Server bool :=
  fun s =>
    let deleted := bool_decide (is_Some (sv_analyses s !! id)) in
    let s' := {| sv_world := sv_world s; sv_analyses := delete id (sv_analyses s) |} in
    if deleted then
      match set_totalAnalyses (fun n => Z.max 0 (n - 1)) s' with
      | (_, s'') => (Ok true, s'')
      end
    else (Ok false, s').

Definition refused (code : Z) (msg : string) : AnalysisResponse :=
  {| ar_code := code; ar_success := false; ar_error := Some msg; ar_analysis := None |}.

Definition analysed (analysis : ChessAnalysis) : AnalysisResponse :=
  {| ar_code := 200; ar_success := true; ar_error := None; ar_analysis := Some analysis |}.

(** [POST /api/analysis/position]. *)
Definition analyzePosition (body : PositionAnalysisRequest) : M Server AnalysisResponse :=
  try_catch (
    let depth := match pa_depth body with Some d => d | None => 15 end in
    let timeout := match pa_timeout body with Some t => t | None => 5000 end in
    if falsy (pa_fen body) then ret (refused 400 "No FEN string provided")
    else
      let fen0 := text (pa_fen body) in
      if negb (isValidFen fen0) then ret (refused 400 "Invalid FEN string")
      else
        let* analysis :=
          in_world (liftRng (Enhanced.analyzeWithStockfish fen0 (Z.min depth 20)
                               (Z.min timeout 10000))) in
        let position := {| cp_fen := fen0; cp_turn := fen_turn fen0 |} in
        let* _ := saveAnalysis position (kept_analysis analysis) Manual in
        ret (analysed analysis))
    (fun message => ret (refused 500 ("Failed to analyze position: " +:+ message))).

(** [DELETE /api/analysis/:id]. *)
Definition deleteAnalysisRoute (id : string) : M Server AnalysisResponse :=
  try_catch (
    let* deleted := deleteAnalysis id in
    if negb deleted then ret (refused 404 "Analysis not found")
    else ret {| ar_code := 200; ar_success := true; ar_error := None; ar_analysis := None |})
    (fun _ => ret (refused 500 "Failed to delete analysis")).

(** [new Date(Date.now() - days * 24 * 60 * 60 * 1000).toISOString()],
    for the instant the clock reads. *)
Variable days_before : Z -> string -> string.

(** One step of the [forEach] of [initializeSampleData]. *)
Definition install_sample (index : Z) (fen0 : string) (evaluation : Evaluation)
    (bestMove : BestMove) (source : Source) : M Server unit :=
  let id := "sample_" +:+ Js.digits (index + 1) in
  let* r1 := in_world (liftRng random) in
  let* r2 := in_world (liftRng random) in
  let* t := in_world now in
  let position := {| cp_fen := fen0; cp_turn := Some "w" |} in
  let analysis :=
    {| ah_id := id;
       ah_position := position;
       ah_analysis :=
         {| da_position := {| ap_fen := fen0; ap_turn := White |};
            da_evaluation := evaluation;
            da_bestMove := bestMove;
            da_principalVariation := [bm_san bestMove];
            da_depth := 15;
            da_confidence := (90 + r1 * 10)%Q;
            da_analysisTime := (1000 + r2 * 2000)%Q |};
       ah_timestamp := days_before (index + 1) t;
       ah_source := source |} in
  set_analysis id analysis.

(** [initializeSampleData()]. *)
Definition initializeSampleData : M Server unit :=
  let* _ :=
    install_sample 0 "r1bqkb1r/pppp1ppp/2n2n2/4p3/2B1P3/5N2/PPPP1PPP/RNBQK2R w KQkq - 4 4"
      {| ev_type := Cp; ev_value := 120; ev_formatted := "+1.2" |}
      {| bm_from := "f1"; bm_to := "c4"; bm_san := "Bc4"; bm_promotion := None |} Camera in
  let* _ :=
    install_sample 1 "rnbqkbnr/pp1ppppp/8/2p5/4P3/8/PPPP1PPP/RNBQKBNR w KQkq c6 0 2"
      {| ev_type := Cp; ev_value := -30; ev_formatted := "-0.3" |}
      {| bm_from := "g1"; bm_to := "f3"; bm_san := "Nf3"; bm_promotion := None |} Upload in
  fun s => set_totalAnalyses (fun _ => Z.of_nat (size (sv_analyses s))) s.

(** The constructor of [DataService]. *)
Definition constructed (g : Rng) (clock : nat -> string) : Server :=
  snd (initializeSampleData
         {| sv_world :=
              {| w_rng := g; w_clock := clock;
                 w_data := {| games := ∅; stats := DataService.initial_stats |} |};
            sv_analyses := ∅ |}).

End Handlers.
End AnalysisRoutes.

(** Everything a client can ask for that writes to the store. *)
Inductive Call :=
| OnGames (rq : Request)
| Analyse (body : PositionAnalysisRequest)
| Forget (id : string).

Definition answer `{R : Rules} (stamp : string -> string) (base36 : Q -> string)
    (numeric : string -> bool) (c : Call) (s : Server) : Server :=
  match c with
  | OnGames rq => snd (in_world (handle stamp base36 rq) s)
  | Analyse body => snd (AnalysisRoutes.analyzePosition stamp base36 numeric body s)
  | Forget id => snd (AnalysisRoutes.deleteAnalysisRoute id s)
  end.

Definition answer_all `{R : Rules} (stamp : string -> string) (base36 : Q -> string)
    (numeric : string -> bool) (cs : list Call) (s : Server) : Server :=
  fold_left (fun s c => answer stamp base36 numeric c s) cs s.

(** ** The client (client/components, client/pages)

    The pure helpers of the board components and of the game and history
    pages.  Rows and columns are the indices of the 8 x 8 grid the
    components map over. *)

(** [n.toString()] for an integer. *)
Definition number_text (n : Z) : string :=
  if n <? 0 then "-" +:+ Js.digits (- n) else Js.digits n.

(** [parseInt(c)] for a single character: [None] is [NaN]. *)
Definition digit_of (c : ascii) : option Z :=
  if one_of "0123456789" c then Some (Z.of_nat (nat_of_ascii c) - 48) else None.

Module ChessBoard.

(** [getSquareName(row, col)] of client/components/ChessBoard.tsx: the
    square of the cell [board[row][col]], row 0 being the eighth rank. *)
Definition getSquareName (row col : nat) : string :=
  String (ascii_of_nat (97 + col)) (number_text (8 - Z.of_nat row)).

End ChessBoard.

Module InteractiveChessBoard.

(** [getSquareName(row, col)] of the interactive board. *)
Definition getSquareName (playerColor : Color) (row col : nat) : string :=
  let fileIndex := if color_eqb playerColor White then Z.of_nat col else 7 - Z.of_nat col in
  let rankIndex := if color_eqb playerColor White then 7 - Z.of_nat row else Z.of_nat row in
  String (ascii_of_nat (Z.to_nat (97 + fileIndex))) (number_text (rankIndex + 1)).

(** [getSquarePosition(squareName)]: [{ row, col }], [None] when a
    coordinate is [NaN]. *)
Definition getSquarePosition (playerColor : Color) (squareName : string) : option (Z * Z) :=
  match squareName with
  | String f (String r _) =>
      let file := Z.of_nat (nat_of_ascii f) - 97 in
      match digit_of r with
      | Some d =>
          let rank := d - 1 in
          let row := if color_eqb playerColor White then 7 - rank else rank in
          let col := if color_eqb playerColor White then file else 7 - file in
          Some (row, col)
      | None => None
      end
  | _ => None
  end.

End InteractiveChessBoard.

Inductive Badge := BadgeWon | BadgeLost | BadgeDraw.

Definition status_text (st : Status) : string :=
  match st with
  | Active => "active" | Checkmate => "checkmate" | Stalemate => "stalemate"
  | Draw => "draw" | Resignation => "resignation"
  end.

Module Pages.

(** [playerWon] of both pages. *)
Definition playerWon (game : ChessGame) : bool :=
  (DataService.result_is game "1-0" && color_eqb (g_playerColor game) White) ||
  (DataService.result_is game "0-1" && color_eqb (g_playerColor game) Black).

(** [getGameResultText(game)] of client/pages/Game.tsx. *)
Definition getGameResultText (game : ChessGame) : string :=
  if bool_decide (g_status game = Active) then ""
  else if DataService.result_is game "1/2-1/2" then "Draw"
  else if bool_decide (g_status game = Resignation) then
    (if playerWon game then "Bot Resigned - You Win!" else "You Resigned")
  else if bool_decide (g_status game = Checkmate) then
    (if playerWon game then "Checkmate - You Win!" else "Checkmate - You Lost")
  else status_text (g_status game).

(** [getGameResultBadge(game)] of client/pages/History.tsx, by the badge
    shown; [None] is [null]. *)
Definition getGameResultBadge (game : ChessGame) : option Badge :=
  if falsy (g_result game) then None
  else if DataService.result_is game "1/2-1/2" then Some BadgeDraw
  else if playerWon game then Some BadgeWon
  else Some BadgeLost.

End Pages.

(** No active session is kept under [gameId]. *)
Definition no_active (w : World) (gameId : string) : Prop :=
  forall g, session w gameId = Some g -> g_status g <> Active.

(** The refusal a handler gives when the session is unknown or not active. *)
Definition refusal (w : World) (gameId : string) : Response :=
  match session w gameId with
  | None => failure 404 "Game not found"
  | Some _ => failure 400 "Game is not active"
  end.

(** The response reports a success. *)
Definition succeeded (r : res Response) : bool :=
  match r with
  | Ok resp => r_success resp
  | _ => false
  end.

(** The game has left the active state. *)
Definition finished (g : ChessGame) : bool := bool_decide (g_status g <> Active).

(** [totalGames] counts the games won, lost and drawn. *)
Definition tally (s : UserStats) : Prop :=
  totalGames s = gamesWon s + gamesLost s + gamesDrawn s.

(** The statistics a response leaves behind, from those before the request:
    updated once with the game the response carries, untouched when it
    carries none or when the handler did not answer. *)
Definition reported (r : res Response) (s : UserStats) : UserStats :=
  match r with
  | Ok resp =>
      match r_game resp with
      | Some g => DataService.update_stats g s
      | None => s
      end
  | _ => s
  end.

(** A computation that leaves the statistics alone, and a handler whose
    effect on them is the one its response reports. *)
Definition quiet {A} (m : M World A) : Prop :=
  forall w, stats (w_data (snd (m w))) = stats (w_data w).

Definition accounts (m : M World Response) : Prop :=
  forall w, stats (w_data (snd (m w))) = reported (fst (m w)) (stats (w_data w)).

(** What every store the handlers leave satisfies: games are kept under
    their own identifiers, the games counted are those won, lost and drawn,
    and the rating is within its bounds. *)
Definition sound (d : DataStore) : Prop :=
  store_wf d /\ tally (stats d) /\ 800 <= rating d <= 2400.

(** The store a response leaves behind, from the one before the request,
    when the handler writes nothing but the game it returns. *)
Definition filed (r : res Response) (d : DataStore) : DataStore :=
  match r with
  | Ok resp =>
      match r_game resp with
      | Some g => DataService.saveGame g d
      | None => d
      end
  | _ => d
  end.

(** A computation that leaves the store alone; a handler whose only write
    is the game it returns; a handler that leaves the game it returns
    filed under its identifier. *)
Definition idle {A} (m : M World A) : Prop :=
  forall w, w_data (snd (m w)) = w_data w.

Definition files (m : M World Response) : Prop :=
  forall w, w_data (snd (m w)) = filed (fst (m w)) (w_data w).

Definition keeps_returned (m : M World Response) : Prop :=
  forall w resp g, fst (m w) = Ok resp -> r_game resp = Some g ->
    session (snd (m w)) (g_id g) = Some g.

(** The start of a new game, and the position after the bot's opening
    move [e]. *)
Definition opening : ChessPosition := {| cp_fen := startingFen; cp_turn := Some "w" |}.

Definition replied (e : ChessMove) : ChessPosition := {| cp_fen := cm_fen e; cp_turn := Some "b" |}.

(** The engine's best move, read off a move of the library. *)
Definition best_of (m : Move) : BestMove :=
  {| bm_from := m_from m; bm_to := m_to m; bm_san := m_san m; bm_promotion := m_promotion m |}.

(** The generator whose first draw is [r] and whose later draws are [q]. *)
Definition draws (r q : Q) : Rng := fun n => match n with O => r | S _ => q end.

(** What [getStockfishMove] returns when the library played [mv] and holds
    [b'] afterwards. *)
Definition bot_move `{R : Rules} (mv : Move) (b' : Board) : BotMove :=
  {| bot_from := m_from mv; bot_to := m_to mv; bot_san := m_san mv;
     bot_fen := fen b'; bot_promotion := m_promotion mv |}.

(** A move is a capture when its SAN says so. *)
Definition takes (m : Move) : bool := Js.includes "x" (m_san m).

(** [totalAnalyses] is at least the number of entries of the history. *)
Definition counted (s : Server) : Prop :=
  Z.of_nat (size (sv_analyses s)) <= total_analyses s.

(** A reading of [!isNaN(parseInt(s))] on strings that begin with a
    decimal digit other than a hexadecimal prefix, for the worked examples. *)
Definition leading_digit (s : string) : bool :=
  match s with
  | String c rest => one_of "0123456789" c && negb (String.prefix "x" rest || String.prefix "X" rest)
  | EmptyString => false
  end.

(** The depth a position analysis is asked for: 15 by default. *)
Definition requested_depth (body : PositionAnalysisRequest) : Z :=
  match pa_depth body with Some d => d | None => 15 end.

(** The server of the worked examples, and a request for [fen0] at [depth]. *)
Definition example_server : Server :=
  AnalysisRoutes.constructed (fun _ t => t) (always (1 # 4)) midnight.

Definition analysis_of (fen0 : string) (depth : Z) : PositionAnalysisRequest :=
  {| pa_fen := Some fen0; pa_depth := Some depth; pa_timeout := None |}.

(** * Properties *)

(** ** Reading a successful run backwards *)

Lemma bind_ok {S A B} (m : M S A) (k : A -> M S B) s b s' :
  bind m k s = (Ok b, s') ->
  exists a s1, m s = (Ok a, s1) /\ k a s1 = (Ok b, s').
Proof.
  unfold bind. destruct (m s) as [[a | e | e] s1]; intros H; try discriminate.
  exists a, s1. split; [reflexivity | exact H].
Qed.

Lemma pure_res_ok {S A} (r : res A) (s : S) a s' :
  pure_res r s = (Ok a, s') -> r = Ok a /\ s' = s.
Proof. unfold pure_res. intros H. injection H as -> ->. split; reflexivity. Qed.

Lemma of_option_ok {A} msg (o : option A) a : of_option msg o = Ok a -> o = Some a.
Proof. destruct o; simpl; intros H; [injection H as -> | discriminate]; reflexivity. Qed.

Lemma res_bind_ok {A B} (r : res A) (k : A -> res B) b :
  res_bind r k = Ok b -> exists a, r = Ok a /\ k a = Ok b.
Proof. destruct r as [a | e | e]; simpl; intros H; try discriminate. exists a. split; [reflexivity | exact H]. Qed.

Lemma in_timer_ok `{R : Rules} {A} (m : M Rng A) g a g' :
  in_timer m g = (Ok a, g') -> m g = (Ok a, g').
Proof. unfold in_timer. destruct (m g) as [[x | e | e] g1]; intros H; try discriminate; exact H. Qed.

Lemma try_catch_ok {S A} (m : M S A) h (s : S) a s' :
  try_catch m h s = (Ok a, s') ->
  m s = (Ok a, s') \/ exists e s1, m s = (Throw e, s1) /\ h e s1 = (Ok a, s').
Proof.
  unfold try_catch. destruct (m s) as [[x | e | e] s1]; intros H; try discriminate.
  - left. exact H.
  - right. exists e, s1. split; [reflexivity | exact H].
Qed.

(** ** Rating ([DataService.saveGame]) *)

Lemma clamp_range r : 800 <= clamp r <= 2400.
Proof. unfold clamp. lia. Qed.

Lemma update_stats_finished game s :
  g_status game <> Active ->
  currentRating (DataService.update_stats game s) =
    clamp (currentRating s +
           (if DataService.result_is game "1-0" && color_eqb (g_playerColor game) White then 20
            else if DataService.result_is game "0-1" && color_eqb (g_playerColor game) Black then 20
            else if DataService.result_is game "1/2-1/2" then 5 else -15)).
Proof.
  intros Hst. unfold DataService.update_stats.
  rewrite bool_decide_eq_true_2 by exact Hst.
  repeat match goal with |- context [if ?c then _ else _] => destruct c end;
    simpl; unfold clamp; f_equal; f_equal; lia.
Qed.

Lemma update_stats_range game s :
  800 <= currentRating s <= 2400 ->
  800 <= currentRating (DataService.update_stats game s) <= 2400.
Proof.
  intros Hr. destruct (decide (g_status game = Active)) as [Ha | Hn].
  - unfold DataService.update_stats. rewrite bool_decide_eq_false_2; [exact Hr | intros H; exact (H Ha)].
  - rewrite update_stats_finished by exact Hn. apply clamp_range.
Qed.

Lemma saveGames_range gs : forall d,
  800 <= rating d <= 2400 -> 800 <= rating (saveGames gs d) <= 2400.
Proof.
  induction gs as [| g gs IH]; intros d Hr; simpl.
  - exact Hr.
  - apply IH. unfold rating; simpl. apply update_stats_range. exact Hr.
Qed.

(** C1.  Saving a finished game moves the rating by +20 when the stored
    result and the player's side make it a win for the player, by +5 for a
    draw and by -15 for a loss, clamped to [800, 2400]; after that update
    and any further sequence of saved games the rating lies in [800, 2400],
    as it does after any sequence of saved games from the statistics the
    service starts with. *)
Theorem saveGame_rating (game : ChessGame) (d : DataStore) :
  g_status game <> Active ->
  (playerWon game -> rating (DataService.saveGame game d) = clamp (rating d + 20)) /\
  (playerDrew game -> rating (DataService.saveGame game d) = clamp (rating d + 5)) /\
  (playerLost game -> rating (DataService.saveGame game d) = clamp (rating d - 15)) /\
  (forall gs, 800 <= rating (saveGames gs (DataService.saveGame game d)) <= 2400) /\
  (forall gs d0, stats d0 = DataService.initial_stats -> 800 <= rating (saveGames gs d0) <= 2400).
Proof.
  intros Hst.
  assert (Hup := update_stats_finished game (stats d) Hst).
  assert (Hnew : rating (DataService.saveGame game d) =
                 currentRating (DataService.update_stats game (stats d))) by reflexivity.
  rewrite Hnew, Hup. unfold rating.
  split; [| split; [| split; [| split]]].
  - intros [[Hr Hc] | [Hr Hc]]; unfold DataService.result_is; rewrite Hr, Hc; reflexivity.
  - intros Hr. unfold playerDrew in Hr. unfold DataService.result_is; rewrite Hr. reflexivity.
  - intros [[Hr Hc] | [Hr Hc]]; unfold DataService.result_is; rewrite Hr, Hc; reflexivity.
  - intros gs. apply saveGames_range. rewrite Hnew, Hup. apply clamp_range.
  - intros gs d0 H0. apply saveGames_range. unfold rating. rewrite H0. simpl. lia.
Qed.

Lemma saveGame_rating_witness :
  let game := with_result "1-0" (with_status Checkmate "2024-01-01T00:10:00.000Z"
                (game_at "game_1" Book.locked0 White Beginner)) in
  let d := {| games := ∅; stats := DataService.initial_stats |} in
  g_status game <> Active /\
  rating (DataService.saveGame game d) = 1220.
Proof.
  split; [discriminate |].
  refine (proj1 (saveGame_rating _ _ _) _); [discriminate |].
  left. split; reflexivity.
Defined.

(** ** The side-to-move swap of [evaluateMobility] *)

Lemma app_empty (s : string) : "" +:+ s = s.
Proof. reflexivity. Qed.

Lemma app_cons c (a b : string) : String c a +:+ b = String c (a +:+ b).
Proof. reflexivity. Qed.

Lemma prefix_app pat rest : String.prefix pat (pat +:+ rest) = true.
Proof.
  induction pat as [| c pat IH]; [rewrite app_empty; destruct rest; reflexivity |].
  rewrite app_cons. cbn [String.prefix].
  destruct (ascii_dec c c); [exact IH | congruence].
Qed.

Lemma skip_app pat rest : Js.skip (String.length pat) (pat +:+ rest) = rest.
Proof.
  induction pat as [| c pat IH]; [rewrite app_empty; destruct rest; reflexivity |].
  rewrite app_cons. exact IH.
Qed.

(** A pattern that starts with a space is first found right after a
    space-free prefix. *)
Lemma replace_after_prefix pat rep pl rest :
  no_space pl = true ->
  Js.replace (String " " pat) rep (pl +:+ String " " pat +:+ rest) = pl +:+ rep +:+ rest.
Proof.
  intros Hpl. induction pl as [| c pl IH].
  - rewrite !app_empty.
    assert (Hstep : forall s, String.prefix (String " " pat) s = true ->
              Js.replace (String " " pat) rep s = rep +:+ Js.skip (String.length (String " " pat)) s).
    { intros s Hs. destruct s; cbn [Js.replace]; rewrite Hs; reflexivity. }
    rewrite Hstep by apply prefix_app. rewrite skip_app. reflexivity.
  - simpl in Hpl. apply andb_true_iff in Hpl as [Hc Hpl].
    rewrite (app_cons c pl). cbn [Js.replace String.prefix].
    destruct (ascii_dec " " c) as [<- | Hne]; [discriminate |].
    rewrite (IH Hpl). rewrite (app_cons c pl). reflexivity.
Qed.

Lemma replace_absent pat rep s :
  Js.includes pat s = false -> Js.replace pat rep s = s.
Proof.
  induction s as [| c s IH]; intros H.
  - simpl in *. apply orb_false_iff in H as [-> _]. reflexivity.
  - cbn [Js.includes] in H. apply orb_false_iff in H as [Hp Hs].
    cbn [Js.replace]. rewrite Hp. rewrite (IH Hs). reflexivity.
Qed.

(** With White to move the second [replace] undoes the first: the string
    loaded is the one the board already had. *)
Lemma swapped_fen_white pl rest :
  no_space pl = true ->
  swapped_fen (pl +:+ " w " +:+ rest) = pl +:+ " w " +:+ rest.
Proof.
  intros Hpl. unfold swapped_fen.
  rewrite (replace_after_prefix "w " " b " pl rest Hpl).
  apply (replace_after_prefix "b " " w " pl rest Hpl).
Qed.

(** With Black to move the string loaded has White to move. *)
Lemma swapped_fen_black pl rest :
  no_space pl = true ->
  Js.includes " w " (pl +:+ " b " +:+ rest) = false ->
  swapped_fen (pl +:+ " b " +:+ rest) = pl +:+ " w " +:+ rest.
Proof.
  intros Hpl Hw. unfold swapped_fen.
  rewrite (replace_absent _ _ _ Hw).
  apply (replace_after_prefix "b " " w " pl rest Hpl).
Qed.

Section Mobility.

Context `{R : Rules}.

(** Whoever is to move, the object is left holding a position with White
    to move, and the same position when White already was. *)
Lemma evaluateMobility_white (b : Board) pl rest :
  no_space pl = true ->
  fen b = pl +:+ " w " +:+ rest ->
  evaluateMobility b =
    match load (fen b) with
    | Some b' => Ok ((Z.of_nat (length (moves b)) - Z.of_nat (length (moves b'))) * 2, b')
    | None => Throw "Invalid FEN"
    end.
Proof.
  intros Hpl Hf. unfold evaluateMobility. rewrite Hf at 1.
  rewrite (swapped_fen_white pl rest Hpl). rewrite <- Hf.
  destruct (load (fen b)); reflexivity.
Qed.

(** With Black to move the object is left on the position with White to
    move, and the difference is Black's count minus White's. *)
Lemma evaluateMobility_black (b : Board) pl rest :
  no_space pl = true ->
  Js.includes " w " (pl +:+ " b " +:+ rest) = false ->
  fen b = pl +:+ " b " +:+ rest ->
  evaluateMobility b =
    match load (pl +:+ " w " +:+ rest) with
    | Some b' => Ok ((Z.of_nat (length (moves b)) - Z.of_nat (length (moves b'))) * 2, b')
    | None => Throw "Invalid FEN"
    end.
Proof.
  intros Hpl Hw Hf. unfold evaluateMobility. rewrite Hf.
  rewrite (swapped_fen_black pl rest Hpl Hw).
  destruct (load (pl +:+ " w " +:+ rest)); reflexivity.
Qed.

Lemma evaluateMobility_white_zero `{!Lawful R} (b : Board) pl rest :
  no_space pl = true ->
  fen b = pl +:+ " w " +:+ rest ->
  forall v b', evaluateMobility b = Ok (v, b') -> v = 0.
Proof.
  intros Hpl Hf v b' H. rewrite (evaluateMobility_white b pl rest Hpl Hf) in H.
  destruct (load (fen b)) as [b0 |] eqn:E; [| discriminate].
  injection H as <- <-. rewrite (reload_moves b b0 E). lia.
Qed.

End Mobility.

(** ** The book instances are lawful *)

Lemma book_lawful (table : list Book.Entry) : Lawful (Book.rules table).
Proof.
  split.
  - intros b Hm. cbn in *. unfold Book.bk_isGameOver, Book.bk_isCheckmate, Book.bk_isStalemate, Book.stuck.
    rewrite Hm. destruct (Book.bk_isCheck table b); reflexivity.
  - intros b b' Hl. cbn in *. unfold Book.bk_load in Hl.
    destruct (Book.lookup table (Book.bk_fen b)); [| discriminate].
    injection Hl as <-. reflexivity.
  - intros b q m b' Hmv. cbn in *. unfold Book.bk_move in Hmv.
    destruct (find _ _) as [[m0 s0] |] eqn:Hf; [| discriminate].
    destruct (Book.lookup table s0); [| discriminate].
    injection Hmv as <- _. apply find_some in Hf as [Hin _].
    unfold Book.bk_moves. apply (in_map fst) in Hin. exact Hin.
Qed.

(** ** Evaluation ([calculateStockfishEvaluation]) *)

Section Evaluation.

Context `{R : Rules}.

(** The terminal test is made on the board [evaluateMobility] leaves,
    not on the position that was asked about. *)
Lemma calculateStockfishEvaluation_eq fen0 depth g :
  fst (calculateStockfishEvaluation fen0 depth g) =
    match load fen0 with
    | None => Throw "Invalid FEN"
    | Some b =>
        match evaluateMobility b with
        | Ok (mobility, b') => Ok (verdict b' (score b mobility depth (g 0%nat)))
        | Throw e => Throw e
        | Fatal e => Fatal e
        end
    end.
Proof.
  unfold calculateStockfishEvaluation, bind, pure_res, of_option, random, verdict, score.
  destruct (load fen0) as [b |]; [| reflexivity].
  destruct (evaluateMobility b) as [[mobility b'] | e | e]; [| reflexivity | reflexivity].
  cbn beta iota.
  destruct (isGameOver b'); [destruct (isCheckmate b'); [destruct (color_eqb (turn b') White) |] |];
    reflexivity.
Qed.

Lemma calculateStockfishEvaluation_at fen0 depth g b mobility b' :
  load fen0 = Some b ->
  evaluateMobility b = Ok (mobility, b') ->
  fst (calculateStockfishEvaluation fen0 depth g) =
    Ok (verdict b' (score b mobility depth (g 0%nat))).
Proof.
  intros Hl Hm. rewrite calculateStockfishEvaluation_eq, Hl, Hm. reflexivity.
Qed.

End Evaluation.

(** C6 (as amended).  An evaluation is a function of the position, the
    requested depth and the number the global generator returns: two
    evaluations of the same position at the same depth agree whenever they
    draw the same number.  This holds for the engine's evaluation and for
    [ChessEngineService.evaluatePosition]. *)
Theorem evaluation_function_of_draw `{R : Rules} (fen0 : string) (depth : Z) (g1 g2 : Rng) :
  g1 0%nat = g2 0%nat ->
  fst (calculateStockfishEvaluation fen0 depth g1) = fst (calculateStockfishEvaluation fen0 depth g2) /\
  forall b : Board, fst (ChessEngine.evaluatePosition b g1) = fst (ChessEngine.evaluatePosition b g2).
Proof.
  intros Hd. split.
  - rewrite !calculateStockfishEvaluation_eq. rewrite Hd. reflexivity.
  - intros b. unfold ChessEngine.evaluatePosition, bind, random, ret. cbn. rewrite Hd. reflexivity.
Qed.

Lemma evaluation_function_of_draw_witness :
  always 0 0%nat = (fun n => match n with O => 0%Q | S _ => (1 # 2)%Q end) 0%nat /\
  fst (calculateStockfishEvaluation (R := Book.rules Book.locked_table) Book.locked0 10 (always 0)) =
  fst (calculateStockfishEvaluation (R := Book.rules Book.locked_table) Book.locked0 10
         (fun n => match n with O => 0%Q | S _ => (1 # 2)%Q end)).
Proof.
  split; [reflexivity |].
  refine (proj1 (evaluation_function_of_draw (R := Book.rules Book.locked_table) _ _ _ _ _)).
  reflexivity.
Defined.

(** C6 (as stated) fails: the same position at the same depth is given
    -0.25 under one draw of [Math.random] and 0.00 under another; nothing in
    the call fixes the draw. *)
Lemma evaluation_depends_on_draw :
  fst (calculateStockfishEvaluation (R := Book.rules Book.locked_table) Book.locked0 10 (always 0)) =
    Ok {| ev_type := Cp; ev_value := -25; ev_formatted := "-0.25" |} /\
  fst (calculateStockfishEvaluation (R := Book.rules Book.locked_table) Book.locked0 10 (always (1 # 2))) =
    Ok {| ev_type := Cp; ev_value := 0; ev_formatted := "0.00" |} /\
  fst (calculateStockfishEvaluation (R := Book.rules Book.locked_table) Book.locked0 10 (always 0)) <>
  fst (calculateStockfishEvaluation (R := Book.rules Book.locked_table) Book.locked0 10 (always (1 # 2))).
Proof.
  assert (H0 : fst (calculateStockfishEvaluation (R := Book.rules Book.locked_table) Book.locked0 10 (always 0)) =
    Ok {| ev_type := Cp; ev_value := -25; ev_formatted := "-0.25" |}) by (vm_compute; reflexivity).
  assert (H1 : fst (calculateStockfishEvaluation (R := Book.rules Book.locked_table) Book.locked0 10 (always (1 # 2))) =
    Ok {| ev_type := Cp; ev_value := 0; ev_formatted := "0.00" |}) by (vm_compute; reflexivity).
  split; [exact H0 |]. split; [exact H1 |]. rewrite H0, H1. discriminate.
Qed.

(** With White to move the terminal test is made on the position asked
    about, reloaded. *)
Lemma evaluation_white_to_move `{R : Rules} fen0 depth g (b : Board) pl rest :
  load fen0 = Some b -> no_space pl = true -> fen b = pl +:+ " w " +:+ rest ->
  fst (calculateStockfishEvaluation fen0 depth g) =
    match load (fen b) with
    | Some b' =>
        Ok (verdict b' (score b ((Z.of_nat (length (moves b)) - Z.of_nat (length (moves b'))) * 2)
                          depth (g 0%nat)))
    | None => Throw "Invalid FEN"
    end.
Proof.
  intros Hl Hpl Hf. rewrite calculateStockfishEvaluation_eq, Hl.
  rewrite (evaluateMobility_white b pl rest Hpl Hf).
  destruct (load (fen b)); reflexivity.
Qed.

(** C3.  Black is to move and mated in [Book.mated]; at every depth and for
    every draw the evaluation returned is a centipawn score, not a mate:
    the terminal test is made after [evaluateMobility] has reloaded the
    object with White to move.  Black is to move and stalemated in
    [Book.stale_b]; at depth 20 the evaluation returned is -0.02, not 0. *)
Theorem black_terminal_positions_scored_as_ongoing :
  (forall (depth : Z) (g : Rng), exists b ev,
    load (Rules := Book.rules Book.mate_table) Book.mated = Some b /\
    turn b = Black /\ isGameOver b = true /\ isCheckmate b = true /\
    fst (calculateStockfishEvaluation (R := Book.rules Book.mate_table) Book.mated depth g) = Ok ev /\
    ev_type ev = Cp) /\
  (forall g : Rng, exists b,
    load (Rules := Book.rules Book.locked_table) Book.stale_b = Some b /\
    turn b = Black /\ isGameOver b = true /\ isCheckmate b = false /\ isStalemate b = true /\
    fst (calculateStockfishEvaluation (R := Book.rules Book.locked_table) Book.stale_b 20 g) =
      Ok {| ev_type := Cp; ev_value := -2; ev_formatted := "-0.02" |}).
Proof.
  split.
  - intros depth g.
    exists {| Book.bk_fen := Book.mated; Book.bk_history := [] |}.
    eexists.
    split; [vm_compute; reflexivity |].
    split; [vm_compute; reflexivity |].
    split; [vm_compute; reflexivity |].
    split; [vm_compute; reflexivity |].
    split.
    + apply (calculateStockfishEvaluation_at (R := Book.rules Book.mate_table) Book.mated depth g
               {| Book.bk_fen := Book.mated; Book.bk_history := [] |} (-14)
               {| Book.bk_fen := Book.mated_w; Book.bk_history := [] |});
        vm_compute; reflexivity.
    + unfold verdict.
      replace (isGameOver (Rules := Book.rules Book.mate_table)
                 {| Book.bk_fen := Book.mated_w; Book.bk_history := [] |}) with false
        by (vm_compute; reflexivity).
      reflexivity.
  - intros g.
    exists {| Book.bk_fen := Book.stale_b; Book.bk_history := [] |}.
    split; [vm_compute; reflexivity |].
    split; [vm_compute; reflexivity |].
    split; [vm_compute; reflexivity |].
    split; [vm_compute; reflexivity |].
    split; [vm_compute; reflexivity |].
    rewrite (calculateStockfishEvaluation_at (R := Book.rules Book.locked_table) Book.stale_b 20 g
               {| Book.bk_fen := Book.stale_b; Book.bk_history := [] |} (-2)
               {| Book.bk_fen := Book.stale_w; Book.bk_history := [] |})
      by (vm_compute; reflexivity).
    unfold verdict.
    replace (isGameOver (Rules := Book.rules Book.locked_table)
               {| Book.bk_fen := Book.stale_w; Book.bk_history := [] |}) with false
      by (vm_compute; reflexivity).
    assert (Hs : score (R := Book.rules Book.locked_table)
                   {| Book.bk_fen := Book.stale_b; Book.bk_history := [] |} (-2) 20 (g 0%nat) = -2).
    { unfold score.
      replace (evaluateMaterial (R := Book.rules Book.locked_table) _ + evaluatePosition _
               + evaluateKingSafety _ + -2) with (-2) by (vm_compute; reflexivity).
      unfold Js.round.
      rewrite (Qfloor_comp _ (inject_Z (-2) + (1 # 2))%Q).
      - reflexivity.
      - replace (Js.min (inject_Z 20 / 20) 1) with (20 # 20)%Q by (vm_compute; reflexivity).
        ring. }
    rewrite Hs. reflexivity.
Qed.

(** C9.  In [Book.locked1] Black is to move and has one legal move, White
    would have none; the position is not over.  [evaluateMobility] returns
    +2: the count of the side to move minus the count of the other side,
    where the specification has White's count minus Black's, which is negative here.
    In [Book.stale_w] White is to move and has one legal move, Black would
    have none; [evaluateMobility] returns 0, having counted White twice. *)
Theorem mobility_counts_side_to_move_first :
  (exists b bw : Board,
    load (Rules := Book.rules Book.locked_table) Book.locked1 = Some b /\
    turn b = Black /\ isGameOver b = false /\
    load (Rules := Book.rules Book.locked_table) Book.locked1w = Some bw /\
    turn bw = White /\ board bw = board b /\
    length (moves bw) = 0%nat /\ length (moves b) = 1%nat /\
    evaluateMobility b = Ok (2, bw)) /\
  (exists b bb : Board,
    load (Rules := Book.rules Book.locked_table) Book.stale_w = Some b /\
    turn b = White /\ isGameOver b = false /\
    load (Rules := Book.rules Book.locked_table) Book.stale_b = Some bb /\
    turn bb = Black /\ board bb = board b /\
    length (moves b) = 1%nat /\ length (moves bb) = 0%nat /\
    evaluateMobility b = Ok (0, b)).
Proof.
  split.
  - exists {| Book.bk_fen := Book.locked1; Book.bk_history := [] |}.
    exists {| Book.bk_fen := Book.locked1w; Book.bk_history := [] |}.
    split; [vm_compute; reflexivity |].
    split; [vm_compute; reflexivity |].
    split; [vm_compute; reflexivity |].
    split; [vm_compute; reflexivity |].
    split; [vm_compute; reflexivity |].
    split; [vm_compute; reflexivity |].
    split; [vm_compute; reflexivity |].
    split; [vm_compute; reflexivity |].
    vm_compute; reflexivity.
  - exists {| Book.bk_fen := Book.stale_w; Book.bk_history := [] |}.
    exists {| Book.bk_fen := Book.stale_b; Book.bk_history := [] |}.
    split; [vm_compute; reflexivity |].
    split; [vm_compute; reflexivity |].
    split; [vm_compute; reflexivity |].
    split; [vm_compute; reflexivity |].
    split; [vm_compute; reflexivity |].
    split; [vm_compute; reflexivity |].
    split; [vm_compute; reflexivity |].
    split; [vm_compute; reflexivity |].
    vm_compute; reflexivity.
Qed.

(** ** Principal variation *)

Section PrincipalVariation.

Context `{R : Rules}.

Lemma pv_loop_length n : forall b pv g pv' g',
  pv_loop n b pv g = (Ok pv', g') ->
  (length pv <= length pv' <= length pv + n)%nat.
Proof.
  induction n as [| n IH]; intros b pv g pv' g' H; cbn [pv_loop] in H.
  - unfold ret in H. injection H as <- _. lia.
  - destruct (moves b) as [| m0 ms] eqn:Hm.
    + unfold ret in H. injection H as <- _. lia.
    + apply bind_ok in H as (r & g1 & _ & H).
      destruct (nth_Z (m0 :: ms) _) as [nextMove |]; [| discriminate].
      apply bind_ok in H as ([mv b'] & g2 & _ & H).
      apply IH in H. rewrite length_app in H. simpl in H. lia.
Qed.

Lemma calculatePrincipalVariation_length fen0 bestMove depth g pv g' :
  calculatePrincipalVariation fen0 bestMove depth g = (Ok pv, g') ->
  (1 <= length pv <= 1 + (depth - 1))%nat.
Proof.
  unfold calculatePrincipalVariation. intros H.
  apply bind_ok in H as (b & g1 & _ & H).
  apply bind_ok in H as ([mv b1] & g2 & _ & H).
  apply pv_loop_length in H. simpl in H. exact H.
Qed.

Lemma analyzePosition_pv fen0 depth g a g' :
  analyzePosition fen0 depth g = (Ok a, g') ->
  (1 <= length (er_principalVariation a) <= 3)%nat /\ er_depth a = depth.
Proof.
  unfold analyzePosition. simpl negb. cbv iota. intros H.
  apply bind_ok in H as (d & g0 & _ & H).
  apply in_timer_ok in H.
  apply bind_ok in H as (ev & g1 & _ & H).
  apply bind_ok in H as (best & g2 & _ & H).
  apply bind_ok in H as (pv & g3 & Hpv & H).
  apply bind_ok in H as (r1 & g4 & _ & H).
  apply bind_ok in H as (r2 & g5 & _ & H).
  apply bind_ok in H as (r3 & g6 & _ & H).
  unfold ret in H. injection H as <- _. cbn [er_principalVariation er_depth].
  apply calculatePrincipalVariation_length in Hpv. simpl in Hpv. split; [lia | reflexivity].
Qed.

End PrincipalVariation.

(** C8 (as amended).  The principal variation of an analysis result has at
    least one and at most three entries, whatever depth was requested. *)
Theorem principal_variation_at_most_three `{R : Rules}
    (fen0 : string) (depth timeout : Z) (g : Rng) (a : ChessAnalysis) :
  fst (Enhanced.analyzeWithStockfish fen0 depth timeout g) = Ok a ->
  (1 <= length (ca_principalVariation a) <= 3)%nat /\ ca_depth a = depth.
Proof.
  intros H.
  destruct (Enhanced.analyzeWithStockfish fen0 depth timeout g) as [r g'] eqn:E.
  simpl in H. subst r. unfold Enhanced.analyzeWithStockfish in E.
  apply try_catch_ok in E as [E | (e & g1 & _ & E)]; [| discriminate].
  apply bind_ok in E as (b & g1 & _ & E).
  apply bind_ok in E as (r & g2 & Ha & E).
  unfold ret in E. injection E as <- _. cbn [ca_principalVariation ca_depth].
  exact (analyzePosition_pv _ _ _ _ _ Ha).
Qed.

Lemma principal_variation_at_most_three_witness :
  exists a,
    fst (Enhanced.analyzeWithStockfish (R := Book.rules Book.locked_table)
           Book.locked0 1 5000 (always (1 # 2))) = Ok a /\
    (1 <= length (ca_principalVariation a) <= 3)%nat /\ ca_depth a = 1.
Proof.
  eexists. split; [vm_compute; reflexivity |].
  apply (principal_variation_at_most_three (R := Book.rules Book.locked_table)
           Book.locked0 1 5000 (always (1 # 2))).
  vm_compute; reflexivity.
Defined.

(** C8 (as stated) fails: asked for depth 1 in [Book.locked0], the analysis
    returns the two-move variation g5, b4. *)
Lemma principal_variation_exceeds_depth :
  exists a,
    fst (Enhanced.analyzeWithStockfish (R := Book.rules Book.locked_table)
           Book.locked0 1 5000 (always (1 # 2))) = Ok a /\
    ca_depth a = 1 /\
    ca_principalVariation a = ["g5"; "b4"] /\
    ~ (Z.of_nat (length (ca_principalVariation a)) <= ca_depth a).
Proof.
  eexists. split; [vm_compute; reflexivity |].
  split; [reflexivity |]. split; [reflexivity |].
  simpl. lia.
Qed.

(** ** The generator only advances *)

Lemma later_refl g : later g g.
Proof. exists 0%nat. reflexivity. Qed.

Lemma later_trans g1 g2 g3 : later g1 g2 -> later g2 g3 -> later g1 g3.
Proof.
  intros [k1 H1] [k2 H2]. exists (k1 + k2)%nat. intros n.
  rewrite H2, H1. f_equal. lia.
Qed.

Lemma later_ok g g' : rng_ok g -> later g g' -> rng_ok g'.
Proof. intros Hok [k H] n. rewrite H. apply Hok. Qed.

Lemma advances_ret {A} (a : A) : advances (ret a).
Proof. intros g. apply later_refl. Qed.

Lemma advances_throw {A} msg : advances (@throw Rng A msg).
Proof. intros g. apply later_refl. Qed.

Lemma advances_pure {A} (r : res A) : advances (pure_res r).
Proof. intros g. apply later_refl. Qed.

Lemma advances_random : advances random.
Proof. intros g. exists 1%nat. reflexivity. Qed.

Lemma advances_bind {A B} (m : M Rng A) (k : A -> M Rng B) :
  advances m -> (forall a, advances (k a)) -> advances (bind m k).
Proof.
  intros Hm Hk g. unfold bind. specialize (Hm g).
  destruct (m g) as [[a | e | e] g1]; simpl in *; try exact Hm.
  eapply later_trans; [exact Hm | apply Hk].
Qed.

Lemma advances_in_timer `{R : Rules} {A} (m : M Rng A) : advances m -> advances (in_timer m).
Proof.
  intros Hm g. unfold in_timer. specialize (Hm g).
  destruct (m g) as [[a | e | e] g1]; exact Hm.
Qed.

Section Advances.

Context `{R : Rules}.

Lemma advances_evaluation fen0 depth : advances (calculateStockfishEvaluation fen0 depth).
Proof.
  unfold calculateStockfishEvaluation.
  apply advances_bind; [apply advances_pure | intros b].
  apply advances_bind; [apply advances_pure | intros [mob b']].
  apply advances_bind; [apply advances_random | intros r].
  destruct (isGameOver b'); [destruct (isCheckmate b') |]; apply advances_ret.
Qed.

Lemma advances_pv_loop n : forall b pv, advances (pv_loop n b pv).
Proof.
  induction n as [| n IH]; intros b pv; cbn [pv_loop].
  - apply advances_ret.
  - destruct (moves b) as [| m0 ms]; [apply advances_ret |].
    apply advances_bind; [apply advances_random | intros r].
    destruct (nth_Z _ _) as [nextMove |]; [| apply advances_throw].
    apply advances_bind; [apply advances_pure | intros [mv b']]. apply IH.
Qed.

Lemma advances_analyzePosition fen0 depth : advances (analyzePosition fen0 depth).
Proof.
  unfold analyzePosition. simpl negb. cbv iota.
  apply advances_bind; [apply advances_random | intros _].
  apply advances_in_timer.
  apply advances_bind; [apply advances_evaluation | intros ev].
  apply advances_bind; [apply advances_pure | intros best].
  apply advances_bind.
  { unfold calculatePrincipalVariation.
    apply advances_bind; [apply advances_pure | intros b].
    apply advances_bind; [apply advances_pure | intros [mv b1]]. apply advances_pv_loop. }
  intros pv.
  apply advances_bind; [apply advances_random | intros r1].
  apply advances_bind; [apply advances_random | intros r2].
  apply advances_bind; [apply advances_random | intros r3].
  apply advances_ret.
Qed.

End Advances.

(** ** Bot move selection ([getStockfishMove]) *)

(** [Math.floor(Math.random() * n)] is an index below [n]. *)
Lemma floor_index (r : Q) (n : Z) :
  (0 <= r)%Q -> (r < 1)%Q -> 0 < n -> 0 <= Js.floor (r * inject_Z n) < n.
Proof.
  intros H0 H1 Hn. unfold Js.floor.
  assert (Hnq : (0 < inject_Z n)%Q).
  { change (inject_Z 0 < inject_Z n)%Q. rewrite <- Zlt_Qlt. exact Hn. }
  split.
  - change 0 with (Qfloor 0). apply Qfloor_resp_le.
    apply Qmult_le_0_compat; [exact H0 | apply Qlt_le_weak; exact Hnq].
  - rewrite Zlt_Qlt.
    eapply Qle_lt_trans; [apply Qfloor_le |].
    apply Qlt_le_trans with (1 * inject_Z n)%Q.
    + apply Qmult_lt_compat_r; assumption.
    + rewrite Qmult_1_l. apply Qle_refl.
Qed.

Lemma nth_Z_listed {A} (l : list A) (i : Z) :
  0 <= i < Z.of_nat (length l) -> exists x, nth_Z l i = Some x /\ In x l.
Proof.
  intros [H0 H1]. unfold nth_Z.
  destruct (i <? 0) eqn:E; [apply Z.ltb_lt in E; lia |].
  destruct (nth_error l (Z.to_nat i)) as [x |] eqn:Hn.
  - exists x. split; [reflexivity | eapply nth_error_In; exact Hn].
  - apply nth_error_None in Hn. lia.
Qed.

Lemma nth_Z_first_listed {A} (l : list A) :
  l <> [] -> exists x, nth_Z l 0 = Some x /\ In x l.
Proof.
  intros Hl. apply nth_Z_listed. destruct l; [congruence | simpl; lia].
Qed.

Lemma firstn_listed {A} n (l : list A) x : In x (firstn n l) -> In x l.
Proof.
  revert l. induction n as [| n IH]; intros [| y l] H; simpl in *; try contradiction.
  destruct H as [-> | H]; [left; reflexivity | right; apply IH; exact H].
Qed.

Section ChooseMove.

Context `{R : Rules}.

Lemma find_best_listed ms best m : Enhanced.find_best ms best = Some m -> In m ms.
Proof. unfold Enhanced.find_best. intros H. apply find_some in H as [H _]. exact H. Qed.

Lemma best_or_first_listed ms ms' best :
  ms' <> [] -> (forall x, In x ms' -> In x ms) ->
  exists m, Enhanced.or_else (Enhanced.find_best ms best) (nth_Z ms' 0) = Some m /\ In m ms.
Proof.
  intros Hne Hsub. destruct (Enhanced.find_best ms best) as [m |] eqn:Hf.
  - exists m. split; [reflexivity | eapply find_best_listed; exact Hf].
  - destruct (nth_Z_first_listed ms' Hne) as (x & Hx & Hin).
    exists x. split; [exact Hx | apply Hsub; exact Hin].
Qed.

(** Whatever the tier and the draws, the move handed to [chess.move] is
    one of the enumeration. *)
Lemma selectMove_listed fen0 difficulty ms g :
  ms <> [] -> rng_ok g -> analysis_settles fen0 ->
  exists m g', Enhanced.selectMove fen0 difficulty ms g = (Ok (Some m), g') /\ In m ms.
Proof.
  intros Hne Hok Hset.
  assert (Htop : firstn 3 ms <> []) by (destruct ms; [congruence | discriminate]).
  destruct difficulty; unfold Enhanced.selectMove.
  - (* beginner *)
    unfold bind at 1. unfold random at 1.
    assert (Hok1 : rng_ok (fun n => g (S n))) by (intros n; apply Hok).
    destruct (Qltb (g 0%nat) (3 # 10)).
    + destruct (Hset 4 _ Hok1) as (a & g1 & Ha). unfold bind. rewrite Ha.
      destruct (best_or_first_listed ms ms (er_bestMove a) Hne (fun x H => H)) as (m & Hm & Hin).
      exists m, g1. unfold ret. rewrite Hm. split; [reflexivity | exact Hin].
    + unfold bind, random, ret.
      destruct (nth_Z_listed ms (Js.floor (g 1%nat * inject_Z (Z.of_nat (length ms))))) as (m & Hm & Hin).
      { apply floor_index; try apply Hok. destruct ms; [congruence | simpl; lia]. }
      exists m. eexists. rewrite Hm. split; [reflexivity | exact Hin].
  - (* intermediate *)
    destruct (Hset 8 g Hok) as (a & g1 & Ha). unfold bind at 1. rewrite Ha.
    assert (Hok1 : rng_ok g1).
    { eapply later_ok; [exact Hok |]. pose proof (advances_analyzePosition fen0 8 g) as Hl.
      rewrite Ha in Hl. exact Hl. }
    unfold bind at 1. unfold random at 1.
    destruct (Qltb (g1 0%nat) (7 # 10)).
    + destruct (best_or_first_listed ms (firstn 3 ms) (er_bestMove a) Htop (firstn_listed 3 ms))
        as (m & Hm & Hin).
      exists m. eexists. unfold ret. rewrite Hm. split; [reflexivity | exact Hin].
    + unfold bind, random, ret.
      destruct (nth_Z_listed (firstn 3 ms)
                 (Js.floor (g1 1%nat * inject_Z (Z.of_nat (length (firstn 3 ms)))))) as (m & Hm & Hin).
      { apply floor_index; try apply Hok1. destruct ms; [congruence | simpl; lia]. }
      exists m. eexists. rewrite Hm. split; [reflexivity | eapply firstn_listed; exact Hin].
  - (* advanced *)
    destruct (Hset 12 g Hok) as (a & g1 & Ha). unfold bind. rewrite Ha.
    destruct (best_or_first_listed ms ms (er_bestMove a) Hne (fun x H => H)) as (m & Hm & Hin).
    exists m, g1. unfold ret. rewrite Hm. split; [reflexivity | exact Hin].
  - (* maximum *)
    destruct (Hset 18 g Hok) as (a & g1 & Ha). unfold bind. rewrite Ha.
    destruct (best_or_first_listed ms ms (er_bestMove a) Hne (fun x H => H)) as (m & Hm & Hin).
    exists m, g1. unfold ret. rewrite Hm. split; [reflexivity | exact Hin].
Qed.

End ChooseMove.

Lemma run_bind {S A B} (m : M S A) (k : A -> M S B) s a s1 :
  m s = (Ok a, s1) -> bind m k s = k a s1.
Proof. intros H. unfold bind. rewrite H. reflexivity. Qed.

Lemma fst_ok {S A} (m : M S A) s a : fst (m s) = Ok a -> exists s', m s = (Ok a, s').
Proof. destruct (m s) as [r s']. simpl. intros ->. exists s'. reflexivity. Qed.

(** For a position [fen0] that loads as [b]: whatever [getStockfishMove]
    returns is a move of the library's legal-move enumeration for [b]; and
    it does return one, for every tier and every run of the generator, on
    the positions where the engine's analysis settles. *)
Lemma getStockfishMove_listed `{R : Rules} `{!Lawful R}
    (fen0 : string) (difficulty : Difficulty) (g : Rng) (b : Board) :
  load fen0 = Some b ->
  (forall bm g', Enhanced.getStockfishMove fen0 difficulty g = (Ok (Some bm), g') ->
     exists m, In m (moves b) /\ same_move bm m) /\
  (moves b <> [] -> rng_ok g -> accepts b -> analysis_settles fen0 ->
     exists bm g' m, Enhanced.getStockfishMove fen0 difficulty g = (Ok (Some bm), g') /\
                     In m (moves b) /\ same_move bm m).
Proof.
  intros Hl.
  assert (Hsafe : forall bm g', Enhanced.getStockfishMove fen0 difficulty g = (Ok (Some bm), g') ->
            exists m, In m (moves b) /\ same_move bm m).
  { intros bm g' H. unfold Enhanced.getStockfishMove in H.
    apply bind_ok in H as (b0 & g0 & Hb & H).
    apply pure_res_ok in Hb as [Hb ->]. apply of_option_ok in Hb.
    rewrite Hl in Hb. injection Hb as <-.
    destruct (moves b) as [| m0 ms] eqn:Hm; [discriminate |].
    apply bind_ok in H as (sel & g1 & _ & H).
    destruct sel as [selected |]; [| discriminate].
    apply bind_ok in H as ([mv b'] & g2 & Hmv & H).
    apply pure_res_ok in Hmv as [Hmv ->]. apply of_option_ok in Hmv.
    unfold ret in H. injection H as <- _.
    exists mv. split.
    - rewrite <- Hm. eapply move_listed. exact Hmv.
    - repeat split. }
  split; [exact Hsafe |].
  intros Hne Hok Hacc Hset.
  destruct (selectMove_listed fen0 difficulty (moves b) g Hne Hok Hset) as (m & g1 & Hsel & Hin).
  destruct (Hacc m Hin) as (mv & b' & Hmv).
  assert (Hrun : Enhanced.getStockfishMove fen0 difficulty g =
            (Ok (Some {| bot_from := m_from mv; bot_to := m_to mv; bot_san := m_san mv;
                         bot_fen := fen b'; bot_promotion := m_promotion mv |}), g1)).
  { unfold Enhanced.getStockfishMove.
    rewrite (run_bind _ _ g b g) by (unfold pure_res; rewrite Hl; reflexivity).
    destruct (moves b) as [| m0 ms] eqn:Hm; [congruence |].
    rewrite (run_bind _ _ g (Some m) g1) by exact Hsel.
    rewrite (run_bind _ _ g1 (mv, b') g1) by (unfold pure_res; rewrite Hmv; reflexivity).
    reflexivity. }
  destruct (Hsafe _ _ Hrun) as (m' & Hin' & Hsame).
  eexists. exists g1, m'. split; [exact Hrun |]. split; assumption.
Qed.

(** The analysis of [Book.locked1] settles: the only line is b4, stalemate. *)
Lemma locked1_analysis_settles :
  analysis_settles (R := Book.rules Book.locked_table) Book.locked1.
Proof.
  intros depth g Hok. unfold analyzePosition, isReady. cbn [negb].
  rewrite (run_bind _ _ g (g 0%nat) (fun n => g (S n))) by reflexivity.
  set (g0 := fun n => g (S n)).
  destruct (fst_ok (calculateStockfishEvaluation (R := Book.rules Book.locked_table) Book.locked1 depth) g0
              (verdict (R := Book.rules Book.locked_table)
                 {| Book.bk_fen := Book.locked1w; Book.bk_history := [] |}
                 (score (R := Book.rules Book.locked_table)
                    {| Book.bk_fen := Book.locked1; Book.bk_history := [] |} 2 depth (g0 0%nat))))
    as (g1 & Hev).
  { apply calculateStockfishEvaluation_at; vm_compute; reflexivity. }
  assert (Hbest : calculateBestMove (R := Book.rules Book.locked_table) Book.locked1 depth =
            Ok {| bm_from := "b5"; bm_to := "b4"; bm_san := "b4"; bm_promotion := None |}).
  { unfold calculateBestMove. destruct (Z.to_nat depth); vm_compute; reflexivity. }
  assert (Hpv : calculatePrincipalVariation (R := Book.rules Book.locked_table) Book.locked1
                  {| bm_from := "b5"; bm_to := "b4"; bm_san := "b4"; bm_promotion := None |} 3 g1 =
                (Ok ["b4"], g1)) by (vm_compute; reflexivity).
  unfold in_timer.
  rewrite (run_bind _ _ g0 _ g1 Hev).
  rewrite (run_bind _ _ g1 _ g1) by (unfold pure_res; rewrite Hbest; reflexivity).
  rewrite (run_bind _ _ g1 _ g1 Hpv).
  unfold bind, random, ret. eexists. eexists. reflexivity.
Qed.

Lemma getStockfishMove_listed_example :
  exists bm g' m,
    Enhanced.getStockfishMove (R := Book.rules Book.locked_table) Book.locked1 Stockfish (always (1 # 2))
      = (Ok (Some bm), g') /\
    In m (moves (Rules := Book.rules Book.locked_table)
            {| Book.bk_fen := Book.locked1; Book.bk_history := [] |}) /\
    same_move bm m.
Proof.
  refine (proj2 (getStockfishMove_listed (R := Book.rules Book.locked_table)
                   (Lawful0 := book_lawful Book.locked_table)
                   Book.locked1 Stockfish (always (1 # 2))
                   {| Book.bk_fen := Book.locked1; Book.bk_history := [] |} _) _ _ _ _).
  - reflexivity.
  - vm_compute. discriminate.
  - intros n. unfold always. split; [discriminate | reflexivity].
  - intros m Hin. vm_compute in Hin. destruct Hin as [<- | []].
    eexists. eexists. vm_compute. reflexivity.
  - exact locked1_analysis_settles.
Defined.

(** ** When the bot answers, and when it does not *)

Section BotAnswers.

Context `{R : Rules}.

(** [evaluateMobility] throws when the library refuses the position with
    the side to move replaced, and the analysis dies in its timer. *)
Lemma swap_refused_analysis fen0 depth g (b : Board) :
  load fen0 = Some b -> load (swapped_fen (fen b)) = None ->
  exists e g', analyzePosition fen0 depth g = (Fatal e, g').
Proof.
  intros Hl Hswap. unfold analyzePosition, isReady. cbn [negb].
  rewrite (run_bind _ _ g (g 0%nat) (fun n => g (S n))) by reflexivity.
  set (g0 := fun n => g (S n)).
  pose proof (calculateStockfishEvaluation_eq fen0 depth g0) as He.
  rewrite Hl in He. unfold evaluateMobility in He. rewrite Hswap in He.
  cbn [of_option res_bind] in He.
  unfold in_timer, bind at 1.
  destruct (calculateStockfishEvaluation fen0 depth g0) as [r g1]. cbn [fst] in He. subst r.
  eexists. eexists. reflexivity.
Qed.

Lemma swap_refused_bot fen0 g (b : Board) :
  load fen0 = Some b -> moves b <> [] -> load (swapped_fen (fen b)) = None ->
  (forall tier, tier <> Beginner ->
     exists e g', Enhanced.getStockfishMove fen0 tier g = (Fatal e, g')) /\
  (Qltb (g 0%nat) (3 # 10) = true ->
     exists e g', Enhanced.getStockfishMove fen0 Beginner g = (Fatal e, g')).
Proof.
  intros Hl Hne Hswap.
  assert (Hrun : forall tier,
            Enhanced.getStockfishMove fen0 tier g =
            bind (Enhanced.selectMove fen0 tier (moves b))
              (fun selectedMove =>
                 match selectedMove with
                 | None => throw "TypeError"
                 | Some selected =>
                     let* (mv, b') :=
                       pure_res (of_option "Invalid move" (move b (req_of_move selected))) in
                     ret (Some {| bot_from := m_from mv; bot_to := m_to mv; bot_san := m_san mv;
                                  bot_fen := fen b'; bot_promotion := m_promotion mv |})
                 end) g).
  { intros tier. unfold Enhanced.getStockfishMove.
    rewrite (run_bind _ _ g b g) by (unfold pure_res; rewrite Hl; reflexivity).
    destruct (moves b) as [| m0 ms]; [congruence | reflexivity]. }
  split.
  - intros tier Htier. rewrite Hrun. unfold Enhanced.selectMove.
    destruct tier; [congruence | | |].
    + destruct (swap_refused_analysis fen0 8 g b Hl Hswap) as (e & g' & Ha).
      exists e, g'. unfold bind. rewrite Ha. reflexivity.
    + destruct (swap_refused_analysis fen0 12 g b Hl Hswap) as (e & g' & Ha).
      exists e, g'. unfold bind. rewrite Ha. reflexivity.
    + destruct (swap_refused_analysis fen0 18 g b Hl Hswap) as (e & g' & Ha).
      exists e, g'. unfold bind. rewrite Ha. reflexivity.
  - intros Hdraw. rewrite Hrun. unfold Enhanced.selectMove.
    destruct (swap_refused_analysis fen0 4 (fun n => g (S n)) b Hl Hswap) as (e & g' & Ha).
    exists e, g'. unfold bind at 1 2, random. rewrite Hdraw. unfold bind. rewrite Ha.
    reflexivity.
Qed.

(** Where the library does load that position and accepts the moves it
    lists, the analysis settles. *)
Section Settles.

Hypothesis library_accepts : forall b : Board, accepts b.

Lemma quick_fold_ok (b : Board) depth
    (IH : forall b1 : Board, exists s, evaluateQuick b1 depth = Ok s) :
  forall l acc, (forall mv, In mv l -> In mv (moves b)) ->
  exists s,
    fold_left (fun acc mv =>
      let+ maxScore := acc in
      let+ (_, b1) := of_option "Invalid move" (move b (req_of_move mv)) in
      let+ score := evaluateQuick b1 depth in
      Ok (Js.max maxScore (Js.neg score))) l (Ok acc) = Ok s.
Proof.
  induction l as [| mv l IHl]; intros acc Hsub; cbn [fold_left].
  - exists acc. reflexivity.
  - destruct (library_accepts b mv (Hsub mv (or_introl eq_refl))) as (m1 & b1 & Hmv).
    destruct (IH b1) as (score & Hs).
    cbn [res_bind]. rewrite Hmv. cbn [of_option res_bind]. rewrite Hs. cbn [res_bind].
    apply IHl. intros x Hx. apply Hsub. right. exact Hx.
Qed.

Lemma evaluateQuick_ok depth : forall b : Board, exists s, evaluateQuick b depth = Ok s.
Proof.
  induction depth as [| depth IH]; intros b; cbn [evaluateQuick].
  - eexists. reflexivity.
  - destruct (isGameOver b); [eexists; reflexivity |].
    apply (quick_fold_ok b depth IH). apply firstn_listed.
Qed.

Lemma best_fold_ok (b : Board) depth :
  forall l bestMove bestScore, (forall mv, In mv l -> In mv (moves b)) ->
  exists m s,
    fold_left (fun acc mv =>
      let+ (bestMove, bestScore) := acc in
      let+ (_, b1) := of_option "Invalid move" (move b (req_of_move mv)) in
      let+ score := evaluateQuick b1 depth in
      if Js.gtb score bestScore then Ok (mv, score) else Ok (bestMove, bestScore))
      l (Ok (bestMove, bestScore)) = Ok (m, s) /\
    (m = bestMove \/ In m l).
Proof.
  induction l as [| mv l IHl]; intros bestMove bestScore Hsub; cbn [fold_left].
  - exists bestMove, bestScore. split; [reflexivity | left; reflexivity].
  - destruct (library_accepts b mv (Hsub mv (or_introl eq_refl))) as (m1 & b1 & Hmv).
    destruct (evaluateQuick_ok depth b1) as (score & Hs).
    cbn [res_bind]. rewrite Hmv. cbn [of_option res_bind]. rewrite Hs. cbn [res_bind].
    assert (Hsub' : forall x, In x l -> In x (moves b)) by (intros x Hx; apply Hsub; right; exact Hx).
    destruct (Js.gtb score bestScore).
    + destruct (IHl mv score Hsub') as (m & s & Hf & Hin).
      exists m, s. split; [exact Hf |]. right. destruct Hin as [-> | Hin]; [left | right]; auto.
    + destruct (IHl bestMove bestScore Hsub') as (m & s & Hf & Hin).
      exists m, s. split; [exact Hf |]. destruct Hin as [-> | Hin]; [left | right; right]; auto.
Qed.

Lemma calculateBestMove_ok fen0 depth (b : Board) :
  load fen0 = Some b -> moves b <> [] ->
  exists m, In m (moves b) /\ calculateBestMove fen0 depth = Ok (best_of m).
Proof.
  intros Hl Hne. unfold calculateBestMove. rewrite Hl. cbn [of_option res_bind].
  destruct (moves b) as [| first rest] eqn:Hm; [congruence |].
  destruct (best_fold_ok b (Z.to_nat depth)
              (firstn (Nat.min (length (first :: rest)) 10) (first :: rest)) first Js.NegInf)
    as (m & s & Hf & Hin).
  { intros mv Hmv. rewrite Hm. eapply firstn_listed. exact Hmv. }
  rewrite Hf. cbn [res_bind]. exists m. split; [| reflexivity].
  destruct Hin as [-> | Hin]; [left; reflexivity | eapply firstn_listed; exact Hin].
Qed.

Lemma pv_loop_ok n : forall (b : Board) pv g, rng_ok g ->
  exists pv' g', pv_loop n b pv g = (Ok pv', g').
Proof.
  induction n as [| n IH]; intros b pv g Hok; cbn [pv_loop].
  - eexists. eexists. reflexivity.
  - destruct (moves b) as [| m0 ms] eqn:Hm; [eexists; eexists; reflexivity |].
    unfold bind at 1, random.
    destruct (nth_Z_listed (m0 :: ms)
                (Js.floor (g 0%nat * inject_Z (Z.of_nat (Nat.min 3 (length (m0 :: ms)))))))
      as (nextMove & Hnth & Hin).
    { pose proof (floor_index (g 0%nat) (Z.of_nat (Nat.min 3 (length (m0 :: ms))))
                    (proj1 (Hok 0%nat)) (proj2 (Hok 0%nat))) as Hi.
      cbn [length] in *. lia. }
    rewrite Hnth. rewrite <- Hm in Hin.
    destruct (library_accepts b nextMove Hin) as (m1 & b1 & Hmv).
    unfold bind at 1, pure_res. rewrite Hmv. cbn [of_option].
    apply IH. intros k. apply Hok.
Qed.

Lemma analysis_settles_when_swap_loads fen0 (b b' : Board) :
  load fen0 = Some b -> load (swapped_fen (fen b)) = Some b' -> moves b <> [] ->
  analysis_settles fen0.
Proof.
  intros Hl Hswap Hne depth g Hok. unfold analyzePosition, isReady. cbn [negb].
  rewrite (run_bind _ _ g (g 0%nat) (fun n => g (S n))) by reflexivity.
  set (g0 := fun n => g (S n)).
  assert (Hok0 : rng_ok g0) by (intros k; apply Hok).
  destruct (fst_ok (calculateStockfishEvaluation fen0 depth) g0
              (verdict b' (score b ((Z.of_nat (length (moves b)) -
                                     Z.of_nat (length (moves b'))) * 2) depth (g0 0%nat))))
    as (g1 & Hev).
  { apply calculateStockfishEvaluation_at; [exact Hl |].
    unfold evaluateMobility. rewrite Hswap. reflexivity. }
  assert (Hok1 : rng_ok g1).
  { eapply later_ok; [exact Hok0 |].
    pose proof (advances_evaluation fen0 depth g0) as Ha. rewrite Hev in Ha. exact Ha. }
  destruct (calculateBestMove_ok fen0 depth b Hl Hne) as (m & Hin & Hbest).
  destruct (library_accepts b m Hin) as (m1 & b1 & Hmv).
  destruct (pv_loop_ok (3 - 1) b1 [bm_san (best_of m)] g1 Hok1) as (pv & g2 & Hpv).
  unfold in_timer.
  rewrite (run_bind _ _ g0 _ g1 Hev).
  rewrite (run_bind _ _ g1 _ g1) by (unfold pure_res; rewrite Hbest; reflexivity).
  assert (Hvar : calculatePrincipalVariation fen0 (best_of m) 3 g1 = (Ok pv, g2)).
  { unfold calculatePrincipalVariation.
    rewrite (run_bind _ _ g1 b g1) by (unfold pure_res; rewrite Hl; reflexivity).
    rewrite (run_bind _ _ g1 (m1, b1) g1)
      by (unfold pure_res; change (req_of_best (best_of m)) with (req_of_move m);
          rewrite Hmv; reflexivity).
    exact Hpv. }
  rewrite (run_bind _ _ g1 _ g2 Hvar).
  unfold bind, random, ret. eexists. eexists. reflexivity.
Qed.

End Settles.

End BotAnswers.

(** On every position with a legal move whose side-swapped string the
    library loads, and with a library that accepts the moves it lists, the
    bot returns a legal move at every tier and for every run of the
    generator. *)
Lemma getStockfishMove_answers `{R : Rules} `{!Lawful R}
    (fen0 : string) (difficulty : Difficulty) (g : Rng) (b b' : Board) :
  (forall b0 : Board, accepts b0) ->
  load fen0 = Some b -> load (swapped_fen (fen b)) = Some b' -> moves b <> [] -> rng_ok g ->
  exists bm g' m,
    Enhanced.getStockfishMove fen0 difficulty g = (Ok (Some bm), g') /\
    In m (moves b) /\ same_move bm m.
Proof.
  intros Hacc Hl Hswap Hne Hok.
  apply (proj2 (getStockfishMove_listed fen0 difficulty g b Hl) Hne Hok (Hacc b)).
  apply (analysis_settles_when_swap_loads Hacc fen0 b b' Hl Hswap Hne).
Qed.

Lemma matches_self (m : Move) : Book.matches (req_of_move m) m = true.
Proof.
  unfold Book.matches, req_of_move. cbn [q_from q_to q_promotion].
  rewrite !String.eqb_refl. destruct (m_promotion m); [apply String.eqb_refl | reflexivity].
Qed.

Lemma closed_table_accepts (table : list Book.Entry) (b0 : Book.State) :
  Book.closed table = true -> accepts (R := Book.rules table) b0.
Proof.
  intros Hc m Hin. cbn in Hin |- *. unfold Book.bk_moves in Hin. unfold Book.bk_move.
  unfold Book.bk_entries in *.
  destruct (Book.lookup table (Book.bk_fen b0)) as [e |] eqn:He; [| destruct Hin].
  apply in_map_iff in Hin as ([m0 s0] & <- & Hin0). cbn [fst].
  destruct (find (fun ms => Book.matches (req_of_move m0) (fst ms)) (Book.e_moves e))
    as [[m1 s1] |] eqn:Hf.
  - apply find_some in Hf as [Hin1 _].
    unfold Book.lookup in He. apply find_some in He as [Hine _].
    unfold Book.closed in Hc. rewrite forallb_forall in Hc. specialize (Hc e Hine).
    rewrite forallb_forall in Hc. specialize (Hc _ Hin1). cbn [snd] in Hc.
    destruct (Book.lookup table s1); [eexists; eexists; reflexivity | discriminate].
  - exfalso. apply (find_none _ _ Hf) in Hin0. cbn [fst] in Hin0.
    rewrite matches_self in Hin0. discriminate.
Qed.

(** On the locked ending with Black to move, whose only move is b4, the bot
    answers b4 at every tier and for every run of the generator. *)
Lemma getStockfishMove_answers_example (difficulty : Difficulty) (g : Rng) :
  rng_ok g ->
  exists bm g',
    Enhanced.getStockfishMove (R := Book.rules Book.locked_table) Book.locked1 difficulty g
      = (Ok (Some bm), g') /\
    bot_san bm = "b4".
Proof.
  intros Hok.
  destruct (getStockfishMove_answers (R := Book.rules Book.locked_table)
              (Lawful0 := book_lawful Book.locked_table) Book.locked1 difficulty g
              {| Book.bk_fen := Book.locked1; Book.bk_history := [] |}
              {| Book.bk_fen := Book.locked1w; Book.bk_history := [] |})
    as (bm & g' & m & Hrun & Hin & _ & _ & Hsan & _).
  - intros b0. apply closed_table_accepts. vm_compute. reflexivity.
  - reflexivity.
  - vm_compute. reflexivity.
  - vm_compute. discriminate.
  - exact Hok.
  - exists bm, g'. split; [exact Hrun |]. rewrite Hsan.
    vm_compute in Hin. destruct Hin as [<- | []]. reflexivity.
Qed.

(** C2.  With Black to move after a double pawn push that can be taken en
    passant, the position has legal moves (five in the ending [Book.pushed])
    and the bot does not return one: at the tiers intermediate, advanced and
    stockfish for every run of the generator, and at the beginner tier
    whenever its first draw is below 0.3.  The engine's analysis is run
    first, [evaluateMobility] hands the library the same string with [w] for
    [b], which the library refuses for its en-passant square, and the
    exception is raised inside the timer callback: the promise awaited by
    [getStockfishMove] never settles. *)
Theorem bot_never_answers_black_with_en_passant :
  let b := {| Book.bk_fen := Book.pushed; Book.bk_history := [] |} in
  load (Rules := Book.rules Book.en_passant_table) Book.pushed = Some b /\
  turn (Rules := Book.rules Book.en_passant_table) b = Black /\
  isGameOver (Rules := Book.rules Book.en_passant_table) b = false /\
  map m_san (moves (Rules := Book.rules Book.en_passant_table) b) =
    ["Kh7"; "Kg7"; "Kg8"; "d3"; "dxe3"] /\
  swapped_fen (fen (Rules := Book.rules Book.en_passant_table) b) =
    "7k/8/8/8/3pP3/8/8/7K w - e3 0 1" /\
  load (Rules := Book.rules Book.en_passant_table)
    "7k/8/8/8/3pP3/8/8/7K w - e3 0 1" = None /\
  forall g : Rng,
    (forall tier, tier <> Beginner ->
       exists e g', Enhanced.getStockfishMove (R := Book.rules Book.en_passant_table)
                      Book.pushed tier g = (Fatal e, g')) /\
    (Qltb (g 0%nat) (3 # 10) = true ->
       exists e g', Enhanced.getStockfishMove (R := Book.rules Book.en_passant_table)
                      Book.pushed Beginner g = (Fatal e, g')).
Proof.
  intros b.
  split; [reflexivity |]. split; [vm_compute; reflexivity |].
  split; [vm_compute; reflexivity |]. split; [vm_compute; reflexivity |].
  split; [vm_compute; reflexivity |]. split; [vm_compute; reflexivity |].
  intros g.
  apply (swap_refused_bot (R := Book.rules Book.en_passant_table) Book.pushed g b).
  - reflexivity.
  - vm_compute. discriminate.
  - vm_compute. reflexivity.
Qed.

(** ** Game sessions (the handlers) *)

Lemma keeps_ret P {A} (a : A) : keeps P (ret a).
Proof. intros w H. exact H. Qed.

Lemma keeps_pure P {A} (r : res A) : keeps P (pure_res r).
Proof. intros w H. exact H. Qed.

Lemma keeps_now P : keeps P now.
Proof. intros w H. exact H. Qed.

Lemma keeps_read P {A} (f : DataStore -> A) : keeps P (read_data f).
Proof. intros w H. exact H. Qed.

Lemma keeps_liftRng P {A} (m : M Rng A) : keeps P (liftRng m).
Proof. intros w H. unfold liftRng. destruct (m (w_rng w)). exact H. Qed.

Lemma keeps_write (P : DataStore -> Prop) f :
  (forall d, P d -> P (f d)) -> keeps P (write_data f).
Proof. intros Hf w H. apply Hf. exact H. Qed.

Lemma keeps_bind P {A B} (m : M World A) (k : A -> M World B) :
  keeps P m -> (forall a, keeps P (k a)) -> keeps P (bind m k).
Proof.
  intros Hm Hk w H. unfold bind. specialize (Hm w H).
  destruct (m w) as [[a | e | e] w1]; simpl in *; try exact Hm.
  apply Hk. exact Hm.
Qed.

Lemma keeps_bind_read (P : DataStore -> Prop) {A B} (f : DataStore -> A) (k : A -> M World B) :
  (forall w, P (w_data w) -> P (w_data (snd (k (f (w_data w)) w)))) ->
  keeps P (bind (read_data f) k).
Proof. intros H w Hw. unfold bind, read_data. apply H. exact Hw. Qed.

Lemma keeps_try_catch P {A} (m : M World A) h :
  keeps P m -> (forall e, keeps P (h e)) -> keeps P (try_catch m h).
Proof.
  intros Hm Hh w H. unfold try_catch. specialize (Hm w H).
  destruct (m w) as [[a | e | e] w1]; simpl in *; try exact Hm.
  apply Hh. exact Hm.
Qed.

Lemma inv_insert d0 gameId d g' :
  g_id g' = gameId -> inv d0 gameId d ->
  inv d0 gameId {| games := <[gameId := g']> (games d); stats := stats d |}.
Proof.
  intros Hid [H | (g1 & _ & H)]; right; exists g'; (split; [exact Hid |]); simpl; rewrite H.
  - reflexivity.
  - apply insert_insert_eq.
Qed.

Lemma keeps_assign d0 gameId game :
  g_id game = gameId -> keeps (inv d0 gameId) (assign gameId game).
Proof. intros Hid. apply keeps_write. intros d H. apply inv_insert; assumption. Qed.

Lemma keeps_saveGame d0 gameId game :
  g_id game = gameId -> keeps (inv d0 gameId) (write_data (DataService.saveGame game)).
Proof.
  intros Hid. apply keeps_write. intros d H. unfold DataService.saveGame. rewrite Hid.
  destruct (inv_insert d0 gameId d game Hid H) as [H1 | (g1 & Hg1 & H1)]; simpl in *.
  - left. exact H1.
  - right. exists g1. split; assumption.
Qed.

Section Sessions.

Context `{R : Rules}.

Lemma keeps_bot_reply d0 gameId game moveResult :
  g_id game = gameId -> keeps (inv d0 gameId) (Game.bot_reply gameId game moveResult).
Proof.
  intros Hid. unfold Game.bot_reply.
  apply keeps_bind; [apply keeps_liftRng | intros [botMove |]].
  - apply keeps_bind; [apply keeps_now | intros timestamp].
    apply keeps_bind; [apply keeps_assign; exact Hid | intros _].
    apply keeps_bind; [apply keeps_pure | intros gameStatus].
    destruct (negb (String.eqb gameStatus "active")).
    + apply keeps_bind; [apply keeps_now | intros endTime].
      apply keeps_bind; [apply keeps_assign; exact Hid | intros _].
      apply keeps_bind; [apply keeps_saveGame; exact Hid | intros _]. apply keeps_ret.
    + apply keeps_bind; [apply keeps_saveGame; exact Hid | intros _]. apply keeps_ret.
  - apply keeps_bind; [apply keeps_saveGame; exact Hid | intros _]. apply keeps_ret.
Qed.

Lemma keeps_player_move d0 gameId game moveResult :
  g_id game = gameId -> keeps (inv d0 gameId) (Game.player_move gameId game moveResult).
Proof.
  intros Hid. unfold Game.player_move.
  apply keeps_bind; [apply keeps_now | intros timestamp].
  apply keeps_bind; [apply keeps_assign; exact Hid | intros _].
  destruct (mr_isGameOver moveResult).
  - apply keeps_bind; [apply keeps_now | intros endTime].
    apply keeps_bind; [apply keeps_assign; exact Hid | intros _].
    apply keeps_bind; [apply keeps_pure | intros result].
    apply keeps_bind; [apply keeps_assign; exact Hid | intros _].
    apply keeps_bind; [apply keeps_saveGame; exact Hid | intros _]. apply keeps_ret.
  - apply keeps_bot_reply. exact Hid.
Qed.

(** A handler leaves the store as it was, or replaces one session that
    was active by a game of the same identifier. *)
Lemma makeMove_store req w :
  store_wf (w_data w) ->
  games (w_data (snd (Game.makeMove req w))) = games (w_data w) \/
  exists gameId g g',
    session w gameId = Some g /\ g_status g = Active /\ g_id g' = gameId /\
    games (w_data (snd (Game.makeMove req w))) = <[gameId := g']> (games (w_data w)).
Proof.
  intros Hwf. unfold Game.makeMove.
  destruct (req_gameId req) as [gameId |]; [| left; reflexivity].
  destruct (req_move req) as [mv |]; [| left; reflexivity].
  destruct (String.eqb gameId ""); [left; reflexivity |].
  destruct (games (w_data w) !! gameId) as [game |] eqn:Hg.
  2:{ left. unfold try_catch, bind, read_data, DataService.getGame. rewrite Hg. reflexivity. }
  destruct (decide (g_status game = Active)) as [Hact | Hna].
  2:{ left. unfold try_catch, bind, read_data, DataService.getGame. rewrite Hg.
      rewrite bool_decide_eq_true_2 by exact Hna. reflexivity. }
  assert (Hkeep : keeps (inv (w_data w) gameId)
            (try_catch
               (let* found := read_data (DataService.getGame gameId) in
                match found with
                | None => ret (failure 404 "Game not found")
                | Some game =>
                    if bool_decide (g_status game <> Active) then ret (failure 400 "Game is not active")
                    else if negb (Enhanced.isLegalMove (cp_fen (g_currentPosition game)) mv)
                         then ret (failure 400 "Illegal move")
                         else
                           let* moveResult :=
                             pure_res (Enhanced.makeMove (cp_fen (g_currentPosition game)) mv) in
                           match moveResult with
                           | None => ret (failure 400 "Failed to make move")
                           | Some moveResult => Game.player_move gameId game moveResult
                           end
                end)
               (fun _ => ret (failure 500 "Failed to make move")))).
  { apply keeps_try_catch; [| intros e; apply keeps_ret].
    apply keeps_bind_read. intros w0 H0.
    destruct (DataService.getGame gameId (w_data w0)) as [game0 |] eqn:Hg0; [| exact H0].
    destruct (bool_decide (g_status game0 <> Active)); [exact H0 |].
    destruct (negb _); [exact H0 |].
    assert (Hid0 : g_id game0 = gameId).
    { unfold DataService.getGame in Hg0.
      destruct H0 as [H0 | (g1 & Hg1 & H0)]; rewrite H0 in Hg0.
      - apply (Hwf _ _ Hg0).
      - rewrite lookup_insert_eq in Hg0. injection Hg0 as <-. exact Hg1. }
    revert w0 H0 Hg0. intros w0 H0 _. revert w0 H0.
    apply keeps_bind; [apply keeps_pure | intros [moveResult |]].
    - apply keeps_player_move. exact Hid0.
    - apply keeps_ret. }
  destruct (Hkeep w (or_introl eq_refl)) as [H | (g' & Hid & H)].
  - left. exact H.
  - right. exists gameId, game, g'. repeat split; assumption.
Qed.

Lemma resignGame_store gameId w :
  store_wf (w_data w) ->
  games (w_data (snd (Game.resignGame gameId w))) = games (w_data w) \/
  exists g g',
    session w gameId = Some g /\ g_status g = Active /\ g_id g' = gameId /\
    games (w_data (snd (Game.resignGame gameId w))) = <[gameId := g']> (games (w_data w)).
Proof.
  intros Hwf. unfold Game.resignGame.
  destruct (games (w_data w) !! gameId) as [game |] eqn:Hg.
  2:{ left. unfold try_catch, bind, read_data, DataService.getGame. rewrite Hg. reflexivity. }
  destruct (decide (g_status game = Active)) as [Hact | Hna].
  2:{ left. unfold try_catch, bind, read_data, DataService.getGame. rewrite Hg.
      rewrite bool_decide_eq_true_2 by exact Hna. reflexivity. }
  assert (Hkeep : keeps (inv (w_data w) gameId) (Game.resignGame gameId)).
  { unfold Game.resignGame.
    apply keeps_try_catch; [| intros e; apply keeps_ret].
    apply keeps_bind_read. intros w0 H0.
    destruct (DataService.getGame gameId (w_data w0)) as [game0 |] eqn:Hg0; [| exact H0].
    destruct (bool_decide (g_status game0 <> Active)); [exact H0 |].
    assert (Hid0 : g_id game0 = gameId).
    { unfold DataService.getGame in Hg0.
      destruct H0 as [H0 | (g1 & Hg1 & H0)]; rewrite H0 in Hg0.
      - apply (Hwf _ _ Hg0).
      - rewrite lookup_insert_eq in Hg0. injection Hg0 as <-. exact Hg1. }
    revert w0 H0 Hg0. intros w0 H0 _. revert w0 H0.
    apply keeps_bind; [apply keeps_now | intros endTime].
    apply keeps_bind; [apply keeps_assign; exact Hid0 | intros _].
    apply keeps_bind; [apply keeps_saveGame; exact Hid0 | intros _]. apply keeps_ret. }
  destruct (Hkeep w (or_introl eq_refl)) as [H | (g' & Hid & H)].
  - left. exact H.
  - right. exists game, g'. repeat split; assumption.
Qed.

Lemma exec_store op w :
  store_wf (w_data w) ->
  games (w_data (exec op w)) = games (w_data w) \/
  exists gameId g g',
    session w gameId = Some g /\ g_status g = Active /\ g_id g' = gameId /\
    games (w_data (exec op w)) = <[gameId := g']> (games (w_data w)).
Proof.
  intros Hwf. destruct op as [req | gameId]; cbn [exec].
  - apply makeMove_store. exact Hwf.
  - destruct (resignGame_store gameId w Hwf) as [H | (g & g' & H)].
    + left. exact H.
    + right. exists gameId, g, g'. exact H.
Qed.

Lemma exec_wf op w : store_wf (w_data w) -> store_wf (w_data (exec op w)).
Proof.
  intros Hwf. destruct (exec_store op w Hwf) as [H | (gid & g & g' & _ & _ & Hid & H)];
    intros k x Hk; rewrite H in Hk.
  - apply (Hwf _ _ Hk).
  - destruct (decide (gid = k)) as [-> | Hne].
    + rewrite lookup_insert_eq in Hk. injection Hk as <-. exact Hid.
    + rewrite lookup_insert_ne in Hk by exact Hne. apply (Hwf _ _ Hk).
Qed.

Lemma exec_step op w gameId g :
  store_wf (w_data w) -> session w gameId = Some g ->
  exists g', session (exec op w) gameId = Some g' /\
             (g_status g <> Active -> g' = g) /\
             (g_status g' = g_status g \/ (g_status g = Active /\ g_status g' <> Active)).
Proof.
  intros Hwf Hs. unfold session in *.
  destruct (exec_store op w Hwf) as [H | (gid & g0 & g' & Hs0 & Hact & Hid & H)]; rewrite H.
  - exists g. split; [exact Hs |]. split; [reflexivity | left; reflexivity].
  - destruct (decide (gid = gameId)) as [-> | Hne].
    + unfold session in Hs0. rewrite Hs in Hs0. injection Hs0 as <-.
      rewrite lookup_insert_eq. exists g'. split; [reflexivity |].
      split; [intros Hna; contradiction |].
      destruct (decide (g_status g' = Active)) as [Ha | Hn].
      * left. rewrite Ha, Hact. reflexivity.
      * right. split; assumption.
    + rewrite lookup_insert_ne by exact Hne. exists g.
      split; [exact Hs |]. split; [reflexivity | left; reflexivity].
Qed.

Lemma exec_all_terminal ops : forall w gameId g,
  store_wf (w_data w) -> session w gameId = Some g -> g_status g <> Active ->
  session (exec_all ops w) gameId = Some g.
Proof.
  induction ops as [| op ops IH]; intros w gameId g Hwf Hs Hna; cbn [exec_all fold_left].
  - exact Hs.
  - destruct (exec_step op w gameId g Hwf Hs) as (g' & Hs' & Hsame & _).
    rewrite (Hsame Hna) in Hs'.
    apply (IH (exec op w) gameId g (exec_wf op w Hwf) Hs' Hna).
Qed.

End Sessions.

(** C4.  In a store where every game sits under its own identifier, an
    apply-move or resign operation leaves the status of a session as it was
    or takes it from active to one of checkmate, stalemate, draw and
    resignation; and a session whose status is not active is left untouched,
    status included, by every sequence of such operations. *)
Theorem status_only_leaves_active `{R : Rules} (w : World) (gameId : string) (g : ChessGame) :
  store_wf (w_data w) ->
  session w gameId = Some g ->
  (forall op, exists g',
      session (exec op w) gameId = Some g' /\
      (g_status g' = g_status g \/
       (g_status g = Active /\ In (g_status g') [Checkmate; Stalemate; Draw; Resignation]))) /\
  (g_status g <> Active ->
   forall ops, exists g',
      session (exec_all ops w) gameId = Some g' /\ g_status g' = g_status g).
Proof.
  intros Hwf Hs. split.
  - intros op. destruct (exec_step op w gameId g Hwf Hs) as (g' & Hs' & _ & Hst).
    exists g'. split; [exact Hs' |].
    destruct Hst as [He | [Ha Hn]]; [left; exact He | right].
    split; [exact Ha |]. destruct (g_status g'); simpl; tauto.
  - intros Hna ops. exists g. split; [| reflexivity].
    apply exec_all_terminal; assumption.
Qed.

(** [saveGame] files a game under its own identifier. *)
Lemma saveGame_wf (game : ChessGame) (d : DataStore) :
  store_wf d -> store_wf (DataService.saveGame game d).
Proof.
  intros Hwf k x Hk. cbn in Hk.
  destruct (decide (g_id game = k)) as [<- | Hne].
  - rewrite lookup_insert_eq in Hk. injection Hk as <-. reflexivity.
  - rewrite lookup_insert_ne in Hk by exact Hne. apply (Hwf _ _ Hk).
Qed.

Lemma single_game_wf (game : ChessGame) (g : Rng) : store_wf (w_data (world_with game g)).
Proof.
  intros k x Hk. cbn in Hk. apply lookup_singleton_Some in Hk as [<- <-]. reflexivity.
Qed.

Lemma status_only_leaves_active_witness :
  let game := game_at "game_1" Book.locked0 White Beginner in
  let w := world_with game (always (1 # 2)) in
  store_wf (w_data w) /\ session w "game_1" = Some game /\
  exists g',
    session (exec (R := Book.rules Book.locked_table) (Resign "game_1") w) "game_1" = Some g' /\
    (g_status g' = g_status game \/
     (g_status game = Active /\ In (g_status g') [Checkmate; Stalemate; Draw; Resignation])).
Proof.
  intros game w.
  assert (Hwf : store_wf (w_data w)) by apply single_game_wf.
  assert (Hs : session w "game_1" = Some game) by apply lookup_singleton_eq.
  split; [exact Hwf |]. split; [exact Hs |].
  exact (proj1 (status_only_leaves_active (R := Book.rules Book.locked_table) w "game_1" game Hwf Hs)
           (Resign "game_1")).
Defined.

(** C7.  A move the rules library rejects, submitted for an active session:
    the call answers [success: false] with the error "Illegal move" and
    changes nothing, so the session found afterwards is the session found
    before, with the same log, position and status. *)
Theorem illegal_move_changes_nothing `{R : Rules}
    (req : MakeMoveRequest) (w : World) (gameId : string) (mv : MoveReq) (g : ChessGame) :
  req_gameId req = Some gameId -> req_move req = Some mv -> gameId <> "" ->
  session w gameId = Some g -> g_status g = Active ->
  Enhanced.isLegalMove (cp_fen (g_currentPosition g)) mv = false ->
  Game.makeMove req w = (Ok (failure 400 "Illegal move"), w) /\
  r_success (failure 400 "Illegal move") = false /\
  session (snd (Game.makeMove req w)) gameId = Some g.
Proof.
  intros Hid Hmv Hne Hs Hact Hill.
  assert (Hrun : Game.makeMove req w = (Ok (failure 400 "Illegal move"), w)).
  { unfold Game.makeMove. rewrite Hid, Hmv.
    destruct (String.eqb_spec gameId "") as [He | _]; [contradiction |].
    unfold try_catch, bind, read_data, DataService.getGame.
    unfold session in Hs. rewrite Hs.
    rewrite bool_decide_eq_false_2 by (intros Hn; exact (Hn Hact)).
    rewrite Hill. reflexivity. }
  split; [exact Hrun |]. split; [reflexivity |]. rewrite Hrun. exact Hs.
Qed.

Lemma illegal_move_changes_nothing_witness :
  let game := game_at "game_1" Book.locked0 White Beginner in
  let w := world_with game (always (1 # 2)) in
  let mv := {| q_from := "a1"; q_to := "a2"; q_promotion := None |} in
  let req := {| req_gameId := Some "game_1"; req_move := Some mv |} in
  Enhanced.isLegalMove (R := Book.rules Book.locked_table) (cp_fen (g_currentPosition game)) mv = false /\
  Game.makeMove (R := Book.rules Book.locked_table) req w = (Ok (failure 400 "Illegal move"), w).
Proof.
  intros game w mv req.
  assert (Hill : Enhanced.isLegalMove (R := Book.rules Book.locked_table)
                   (cp_fen (g_currentPosition game)) mv = false) by (vm_compute; reflexivity).
  split; [exact Hill |].
  refine (proj1 (illegal_move_changes_nothing (R := Book.rules Book.locked_table)
                   req w "game_1" mv game _ _ _ _ _ Hill)).
  - reflexivity.
  - reflexivity.
  - discriminate.
  - apply lookup_singleton_eq.
  - reflexivity.
Defined.

(** ** What a successful move submission did *)

Lemma now_ok w t w1 :
  now w = (Ok t, w1) ->
  w_data w1 = w_data w /\ w_rng w1 = w_rng w.
Proof. unfold now. intros H. injection H as _ <-. split; reflexivity. Qed.

Lemma read_ok {A} (f : DataStore -> A) w a w1 :
  read_data f w = (Ok a, w1) -> a = f (w_data w) /\ w1 = w.
Proof. unfold read_data. intros H. injection H as <- <-. split; reflexivity. Qed.

Lemma write_ok f w u w1 :
  write_data f w = (Ok u, w1) -> w_data w1 = f (w_data w).
Proof. unfold write_data. intros H. injection H as _ <-. reflexivity. Qed.

Lemma assign_ok gameId game w u w1 :
  assign gameId game w = (Ok u, w1) -> games (w_data w1) !! gameId = Some game.
Proof. intros H. apply write_ok in H. rewrite H. cbn. apply lookup_insert_eq. Qed.

Lemma liftRng_ok {A} (m : M Rng A) w a w1 :
  liftRng m w = (Ok a, w1) ->
  exists g1, m (w_rng w) = (Ok a, g1) /\ w_data w1 = w_data w.
Proof.
  unfold liftRng. destruct (m (w_rng w)) as [r g1]. intros H. injection H as -> <-.
  exists g1. split; reflexivity.
Qed.

Lemma ret_ok {S A} (a : A) (s : S) b s1 : ret a s = (Ok b, s1) -> b = a /\ s1 = s.
Proof. unfold ret. intros H. injection H as <- <-. split; reflexivity. Qed.

(** Saving a game leaves it where the handler had put it. *)
Lemma saveGame_lookup game w u w1 gameId :
  games (w_data w) !! gameId = Some game ->
  write_data (DataService.saveGame game) w = (Ok u, w1) ->
  session w1 gameId = Some game.
Proof.
  intros Hg H. apply write_ok in H. unfold session. rewrite H. cbn.
  destruct (decide (g_id game = gameId)) as [-> | Hne].
  - apply lookup_insert_eq.
  - rewrite lookup_insert_ne by exact Hne. exact Hg.
Qed.

Section MoveSubmission.

Context `{R : Rules}.

Lemma engine_makeMove_ok fen0 mv mr :
  Enhanced.makeMove fen0 mv = Ok (Some mr) ->
  exists b m b1,
    load fen0 = Some b /\ move b mv = Some (m, b1) /\
    mr_fen mr = fen b1 /\ mr_isGameOver mr = isGameOver b1 /\
    mr_isCheckmate mr = isCheckmate b1 /\ mr_isStalemate mr = isStalemate b1.
Proof.
  unfold Enhanced.makeMove. intros H.
  apply res_bind_ok in H as (b & Hb & H). apply of_option_ok in Hb.
  apply res_bind_ok in H as ([m b1] & Hm & H). apply of_option_ok in Hm.
  injection H as <-. exists b, m, b1. repeat split; assumption.
Qed.

(** [null] comes back only for a position without legal moves. *)
Lemma getStockfishMove_null fen0 difficulty g g' :
  Enhanced.getStockfishMove fen0 difficulty g = (Ok None, g') ->
  exists b, load fen0 = Some b /\ moves b = [].
Proof.
  unfold Enhanced.getStockfishMove. intros H.
  apply bind_ok in H as (b & g0 & Hb & H).
  apply pure_res_ok in Hb as [Hb ->]. apply of_option_ok in Hb.
  exists b. split; [exact Hb |].
  destruct (moves b) as [| m0 ms]; [reflexivity |].
  apply bind_ok in H as (sel & g1 & _ & H).
  destruct sel as [selected |]; [| discriminate].
  apply bind_ok in H as ([mv b'] & g2 & _ & H).
  unfold ret in H. discriminate.
Qed.

(** The game-over branch of the player's move. *)
Lemma player_move_over gameId game mr w resp w' :
  mr_isGameOver mr = true ->
  Game.player_move gameId game mr w = (Ok resp, w') ->
  exists e g',
    resp = success g' None /\ session w' gameId = Some g' /\
    cm_isPlayerMove e = true /\ g_moves g' = (g_moves game ++ [e])%list /\
    cp_fen (g_currentPosition g') = mr_fen mr /\
    g_status g' = (if mr_isCheckmate mr then Checkmate
                   else if mr_isStalemate mr then Stalemate else Draw) /\
    is_Some (g_endTime g') /\ is_Some (g_result g').
Proof.
  intros Hover H. unfold Game.player_move in H. rewrite Hover in H.
  apply bind_ok in H as (t & w1 & _ & H).
  apply bind_ok in H as (u1 & w2 & _ & H).
  apply bind_ok in H as (t2 & w3 & _ & H).
  apply bind_ok in H as (u2 & w4 & _ & H).
  apply bind_ok in H as (result & w5 & Hr & H).
  apply pure_res_ok in Hr as [_ ->].
  apply bind_ok in H as (u3 & w6 & Ha & H).
  apply bind_ok in H as (u4 & w7 & Hsave & H).
  apply ret_ok in H as [-> ->].
  eexists. eexists. split; [reflexivity |].
  split; [eapply saveGame_lookup; [eapply assign_ok; exact Ha | exact Hsave] |].
  cbn. repeat split; eauto.
Qed.

(** The branch in which the game goes on and the bot has a move. *)
Lemma bot_reply_ok gameId game mr w resp w' :
  Game.bot_reply gameId game mr w = (Ok resp, w') ->
  exists bot g1,
    Enhanced.getStockfishMove (mr_fen mr) (gs_difficulty (g_settings game)) (w_rng w) = (Ok bot, g1) /\
    match bot with
    | None => resp = success game None
    | Some bm =>
        exists eb g' status,
          resp = success g' (Some eb) /\ session w' gameId = Some g' /\
          cm_isPlayerMove eb = false /\ g_moves g' = (g_moves game ++ [eb])%list /\
          cp_fen (g_currentPosition g') = bot_fen bm /\
          Enhanced.getGameStatus (bot_fen bm) = Ok status /\
          g_status g' = (if negb (String.eqb status "active")
                         then (if Js.includes "1/2" status then Draw else Checkmate)
                         else g_status game)
    end.
Proof.
  unfold Game.bot_reply. intros H.
  apply bind_ok in H as (bot & w1 & Hbot & H).
  apply liftRng_ok in Hbot as (g1 & Hbot & _).
  exists bot, g1. split; [exact Hbot |].
  destruct bot as [bm |].
  - apply bind_ok in H as (t & w2 & _ & H).
    apply bind_ok in H as (u1 & w3 & Ha1 & H).
    apply bind_ok in H as (status & w4 & Hst & H).
    apply pure_res_ok in Hst as [Hst ->].
    destruct (negb (String.eqb status "active")) eqn:Hact.
    + apply bind_ok in H as (t2 & w5 & _ & H).
      apply bind_ok in H as (u2 & w6 & Ha2 & H).
      apply bind_ok in H as (u3 & w7 & Hsave & H).
      apply ret_ok in H as [-> ->].
      eexists. eexists. exists status. split; [reflexivity |].
      split; [eapply saveGame_lookup; [eapply assign_ok; exact Ha2 | exact Hsave] |].
      cbn. rewrite Hact. repeat split; eauto.
    + apply bind_ok in H as (u3 & w7 & Hsave & H).
      apply ret_ok in H as [-> ->].
      eexists. eexists. exists status. split; [reflexivity |].
      split; [eapply saveGame_lookup; [eapply assign_ok; exact Ha1 | exact Hsave] |].
      cbn. rewrite Hact. repeat split; eauto.
  - apply bind_ok in H as (u & w2 & _ & H).
    apply ret_ok in H as [-> _]. reflexivity.
Qed.

End MoveSubmission.

Section LogEntries.

Context `{R : Rules}.

Lemma player_move_on gameId game mr w resp w' :
  mr_isGameOver mr = false ->
  Game.player_move gameId game mr w = (Ok resp, w') ->
  exists e game1 w2,
    cm_isPlayerMove e = true /\ g_moves game1 = (g_moves game ++ [e])%list /\
    g_status game1 = g_status game /\ g_settings game1 = g_settings game /\
    Game.bot_reply gameId game1 mr w2 = (Ok resp, w').
Proof.
  intros Hon H. unfold Game.player_move in H. rewrite Hon in H.
  apply bind_ok in H as (t & w1 & _ & H).
  apply bind_ok in H as (u1 & w2 & _ & H).
  exists {| cm_from := m_from (mr_move mr); cm_to := m_to (mr_move mr);
            cm_san := m_san (mr_move mr); cm_fen := mr_fen mr;
            cm_timestamp := t; cm_isPlayerMove := true |}.
  eexists. exists w2. split; [| split; [| split; [| split; [| exact H]]]]; reflexivity.
Qed.

(** The handler got as far as the player's move. *)
Lemma makeMove_success req w resp w' gameId mv g :
  req_gameId req = Some gameId -> req_move req = Some mv ->
  session w gameId = Some g ->
  Game.makeMove req w = (Ok resp, w') -> r_success resp = true ->
  exists mr,
    Enhanced.makeMove (cp_fen (g_currentPosition g)) mv = Ok (Some mr) /\
    Game.player_move gameId g mr w = (Ok resp, w').
Proof.
  intros Hid Hmv Hs H Hsucc. unfold Game.makeMove in H. rewrite Hid, Hmv in H.
  apply try_catch_ok in H as [H | (e & w1 & _ & H)].
  2:{ apply ret_ok in H as [-> _]. discriminate. }
  destruct (String.eqb gameId "").
  { apply ret_ok in H as [-> _]. discriminate. }
  apply bind_ok in H as (found & w1 & Hf & H).
  apply read_ok in Hf as [-> ->].
  unfold DataService.getGame in H. unfold session in Hs. rewrite Hs in H.
  destruct (bool_decide (g_status g <> Active)).
  { apply ret_ok in H as [-> _]. discriminate. }
  destruct (negb _).
  { apply ret_ok in H as [-> _]. discriminate. }
  apply bind_ok in H as (mro & w1 & Hm & H).
  apply pure_res_ok in Hm as [Hm ->].
  destruct mro as [mr |].
  - exists mr. split; assumption.
  - apply ret_ok in H as [-> _]. discriminate.
Qed.

End LogEntries.

(** C10.  A move submission that succeeds on a session found under
    [gameId]: the rules library played the player's move; when it reports
    the game over after that move, the response carries no bot move and the
    session's log has grown by the player's entry alone; otherwise the
    response carries a bot move and the log has grown by the player's entry
    followed by the bot's entry. *)
Theorem makeMove_log_entries `{R : Rules} `{!Lawful R}
    (req : MakeMoveRequest) (w w' : World) (resp : Response)
    (gameId : string) (mv : MoveReq) (g : ChessGame) :
  req_gameId req = Some gameId -> req_move req = Some mv ->
  session w gameId = Some g -> g_status g = Active ->
  Game.makeMove req w = (Ok resp, w') -> r_success resp = true ->
  exists mr g' e,
    Enhanced.makeMove (cp_fen (g_currentPosition g)) mv = Ok (Some mr) /\
    r_game resp = Some g' /\ session w' gameId = Some g' /\
    cm_isPlayerMove e = true /\
    if mr_isGameOver mr
    then r_botMove resp = None /\ g_moves g' = (g_moves g ++ [e])%list
    else exists eb, r_botMove resp = Some eb /\ cm_isPlayerMove eb = false /\
                    g_moves g' = (g_moves g ++ [e; eb])%list.
Proof.
  intros Hid Hmv Hs Hact H Hsucc.
  destruct (makeMove_success req w resp w' gameId mv g Hid Hmv Hs H Hsucc) as (mr & Hmr & Hp).
  exists mr. destruct (mr_isGameOver mr) eqn:Hover.
  - destruct (player_move_over gameId g mr w resp w' Hover Hp)
      as (e & g' & -> & Hs' & He & Hlog & _).
    exists g', e. repeat split; assumption.
  - destruct (player_move_on gameId g mr w resp w' Hover Hp)
      as (e & game1 & w2 & He & Hlog1 & _ & _ & Hb).
    destruct (bot_reply_ok gameId game1 mr w2 resp w' Hb) as (bot & g1 & Hbot & Hcase).
    destruct bot as [bm |].
    + destruct Hcase as (eb & g' & status & -> & Hs' & Heb & Hlog & _).
      exists g', e. split; [exact Hmr |]. split; [reflexivity |]. split; [exact Hs' |].
      split; [exact He |]. exists eb. split; [reflexivity |]. split; [exact Heb |].
      rewrite Hlog, Hlog1, <- app_assoc. reflexivity.
    + exfalso.
      destruct (engine_makeMove_ok _ _ _ Hmr) as (b & m & b1 & _ & _ & Hfen & Hov & _).
      destruct (getStockfishMove_null _ _ _ _ Hbot) as (b' & Hl & Hnil).
      rewrite Hfen in Hl. rewrite (reload_moves b1 b' Hl) in Hnil.
      apply stuck_is_over in Hnil. congruence.
Qed.

Lemma makeMove_log_entries_witness :
  let game := game_at "game_1" Book.locked0 White Beginner in
  let w := world_with game (always (1 # 2)) in
  let mv := {| q_from := "g4"; q_to := "g5"; q_promotion := None |} in
  let req := {| req_gameId := Some "game_1"; req_move := Some mv |} in
  let run := Game.makeMove (R := Book.rules Book.locked_table) req w in
  exists resp mr g' e,
    fst run = Ok resp /\ r_success resp = true /\
    Enhanced.makeMove (R := Book.rules Book.locked_table) (cp_fen (g_currentPosition game)) mv
      = Ok (Some mr) /\
    r_game resp = Some g' /\ session (snd run) "game_1" = Some g' /\
    cm_isPlayerMove e = true /\
    if mr_isGameOver mr
    then r_botMove resp = None /\ g_moves g' = (g_moves game ++ [e])%list
    else exists eb, r_botMove resp = Some eb /\ cm_isPlayerMove eb = false /\
                    g_moves g' = (g_moves game ++ [e; eb])%list.
Proof.
  intros game w mv req run.
  destruct run as [r w'] eqn:Hrun.
  assert (Hr : exists resp, r = Ok resp /\ r_success resp = true).
  { assert (Hf : fst (Game.makeMove (R := Book.rules Book.locked_table) req w) = r)
      by (unfold run in Hrun; rewrite Hrun; reflexivity).
    vm_compute in Hf. rewrite <- Hf. eexists. split; reflexivity. }
  destruct Hr as (resp & -> & Hsucc).
  exists resp.
  destruct (makeMove_log_entries (R := Book.rules Book.locked_table)
              (Lawful0 := book_lawful Book.locked_table)
              req w w' resp "game_1" mv game eq_refl eq_refl
              (lookup_singleton_eq _ _) eq_refl Hrun Hsucc) as (mr & g' & e & H).
  exists mr, g', e. split; [reflexivity |]. split; [exact Hsucc |]. exact H.
Defined.

(** C5.  The session holds [Book.locked0], the player has White and plays
    g5; the bot answers b4, which stalemates White.  The rules library
    reports the position as a stalemate and not a checkmate, the end time and
    the result are stamped, and the status stored is draw, where the player's
    own stalemating move would have been stored as stalemate. *)
Theorem bot_stalemate_stored_as_draw :
  let game := game_at "game_1" Book.locked0 White Beginner in
  let w := world_with game (always (1 # 2)) in
  let req := {| req_gameId := Some "game_1";
                req_move := Some {| q_from := "g4"; q_to := "g5"; q_promotion := None |} |} in
  let run := Game.makeMove (R := Book.rules Book.locked_table) req w in
  exists resp g' eb b,
    fst run = Ok resp /\ r_success resp = true /\
    r_game resp = Some g' /\ session (snd run) "game_1" = Some g' /\
    r_botMove resp = Some eb /\ cm_san eb = "b4" /\
    load (Rules := Book.rules Book.locked_table) (cp_fen (g_currentPosition g')) = Some b /\
    isGameOver b = true /\ isStalemate b = true /\ isCheckmate b = false /\
    g_status g' = Draw /\
    g_endTime g' = Some "2024-01-01T00:00:00.000Z" /\ g_result g' = Some "1/2-1/2".
Proof.
  intros game w req run.
  eexists. eexists. eexists. eexists.
  split; [vm_compute; reflexivity |].
  split; [reflexivity |].
  split; [reflexivity |].
  split; [vm_compute; reflexivity |].
  split; [reflexivity |].
  split; [reflexivity |].
  split; [vm_compute; reflexivity |].
  split; [vm_compute; reflexivity |].
  split; [vm_compute; reflexivity |].
  split; [vm_compute; reflexivity |].
  split; [reflexivity |].
  split; reflexivity.
Qed.

(** The bot's branch never stores stalemate, whatever the position. *)
Lemma bot_reply_never_stalemate `{R : Rules} gameId game mr w resp w' g' :
  g_status game = Active ->
  Game.bot_reply gameId game mr w = (Ok resp, w') ->
  r_game resp = Some g' -> g_status g' <> Stalemate.
Proof.
  intros Hact H Hg.
  destruct (bot_reply_ok gameId game mr w resp w' H) as (bot & g1 & _ & Hcase).
  destruct bot as [bm |].
  - destruct Hcase as (eb & g2 & status & -> & _ & _ & _ & _ & _ & Hst).
    injection Hg as <-. rewrite Hst, Hact.
    destruct (negb _); [destruct (Js.includes _ _) |]; discriminate.
  - subst resp. injection Hg as <-. rewrite Hact. discriminate.
Qed.

(** * Further properties *)

(** ** Statistics kept by [saveGame] *)

Lemma update_stats_counts game s :
  totalGames (DataService.update_stats game s) =
    totalGames s + (if finished game then 1 else 0) /\
  (tally s -> tally (DataService.update_stats game s)).
Proof.
  unfold DataService.update_stats, finished, tally.
  destruct (bool_decide (g_status game <> Active)).
  - repeat match goal with |- context [if ?c then _ else _] => destruct c end;
      simpl; split; lia.
  - split; [lia | trivial].
Qed.

(** X1.  Over any sequence of saved games, [totalGames] grows by the number
    of saves of a game that is not active (a finished game saved twice is
    counted twice), and it stays the sum of the games won, lost and drawn
    when it was so before. *)
Theorem saveGames_counts (gs : list ChessGame) (d : DataStore) :
  tally (stats d) ->
  totalGames (stats (saveGames gs d)) =
    totalGames (stats d) + Z.of_nat (length (List.filter finished gs)) /\
  tally (stats (saveGames gs d)).
Proof.
  revert d. induction gs as [| g gs IH]; intros d Ht.
  - simpl. split; [lia | exact Ht].
  - cbn [saveGames fold_left]. fold (saveGames gs (DataService.saveGame g d)).
    destruct (update_stats_counts g (stats d)) as [Hc Hk].
    destruct (IH (DataService.saveGame g d) (Hk Ht)) as [IH1 IH2].
    split; [| exact IH2].
    rewrite IH1. cbn [DataService.saveGame stats]. rewrite Hc.
    cbn [List.filter]. destruct (finished g); cbn [length]; lia.
Qed.

Lemma saveGames_counts_witness :
  let won := with_result "1-0" (with_status Checkmate "2024-01-01T00:10:00.000Z"
               (game_at "game_1" Book.locked0 White Beginner)) in
  let d := {| games := ∅; stats := DataService.initial_stats |} in
  tally (stats d) /\
  totalGames (stats (saveGames [won; game_at "game_2" Book.locked0 White Beginner; won] d)) = 2.
Proof.
  intros won d.
  assert (Ht : tally (stats d)) by reflexivity.
  split; [exact Ht |].
  exact (proj1 (saveGames_counts [won; game_at "game_2" Book.locked0 White Beginner; won] d Ht)).
Defined.

(** X2.  For a game that is not active and whose stored result is one of
    1-0, 0-1 and 1/2-1/2, the rating after [saveGame] is the rating before
    plus [calculateRatingChange], clamped.  With any other stored result, or
    none, [calculateRatingChange] reports 0 while [saveGame] has taken 15
    points. *)
Theorem ratingChange_matches_saveGame (game : ChessGame) (d : DataStore) :
  g_status game <> Active ->
  (In (g_result game) [Some "1-0"; Some "0-1"; Some "1/2-1/2"] ->
   rating (DataService.saveGame game d) = clamp (rating d + Store.calculateRatingChange game)) /\
  (~ In (g_result game) [Some "1-0"; Some "0-1"; Some "1/2-1/2"] ->
   Store.calculateRatingChange game = 0 /\
   rating (DataService.saveGame game d) = clamp (rating d - 15)).
Proof.
  intros Hst.
  assert (Hnew : rating (DataService.saveGame game d) =
                 currentRating (DataService.update_stats game (stats d))) by reflexivity.
  rewrite Hnew, (update_stats_finished game (stats d) Hst).
  unfold Store.calculateRatingChange, DataService.result_is, rating.
  rewrite bool_decide_eq_false_2 by exact Hst.
  split.
  - intros [H | [H | [H | []]]]; rewrite <- H; cbn [String.eqb];
      destruct (g_playerColor game); reflexivity.
  - intros Hn. destruct (g_result game) as [r |]; [| split; reflexivity].
    destruct (String.eqb_spec r "1-0") as [-> | _]; [exfalso; apply Hn; simpl; tauto |].
    destruct (String.eqb_spec r "0-1") as [-> | _]; [exfalso; apply Hn; simpl; tauto |].
    destruct (String.eqb_spec r "1/2-1/2") as [-> | _]; [exfalso; apply Hn; simpl; tauto |].
    split; reflexivity.
Qed.

Lemma ratingChange_matches_saveGame_witness :
  let lost := with_result "0-1" (with_status Resignation "2024-01-01T00:10:00.000Z"
                (game_at "game_1" Book.locked0 White Beginner)) in
  let d := {| games := ∅; stats := DataService.initial_stats |} in
  g_status lost <> Active /\
  rating (DataService.saveGame lost d) = clamp (rating d + Store.calculateRatingChange lost).
Proof.
  intros lost d. split; [discriminate |].
  refine (proj1 (ratingChange_matches_saveGame lost d _) _); [discriminate |].
  simpl. tauto.
Defined.

(** X3.  [deleteGame] answers whether the identifier was there; afterwards
    the identifier is free and every other game is where it was.  Deleting an
    unknown identifier changes nothing.  The rating and the counts of games
    won, lost and drawn are never touched, and [totalGames] goes down by one
    only for a game that was not active, without going below zero. *)
Theorem deleteGame_effect (id : string) (d : DataStore) :
  let deleted := fst (Store.deleteGame id d) in
  let d' := snd (Store.deleteGame id d) in
  (deleted = true <-> is_Some (games d !! id)) /\
  games d' !! id = None /\
  (forall k, k <> id -> games d' !! k = games d !! k) /\
  (games d !! id = None -> d' = d) /\
  rating d' = rating d /\
  gamesWon (stats d') = gamesWon (stats d) /\
  gamesLost (stats d') = gamesLost (stats d) /\
  gamesDrawn (stats d') = gamesDrawn (stats d) /\
  totalGames (stats d') =
    match games d !! id with
    | Some g => if finished g then Z.max 0 (totalGames (stats d) - 1) else totalGames (stats d)
    | None => totalGames (stats d)
    end.
Proof.
  cbn zeta. unfold Store.deleteGame, rating, finished. cbn [fst snd games stats].
  split. { apply bool_decide_eq_true. }
  split. { apply lookup_delete_eq. }
  split. { intros k Hk. apply lookup_delete_ne. congruence. }
  split.
  { intros Hn. rewrite Hn. rewrite delete_id by exact Hn. destruct d; reflexivity. }
  destruct (games d !! id) as [g |] eqn:Hg.
  - rewrite bool_decide_eq_true_2 by (exists g; reflexivity).
    cbn [andb]. destruct (bool_decide (g_status g <> Active)); repeat split; reflexivity.
  - repeat split; reflexivity.
Qed.

(** ** Refusals and their effect *)

(** X4.  When no active session is kept under the identifier, a move
    submission and a resignation are both refused, with 404 "Game not found"
    for an unknown identifier and 400 "Game is not active" for a finished
    game, and nothing is changed: store, generator and clock are those
    before the call. *)
Theorem no_active_session_refused `{R : Rules}
    (w : World) (gameId : string) (req : MakeMoveRequest) (mv : MoveReq) :
  no_active w gameId ->
  req_gameId req = Some gameId -> req_move req = Some mv -> gameId <> "" ->
  Game.makeMove req w = (Ok (refusal w gameId), w) /\
  Game.resignGame gameId w = (Ok (refusal w gameId), w) /\
  r_success (refusal w gameId) = false.
Proof.
  intros Hna Hid Hmv Hne. unfold refusal, no_active, session in *.
  unfold Game.makeMove, Game.resignGame. rewrite Hid, Hmv.
  destruct (String.eqb_spec gameId "") as [He | _]; [contradiction |].
  unfold try_catch, bind, read_data, DataService.getGame.
  destruct (games (w_data w) !! gameId) as [g |] eqn:Hg.
  - rewrite bool_decide_eq_true_2 by (apply Hna; reflexivity). repeat split.
  - repeat split.
Qed.

Lemma no_active_session_refused_witness :
  let over := with_result "0-1" (with_status Resignation "2024-01-01T00:10:00.000Z"
                (game_at "game_1" Book.locked0 White Beginner)) in
  let w := world_with over (always (1 # 2)) in
  let mv := {| q_from := "g4"; q_to := "g5"; q_promotion := None |} in
  let req := {| req_gameId := Some "game_1"; req_move := Some mv |} in
  no_active w "game_1" /\
  Game.makeMove (R := Book.rules Book.locked_table) req w
    = (Ok (failure 400 "Game is not active"), w) /\
  Game.resignGame "game_1" w = (Ok (failure 400 "Game is not active"), w).
Proof.
  intros over w mv req.
  assert (Hna : no_active w "game_1").
  { intros g Hg. unfold session in Hg. cbn in Hg.
    apply lookup_singleton_Some in Hg as [_ <-]. discriminate. }
  split; [exact Hna |].
  destruct (no_active_session_refused (R := Book.rules Book.locked_table)
              w "game_1" req mv Hna eq_refl eq_refl) as (H1 & H2 & _); [discriminate |].
  assert (Hr : refusal w "game_1" = failure 400 "Game is not active").
  { unfold refusal, session.
    replace (games (w_data w) !! "game_1") with (Some over) by (symmetry; apply lookup_singleton_eq).
    reflexivity. }
  rewrite Hr in H1, H2. split; assumption.
Defined.

(** X5.  Resigning an active session succeeds: the session is stored with
    status resignation, an end time and the result that gives the game to
    the opponent, its log and position as they were; and the statistics count
    one more game and one more loss, and the rating loses 15 points, clamped
    to [800, 2400]. *)
Theorem resign_counts_as_loss (w : World) (gameId : string) (g : ChessGame) :
  session w gameId = Some g -> g_status g = Active ->
  exists g' w',
    Game.resignGame gameId w = (Ok (success g' None), w') /\
    session w' gameId = Some g' /\
    g_status g' = Resignation /\
    g_result g' = Some (if color_eqb (g_playerColor g) White then "0-1" else "1-0") /\
    g_endTime g' = Some (w_clock w 0%nat) /\
    g_moves g' = g_moves g /\ g_currentPosition g' = g_currentPosition g /\
    totalGames (stats (w_data w')) = totalGames (stats (w_data w)) + 1 /\
    gamesLost (stats (w_data w')) = gamesLost (stats (w_data w)) + 1 /\
    gamesWon (stats (w_data w')) = gamesWon (stats (w_data w)) /\
    gamesDrawn (stats (w_data w')) = gamesDrawn (stats (w_data w)) /\
    rating (w_data w') = clamp (rating (w_data w) - 15).
Proof.
  intros Hs Hact. unfold session in Hs.
  eexists. eexists. split.
  { unfold Game.resignGame, try_catch, bind, read_data, DataService.getGame.
    rewrite Hs. rewrite bool_decide_eq_false_2 by (intros Hn; exact (Hn Hact)).
    unfold now, assign, write_data, ret. cbn. reflexivity. }
  split.
  { unfold session. cbn.
    destruct (decide (g_id g = gameId)) as [-> | Hne].
    - apply lookup_insert_eq.
    - rewrite lookup_insert_ne by exact Hne. apply lookup_insert_eq. }
  unfold rating, clamp. cbn.
  unfold DataService.update_stats, DataService.result_is. cbn.
  destruct (g_playerColor g); cbn; repeat split; reflexivity.
Qed.

Lemma resign_counts_as_loss_witness :
  let game := game_at "game_1" Book.locked0 White Beginner in
  let w := world_with game (always (1 # 2)) in
  exists g' w',
    Game.resignGame "game_1" w = (Ok (success g' None), w') /\
    g_status g' = Resignation /\ g_result g' = Some "0-1" /\
    rating (w_data w') = 1185.
Proof.
  intros game w.
  destruct (resign_counts_as_loss w "game_1" game
              (lookup_singleton_eq _ _) eq_refl)
    as (g' & w' & Hrun & _ & Hst & Hres & _ & _ & _ & _ & _ & _ & _ & Hrat).
  exists g', w'. split; [exact Hrun |]. split; [exact Hst |]. split; [exact Hres |].
  rewrite Hrat. reflexivity.
Defined.

(** ** Statistics and the handlers *)

Lemma quiet_ret {A} (a : A) : quiet (ret a).
Proof. intros w. reflexivity. Qed.

Lemma quiet_throw {A} msg : quiet (@throw World A msg).
Proof. intros w. reflexivity. Qed.

Lemma quiet_pure {A} (r : res A) : quiet (pure_res r).
Proof. intros w. reflexivity. Qed.

Lemma quiet_now : quiet now.
Proof. intros w. reflexivity. Qed.

Lemma quiet_read {A} (f : DataStore -> A) : quiet (read_data f).
Proof. intros w. reflexivity. Qed.

Lemma quiet_liftRng {A} (m : M Rng A) : quiet (liftRng m).
Proof. intros w. unfold liftRng. destruct (m (w_rng w)). reflexivity. Qed.

Lemma quiet_assign gameId game : quiet (assign gameId game).
Proof. intros w. reflexivity. Qed.

Lemma quiet_bind {A B} (m : M World A) (k : A -> M World B) :
  quiet m -> (forall a, quiet (k a)) -> quiet (bind m k).
Proof.
  intros Hm Hk w. unfold bind. specialize (Hm w).
  destruct (m w) as [[a | e | e] w1]; simpl in *; try exact Hm.
  rewrite Hk. exact Hm.
Qed.

Lemma accounts_failure code msg : accounts (ret (failure code msg)).
Proof. intros w. reflexivity. Qed.

Lemma accounts_throw msg : accounts (throw msg).
Proof. intros w. reflexivity. Qed.

Lemma accounts_saved game botMove :
  accounts (let* _ := write_data (DataService.saveGame game) in ret (success game botMove)).
Proof. intros w. reflexivity. Qed.

Lemma accounts_bind {A} (m : M World A) (k : A -> M World Response) :
  quiet m -> (forall a, accounts (k a)) -> accounts (bind m k).
Proof.
  intros Hm Hk w. unfold bind. specialize (Hm w).
  destruct (m w) as [[a | e | e] w1]; simpl in *; try exact Hm.
  rewrite Hk, Hm. reflexivity.
Qed.

Lemma accounts_try_catch (m : M World Response) h :
  accounts m -> (forall e, accounts (h e)) -> accounts (try_catch m h).
Proof.
  intros Hm Hh w. unfold try_catch. specialize (Hm w).
  destruct (m w) as [[a | e | e] w1]; simpl in *; try exact Hm.
  rewrite Hh, Hm. reflexivity.
Qed.

Create HintDb handlers.

#[local] Hint Resolve quiet_ret quiet_throw quiet_pure quiet_now quiet_read quiet_liftRng
  quiet_assign accounts_failure accounts_saved : handlers.

Ltac quieting :=
  repeat first
    [ solve [auto with handlers]
    | apply quiet_bind; [| intros ?]
    | match goal with
      | |- quiet (match ?x with _ => _ end) => destruct x
      | |- quiet (if ?c then _ else _) => destruct c
      end ].

Ltac accounting :=
  repeat first
    [ apply accounts_failure
    | apply accounts_throw
    | apply accounts_saved
    | apply accounts_try_catch; [| intros ?]
    | apply accounts_bind; [quieting | intros ?]
    | match goal with
      | |- accounts (match ?x with _ => _ end) => destruct x
      | |- accounts (if ?c then _ else _) => destruct c
      end ].

Section Accounting.

Context `{R : Rules}.

Lemma accounts_bot_reply gameId game moveResult :
  accounts (Game.bot_reply gameId game moveResult).
Proof. unfold Game.bot_reply. accounting. Qed.

Lemma accounts_player_move gameId game moveResult :
  accounts (Game.player_move gameId game moveResult).
Proof. unfold Game.player_move. accounting. Qed.

Lemma accounts_makeMove req : accounts (Game.makeMove req).
Proof. unfold Game.makeMove. accounting. Qed.

Lemma accounts_resignGame gameId : accounts (Game.resignGame gameId).
Proof. unfold Game.resignGame. accounting. Qed.

Lemma accounts_createGame stamp base36 body :
  accounts (GameRoutes.createGame stamp base36 body).
Proof.
  unfold GameRoutes.createGame, GameRoutes.generateGameId. accounting.
Qed.

End Accounting.

(** X6.  Whatever the request (create, move or resign) and whatever the
    state, the statistics after the handler are those before it updated once
    with the game the response carries; they are the ones before it when the
    response carries no game (every refusal and every error response) and
    when the handler does not answer. *)
Theorem statistics_follow_response `{R : Rules} (stamp : string -> string) (base36 : Q -> string)
    (rq : Request) (w : World) :
  stats (w_data (serve stamp base36 rq w)) =
    reported (fst (handle stamp base36 rq w)) (stats (w_data w)).
Proof.
  unfold serve. destruct rq as [body | req | gameId]; cbn [handle].
  - apply accounts_createGame.
  - apply accounts_makeMove.
  - apply accounts_resignGame.
Qed.

(** ** Stores the handlers can reach *)

Lemma reported_sound r s :
  tally s /\ 800 <= currentRating s <= 2400 ->
  tally (reported r s) /\ 800 <= currentRating (reported r s) <= 2400.
Proof.
  intros [Ht Hr]. destruct r as [resp | e | e]; cbn [reported]; [| tauto | tauto].
  destruct (r_game resp) as [g |]; [| tauto].
  split; [apply update_stats_counts; exact Ht | apply update_stats_range; exact Hr].
Qed.

Lemma keeps_throw P {A} msg : keeps P (@throw World A msg).
Proof. intros w H. exact H. Qed.

Lemma createGame_wf `{R : Rules} stamp base36 body :
  keeps store_wf (GameRoutes.createGame stamp base36 body).
Proof.
  unfold GameRoutes.createGame, GameRoutes.generateGameId.
  repeat first
    [ apply keeps_ret | apply keeps_throw | apply keeps_now | apply keeps_liftRng
    | apply keeps_write; intros d Hd; apply saveGame_wf; exact Hd
    | apply keeps_try_catch; [| intros ?]
    | apply keeps_bind; [| intros ?]
    | match goal with
      | |- keeps _ (match ?x with _ => _ end) => destruct x
      | |- keeps _ (if ?c then _ else _) => destruct c
      end ].
Qed.

Lemma serve_sound `{R : Rules} stamp base36 rq w :
  sound (w_data w) -> sound (w_data (serve stamp base36 rq w)).
Proof.
  intros (Hwf & Ht & Hr). split.
  - destruct rq as [body | req | gameId]; unfold serve; cbn [handle].
    + apply createGame_wf. exact Hwf.
    + apply (exec_wf (ApplyMove req)). exact Hwf.
    + apply (exec_wf (Resign gameId)). exact Hwf.
  - assert (H : stats (w_data (serve stamp base36 rq w)) =
                reported (fst (handle stamp base36 rq w)) (stats (w_data w))).
    { unfold serve. destruct rq as [body | req | gameId]; cbn [handle].
      - apply accounts_createGame.
      - apply accounts_makeMove.
      - apply accounts_resignGame. }
    unfold rating. rewrite H. apply reported_sound. split; assumption.
Qed.

Lemma fresh_world_sound g clock : sound (w_data (fresh_world g clock)).
Proof.
  split; [| split].
  - intros k x Hk. cbn in Hk. rewrite lookup_empty in Hk. discriminate.
  - reflexivity.
  - cbn. lia.
Qed.

(** X7.  Serving any sequence of create, move and resign requests keeps the
    store sound: every game is filed under its own identifier,
    [totalGames] is the sum of the games won, lost and drawn, and the rating
    is between 800 and 2400. *)
Theorem served_store_sound `{R : Rules} (stamp : string -> string) (base36 : Q -> string)
    (rqs : list Request) (w : World) :
  sound (w_data w) -> sound (w_data (serve_all stamp base36 rqs w)).
Proof.
  revert w. induction rqs as [| rq rqs IH]; intros w Hw.
  - exact Hw.
  - cbn [serve_all fold_left]. apply IH. apply serve_sound. exact Hw.
Qed.

Lemma served_store_sound_witness :
  let w := fresh_world (always (1 # 4)) midnight in
  let settings :=
    {| rs_timeControl := Some (600, 5); rs_difficulty := Some "beginner";
       rs_color := Some "white" |} in
  sound (w_data w) /\
  sound (w_data (serve_all (R := Book.rules Book.locked_table)
                   (fun _ => "1704067200000") (fun _ => "9")
                   [Create (Some settings); GiveUp "game_1704067200000_9"] w)).
Proof.
  intros w settings.
  split; [apply fresh_world_sound | apply served_store_sound; apply fresh_world_sound].
Defined.

(** ** Creating a game *)

Lemma idle_ret {A} (a : A) : idle (ret a).
Proof. intros w. reflexivity. Qed.

Lemma idle_now : idle now.
Proof. intros w. reflexivity. Qed.

Lemma idle_liftRng {A} (m : M Rng A) : idle (liftRng m).
Proof. intros w. unfold liftRng. destruct (m (w_rng w)). reflexivity. Qed.

Lemma idle_bind {A B} (m : M World A) (k : A -> M World B) :
  idle m -> (forall a, idle (k a)) -> idle (bind m k).
Proof.
  intros Hm Hk w. unfold bind. specialize (Hm w).
  destruct (m w) as [[a | e | e] w1]; simpl in *; try exact Hm.
  rewrite Hk. exact Hm.
Qed.

Lemma files_failure code msg : files (ret (failure code msg)).
Proof. intros w. reflexivity. Qed.

Lemma files_throw msg : files (throw msg).
Proof. intros w. reflexivity. Qed.

Lemma files_saved game botMove :
  files (let* _ := write_data (DataService.saveGame game) in ret (success game botMove)).
Proof. intros w. reflexivity. Qed.

Lemma files_bind {A} (m : M World A) (k : A -> M World Response) :
  idle m -> (forall a, files (k a)) -> files (bind m k).
Proof.
  intros Hm Hk w. unfold bind. specialize (Hm w).
  destruct (m w) as [[a | e | e] w1]; simpl in *; try exact Hm.
  rewrite Hk, Hm. reflexivity.
Qed.

Lemma files_try_catch (m : M World Response) h :
  files m -> (forall e, files (h e)) -> files (try_catch m h).
Proof.
  intros Hm Hh w. unfold try_catch. specialize (Hm w).
  destruct (m w) as [[a | e | e] w1]; simpl in *; try exact Hm.
  rewrite Hh, Hm. reflexivity.
Qed.

#[local] Hint Resolve idle_ret idle_now idle_liftRng : handlers.

Ltac idling :=
  repeat first
    [ solve [auto with handlers]
    | apply idle_bind; [| intros ?]
    | match goal with
      | |- idle (match ?x with _ => _ end) => destruct x
      | |- idle (if ?c then _ else _) => destruct c
      end ].

(** X8.  [createGame] writes nothing to the store but the game it returns:
    the store after the request is the one before it with that game saved,
    and it is the one before it whenever the response carries no game (a
    refusal, or the 500 response after the engine threw) or the handler does
    not answer. *)
Theorem createGame_files_what_it_returns `{R : Rules}
    (stamp : string -> string) (base36 : Q -> string) (body : option RawSettings) (w : World) :
  w_data (snd (GameRoutes.createGame stamp base36 body w)) =
    filed (fst (GameRoutes.createGame stamp base36 body w)) (w_data w).
Proof.
  revert w. change (files (GameRoutes.createGame stamp base36 body)).
  unfold GameRoutes.createGame, GameRoutes.generateGameId.
  repeat first
    [ apply files_failure
    | apply files_throw
    | apply files_saved
    | apply files_try_catch; [| intros ?]
    | apply files_bind; [idling | intros ?]
    | match goal with
      | |- files (match ?x with _ => _ end) => destruct x
      | |- files (if ?c then _ else _) => destruct c
      end ].
Qed.

(** ** The game a response carries *)

Lemma keeps_returned_failure code msg : keeps_returned (ret (failure code msg)).
Proof. intros w resp g H Hg. cbn in H. injection H as <-. discriminate Hg. Qed.

Lemma keeps_returned_throw msg : keeps_returned (throw msg).
Proof. intros w resp g H. discriminate H. Qed.

Lemma keeps_returned_saved game botMove :
  keeps_returned
    (let* _ := write_data (DataService.saveGame game) in ret (success game botMove)).
Proof.
  intros w resp g H Hg. cbn in H. injection H as <-. cbn in Hg. injection Hg as <-.
  cbn. apply lookup_insert_eq.
Qed.

Lemma keeps_returned_bind {A} (m : M World A) (k : A -> M World Response) :
  (forall a, keeps_returned (k a)) -> keeps_returned (bind m k).
Proof.
  intros Hk w resp g. unfold bind.
  destruct (m w) as [[a | e | e] w1]; [apply Hk | discriminate | discriminate].
Qed.

Lemma keeps_returned_try_catch (m : M World Response) h :
  keeps_returned m -> (forall e, keeps_returned (h e)) -> keeps_returned (try_catch m h).
Proof.
  intros Hm Hh w resp g. unfold try_catch. specialize (Hm w resp g).
  destruct (m w) as [[a | e | e] w1]; [exact Hm | apply Hh | exact Hm].
Qed.

Ltac returning :=
  repeat first
    [ apply keeps_returned_failure
    | apply keeps_returned_throw
    | apply keeps_returned_saved
    | apply keeps_returned_try_catch; [| intros ?]
    | apply keeps_returned_bind; intros ?
    | match goal with
      | |- keeps_returned (match ?x with _ => _ end) => destruct x
      | |- keeps_returned (if ?c then _ else _) => destruct c
      end ].

Lemma handle_keeps_returned `{R : Rules} stamp base36 rq :
  keeps_returned (handle stamp base36 rq).
Proof.
  destruct rq as [body | req | gameId]; cbn [handle].
  - unfold GameRoutes.createGame, GameRoutes.generateGameId. returning.
  - unfold Game.makeMove, Game.player_move, Game.bot_reply. returning.
  - unfold Game.resignGame. returning.
Qed.

(** X9.  The game a create, move or resign response carries is the one the
    store holds under that game's identifier when the handler returns, and
    [GET /api/game/:gameId] for that identifier answers with it, leaving the
    state as it is. *)
Theorem returned_game_retrievable `{R : Rules} (stamp : string -> string) (base36 : Q -> string)
    (rq : Request) (w : World) (resp : Response) (g : ChessGame) :
  fst (handle stamp base36 rq w) = Ok resp ->
  r_game resp = Some g ->
  GameRoutes.getGame (g_id g) (serve stamp base36 rq w) =
    (Ok (success g None), serve stamp base36 rq w).
Proof.
  intros H Hg. pose proof (handle_keeps_returned stamp base36 rq w resp g H Hg) as Hs.
  unfold serve, GameRoutes.getGame, try_catch, bind, read_data, DataService.getGame.
  unfold session in Hs. rewrite Hs. reflexivity.
Qed.

Lemma returned_game_retrievable_witness :
  let w := fresh_world (always (1 # 4)) midnight in
  let settings :=
    {| rs_timeControl := Some (600, 5); rs_difficulty := Some "beginner";
       rs_color := Some "white" |} in
  let stamp := fun _ : string => "1704067200000" in
  let base36 := fun _ : Q => "9" in
  let g :=
    {| g_id := "game_1704067200000_9"; g_playerColor := White; g_currentPosition := opening;
       g_moves := []; g_status := Active;
       g_settings := settings_of Beginner ChooseWhite;
       g_startTime := "2024-01-01T00:00:00.000Z"; g_endTime := None; g_result := None |} in
  fst (handle (R := Book.rules Book.locked_table) stamp base36 (Create (Some settings)) w) =
    Ok (success g None) /\
  fst (GameRoutes.getGame (g_id g)
         (serve (R := Book.rules Book.locked_table) stamp base36 (Create (Some settings)) w)) =
    Ok (success g None).
Proof.
  intros w settings stamp base36 g.
  assert (H : fst (handle (R := Book.rules Book.locked_table) stamp base36
                     (Create (Some settings)) w) = Ok (success g None))
    by (vm_compute; reflexivity).
  split; [exact H |].
  rewrite (returned_game_retrievable (R := Book.rules Book.locked_table) stamp base36
             (Create (Some settings)) w (success g None) g H eq_refl).
  reflexivity.
Defined.

(** ** The game [createGame] starts *)

Lemma game_id_prefix (rest : string) : String.prefix "game_" ("game_" +:+ rest) = true.
Proof. apply prefix_app. Qed.

(** X10.  A game returned by [createGame] comes from settings that pass
    [validateGameSettings] and keeps them; it is active, without end time or
    result, under an identifier that starts with [game_]; the player has the
    colour asked for when one was asked for; for White the log is empty at
    the starting position, for Black the log holds at most one entry, the
    bot's, and the position is the one after it with Black to move. *)
Theorem created_game `{R : Rules} (stamp : string -> string) (base36 : Q -> string)
    (body : option RawSettings) (w : World) (resp : Response) (g : ChessGame) :
  fst (GameRoutes.createGame stamp base36 body w) = Ok resp ->
  r_game resp = Some g ->
  (exists settings, body = Some settings /\
     GameRoutes.validateGameSettings settings = None /\
     settings_read settings = Some (g_settings g)) /\
  r_success resp = true /\ r_botMove resp = None /\
  g_status g = Active /\ g_endTime g = None /\ g_result g = None /\
  String.prefix "game_" (g_id g) = true /\
  match gs_color (g_settings g) with
  | ChooseWhite => g_playerColor g = White
  | ChooseBlack => g_playerColor g = Black
  | ChooseRandom => True
  end /\
  match g_playerColor g with
  | White => g_moves g = [] /\ g_currentPosition g = opening
  | Black =>
      (g_moves g = [] /\ g_currentPosition g = opening) \/
      exists e, g_moves g = [e] /\ cm_isPlayerMove e = false /\
                g_currentPosition g = replied e
  end.
Proof.
  intros H Hg. apply fst_ok in H as [w' H].
  unfold GameRoutes.createGame in H.
  apply try_catch_ok in H as [H | (e & w1 & _ & H)];
    [| apply ret_ok in H as [-> _]; discriminate Hg].
  destruct body as [settings |]; [| apply ret_ok in H as [-> _]; discriminate Hg].
  destruct (GameRoutes.validateGameSettings settings) as [msg |] eqn:Hv;
    [apply ret_ok in H as [-> _]; discriminate Hg |].
  destruct (settings_read settings) as [kept |] eqn:Hk; [| discriminate H].
  apply bind_ok in H as (playerColor & w1 & Hc & H).
  apply bind_ok in H as (gameId & w2 & Hid & H).
  apply bind_ok in H as (startTime & w3 & _ & H).
  apply bind_ok in H as (game & w4 & Hgame & H).
  apply bind_ok in H as (u & w5 & _ & H).
  apply ret_ok in H as [-> _]. cbn in Hg. injection Hg as ->.
  assert (Hprefix : String.prefix "game_" gameId = true).
  { unfold GameRoutes.generateGameId in Hid.
    apply bind_ok in Hid as (t & x1 & _ & Hid).
    apply bind_ok in Hid as (r & x2 & _ & Hid).
    apply ret_ok in Hid as [-> _]. apply game_id_prefix. }
  assert (Hcolor : match gs_color kept with
                   | ChooseWhite => playerColor = White
                   | ChooseBlack => playerColor = Black
                   | ChooseRandom => True
                   end).
  { destruct (gs_color kept); [apply ret_ok in Hc as [-> _]; reflexivity
                              | apply ret_ok in Hc as [-> _]; reflexivity | exact I]. }
  split; [exists settings; repeat split; try assumption |].
  - destruct playerColor.
    + apply ret_ok in Hgame as [-> _]. exact Hk.
    + apply bind_ok in Hgame as ([bm |] & x1 & _ & Hgame).
      * apply bind_ok in Hgame as (t & x2 & _ & Hgame).
        apply ret_ok in Hgame as [-> _]. exact Hk.
      * apply ret_ok in Hgame as [-> _]. exact Hk.
  - split; [reflexivity |]. split; [reflexivity |].
    destruct playerColor.
    + apply ret_ok in Hgame as [-> _]. cbn.
      repeat (split; [first [reflexivity | assumption] |]). split; reflexivity.
    + apply bind_ok in Hgame as ([bm |] & x1 & _ & Hgame).
      * apply bind_ok in Hgame as (t & x2 & _ & Hgame).
        apply ret_ok in Hgame as [-> _]. cbn.
        repeat (split; [first [reflexivity | assumption] |]).
        right. eexists. split; [reflexivity |]. split; reflexivity.
      * apply ret_ok in Hgame as [-> _]. cbn.
        repeat (split; [first [reflexivity | assumption] |]).
        left. split; reflexivity.
Qed.

Lemma created_game_witness :
  let w := fresh_world (always (1 # 4)) midnight in
  let settings :=
    {| rs_timeControl := Some (600, 5); rs_difficulty := Some "beginner";
       rs_color := Some "white" |} in
  let stamp := fun _ : string => "1704067200000" in
  let base36 := fun _ : Q => "9" in
  let g :=
    {| g_id := "game_1704067200000_9"; g_playerColor := White; g_currentPosition := opening;
       g_moves := []; g_status := Active;
       g_settings := settings_of Beginner ChooseWhite;
       g_startTime := "2024-01-01T00:00:00.000Z"; g_endTime := None; g_result := None |} in
  fst (GameRoutes.createGame (R := Book.rules Book.locked_table) stamp base36 (Some settings) w) =
    Ok (success g None) /\
  String.prefix "game_" (g_id g) = true /\ g_moves g = [].
Proof.
  intros w settings stamp base36 g.
  assert (H : fst (GameRoutes.createGame (R := Book.rules Book.locked_table) stamp base36
                     (Some settings) w) = Ok (success g None))
    by (vm_compute; reflexivity).
  split; [exact H |].
  destruct (created_game (R := Book.rules Book.locked_table) stamp base36 (Some settings) w
              (success g None) g H eq_refl)
    as (_ & _ & _ & _ & _ & _ & Hp & _ & Hm).
  split; [exact Hp | apply Hm].
Defined.

(** ** Analysis of a position without legal moves *)

Section StuckAnalysis.

Context `{R : Rules} `{!Lawful R}.

Lemma stuck_principalVariation fen0 depth (b : Board) g :
  load fen0 = Some b -> moves b = [] ->
  exists bm, calculateBestMove fen0 depth = Ok bm /\
             calculatePrincipalVariation fen0 bm 3 g = (Throw "Invalid move", g).
Proof.
  intros Hl Hm. eexists. split.
  - unfold calculateBestMove. rewrite Hl. cbn [of_option res_bind]. rewrite Hm. reflexivity.
  - unfold calculatePrincipalVariation, bind, pure_res. rewrite Hl. cbn [of_option].
    destruct (move b _) as [[m b'] |] eqn:Hmv; [| reflexivity].
    apply move_listed in Hmv. rewrite Hm in Hmv. destruct Hmv.
Qed.

Lemma stuck_analysis fen0 depth (b : Board) g :
  load fen0 = Some b -> moves b = [] ->
  exists e g', analyzePosition fen0 depth g = (Fatal e, g').
Proof.
  intros Hl Hm. unfold analyzePosition, isReady. cbn [negb].
  rewrite (run_bind _ _ g (g 0%nat) (fun n => g (S n))) by reflexivity.
  set (g0 := fun n => g (S n)).
  unfold in_timer, bind at 1.
  destruct (calculateStockfishEvaluation fen0 depth g0) as [[ev | e | e] g1];
    [| eexists; eexists; reflexivity | eexists; eexists; reflexivity].
  destruct (stuck_principalVariation fen0 depth b g1 Hl Hm) as (bm & Hb & Hpv).
  unfold bind at 1, pure_res. rewrite Hb.
  unfold bind at 1. rewrite Hpv. eexists. eexists. reflexivity.
Qed.

End StuckAnalysis.

(** X11.  When the position has no legal move (checkmate, stalemate), the
    simulated engine analysis does not settle: the placeholder best move
    [{ from: '', to: '' }] is handed to [chess.move] inside the timer
    callback, whose exception nothing catches.  The promise of
    [StockfishEngine.analyzePosition] stays pending, and so does
    [analyzeWithStockfish], whose [try] does not see it. *)
Theorem analysis_of_stuck_position_never_settles `{R : Rules} `{!Lawful R}
    (fen0 : string) (depth timeout : Z) (g : Rng) (b : Board) :
  load fen0 = Some b -> moves b = [] ->
  (exists e g', analyzePosition fen0 depth g = (Fatal e, g')) /\
  (exists e g', Enhanced.analyzeWithStockfish fen0 depth timeout g = (Fatal e, g')).
Proof.
  intros Hl Hm. destruct (stuck_analysis fen0 depth b g Hl Hm) as (e & g' & H).
  split; [exists e, g'; exact H |].
  exists e, g'. unfold Enhanced.analyzeWithStockfish, try_catch, bind at 1, pure_res.
  rewrite Hl. cbn [of_option]. unfold bind. rewrite H. reflexivity.
Qed.

Lemma analysis_of_stuck_position_never_settles_witness :
  exists e g',
    Enhanced.analyzeWithStockfish (R := Book.rules Book.locked_table) Book.locked2 15 5000
      (always (1 # 4)) = (Fatal e, g').
Proof.
  apply (analysis_of_stuck_position_never_settles (R := Book.rules Book.locked_table)
           (Lawful0 := book_lawful Book.locked_table) Book.locked2 15 5000 (always (1 # 4))
           {| Book.bk_fen := Book.locked2; Book.bk_history := [] |});
    vm_compute; reflexivity.
Defined.

(** ** What an analysis that settles reports *)

Lemma firstn_min_length {A} (l : list A) n : firstn (Nat.min (length l) n) l = firstn n l.
Proof.
  revert n. induction l as [| x l IH]; intros [| n]; simpl; try reflexivity.
  rewrite IH. reflexivity.
Qed.

Section AnalysisResult.

Context `{R : Rules}.

Lemma best_fold (b : Board) depth ms : forall acc bm sc,
  fold_left (fun acc mv =>
    let+ (bestMove, bestScore) := acc in
    let+ (_, b1) := of_option "Invalid move" (move b (req_of_move mv)) in
    let+ score := evaluateQuick b1 depth in
    if Js.gtb score bestScore then Ok (mv, score) else Ok (bestMove, bestScore)) ms acc
    = Ok (bm, sc) ->
  exists bm0 sc0, acc = Ok (bm0, sc0) /\ (bm = bm0 \/ In bm ms).
Proof.
  induction ms as [| mv ms IH]; intros acc bm sc H; cbn [fold_left] in H.
  - exists bm, sc. split; [exact H | left; reflexivity].
  - apply IH in H as (bm1 & sc1 & H & Hin).
    destruct acc as [[bm0 sc0] | e | e]; [| discriminate | discriminate].
    exists bm0, sc0. split; [reflexivity |].
    cbn [res_bind] in H.
    destruct (of_option "Invalid move" (move b (req_of_move mv))) as [[m1 b1] | e | e];
      [| discriminate | discriminate].
    cbn [res_bind] in H.
    destruct (evaluateQuick b1 depth) as [score | e | e]; [| discriminate | discriminate].
    cbn [res_bind] in H.
    destruct Hin as [-> | Hin]; [| right; right; exact Hin].
    destruct (Js.gtb score sc0); injection H as <- _; [right; left | left]; reflexivity.
Qed.

Lemma calculateBestMove_listed fen0 depth (b : Board) bm :
  load fen0 = Some b -> moves b <> [] ->
  calculateBestMove fen0 depth = Ok bm ->
  exists m, In m (firstn 10 (moves b)) /\ bm = best_of m.
Proof.
  intros Hl Hne H. unfold calculateBestMove in H. rewrite Hl in H. cbn [of_option res_bind] in H.
  destruct (moves b) as [| first rest] eqn:Hm; [congruence |].
  apply res_bind_ok in H as ([m sc] & Hf & H). injection H as <-.
  exists m. split; [| reflexivity].
  apply best_fold in Hf as (bm0 & sc0 & Hacc & Hin). injection Hacc as <- _.
  rewrite firstn_min_length in Hin.
  destruct Hin as [-> | Hin]; [left; reflexivity | exact Hin].
Qed.

Lemma pv_loop_extends n : forall (b : Board) pv g pv' g',
  pv_loop n b pv g = (Ok pv', g') -> exists rest, pv' = (pv ++ rest)%list.
Proof.
  induction n as [| n IH]; intros b pv g pv' g' H; cbn [pv_loop] in H.
  - apply ret_ok in H as [-> _]. exists []. symmetry. apply app_nil_r.
  - destruct (moves b) as [| m0 ms].
    + apply ret_ok in H as [-> _]. exists []. symmetry. apply app_nil_r.
    + apply bind_ok in H as (r & g1 & _ & H).
      destruct (nth_Z (m0 :: ms) _) as [nextMove |]; [| discriminate].
      apply bind_ok in H as ([mv b'] & g2 & _ & H).
      apply IH in H as (rest & ->). exists ([m_san nextMove] ++ rest)%list.
      symmetry. apply app_assoc.
Qed.

Lemma advances_principalVariation fen0 bestMove depth :
  advances (calculatePrincipalVariation fen0 bestMove depth).
Proof.
  unfold calculatePrincipalVariation.
  apply advances_bind; [apply advances_pure | intros b].
  apply advances_bind; [apply advances_pure | intros [mv b1]]. apply advances_pv_loop.
Qed.

Lemma draw_scaled (r : Q) (n : Z) :
  (0 <= r)%Q -> (r < 1)%Q -> 0 < n -> 0 <= Js.floor (r * inject_Z n) < n.
Proof. apply floor_index. Qed.

End AnalysisResult.

(** X12.  An analysis that settles, on a position the library loads:
    the best move is one of the first ten legal moves in the library's
    order, the principal variation begins with its SAN, the depth is the
    one asked for, and the simulated counters are within their ranges
    (nodes in [50000, 150000), time in [500, 2500), nodes per second in
    [1000000, 1500000)); the generator has only been advanced. *)
Theorem analysis_result_shape `{R : Rules} `{!Lawful R}
    (fen0 : string) (depth : Z) (g g' : Rng) (a : EngineResult) (b : Board) :
  rng_ok g -> load fen0 = Some b ->
  analyzePosition fen0 depth g = (Ok a, g') ->
  (exists m, In m (firstn 10 (moves b)) /\ er_bestMove a = best_of m) /\
  hd_error (er_principalVariation a) = Some (bm_san (er_bestMove a)) /\
  er_depth a = depth /\
  50000 <= er_nodes a < 150000 /\
  500 <= er_time a < 2500 /\
  1000000 <= er_nps a < 1500000 /\
  later g g'.
Proof.
  intros Hok Hl H.
  assert (Hne : moves b <> []).
  { intros Hm. destruct (stuck_analysis fen0 depth b g Hl Hm) as (e & g1 & Hf).
    rewrite Hf in H. discriminate H. }
  assert (Hlater : later g g').
  { pose proof (advances_analyzePosition fen0 depth g) as Ha. rewrite H in Ha. exact Ha. }
  unfold analyzePosition, isReady in H. cbn [negb] in H.
  apply bind_ok in H as (d & g0 & Hd & H).
  apply in_timer_ok in H.
  apply bind_ok in H as (ev & g1 & Hev & H).
  apply bind_ok in H as (best & g2 & Hbest & H).
  apply pure_res_ok in Hbest as [Hbest ->].
  apply bind_ok in H as (pv & g3 & Hpv & H).
  assert (Hok3 : rng_ok g3).
  { eapply later_ok; [exact Hok |].
    eapply later_trans; [| pose proof (advances_principalVariation fen0 best 3 g1) as Hp;
                           rewrite Hpv in Hp; exact Hp].
    eapply later_trans; [| pose proof (advances_evaluation fen0 depth g0) as He;
                           rewrite Hev in He; exact He].
    pose proof (advances_random g) as Hr. rewrite Hd in Hr. exact Hr. }
  unfold bind, random in H. apply ret_ok in H as [-> _].
  cbn [er_bestMove er_principalVariation er_depth er_nodes er_time er_nps].
  split; [apply (calculateBestMove_listed fen0 depth); assumption |].
  split.
  { unfold calculatePrincipalVariation in Hpv.
    apply bind_ok in Hpv as (b0 & x1 & _ & Hpv).
    apply bind_ok in Hpv as ([mv b1] & x2 & _ & Hpv).
    apply pv_loop_extends in Hpv as (rest & ->). reflexivity. }
  split; [reflexivity |].
  pose proof (draw_scaled (g3 0%nat) 100000 (proj1 (Hok3 _)) (proj2 (Hok3 _)) eq_refl) as H1.
  pose proof (draw_scaled (g3 1%nat) 2000 (proj1 (Hok3 _)) (proj2 (Hok3 _)) eq_refl) as H2.
  pose proof (draw_scaled (g3 2%nat) 500000 (proj1 (Hok3 _)) (proj2 (Hok3 _)) eq_refl) as H3.
  unfold inject_Z in H1, H2, H3.
  split; [lia |]. split; [lia |]. split; [lia | exact Hlater].
Qed.

Lemma analysis_result_shape_witness :
  exists a g',
    analyzePosition (R := Book.rules Book.locked_table) Book.locked1 15 (always (1 # 4)) =
      (Ok a, g') /\
    hd_error (er_principalVariation a) = Some (bm_san (er_bestMove a)) /\
    50000 <= er_nodes a < 150000.
Proof.
  assert (Hok : rng_ok (always (1 # 4)))
    by (intros n; unfold always; split; [discriminate | reflexivity]).
  destruct (locked1_analysis_settles 15 (always (1 # 4)) Hok) as (a & g' & H).
  exists a, g'. split; [exact H |].
  destruct (analysis_result_shape (R := Book.rules Book.locked_table)
              (Lawful0 := book_lawful Book.locked_table) Book.locked1 15 (always (1 # 4)) g' a
              {| Book.bk_fen := Book.locked1; Book.bk_history := [] |} Hok eq_refl H)
    as (_ & Hpv & _ & Hn & _).
  split; [exact Hpv | exact Hn].
Defined.

(** ** The fallback analysis *)

Lemma engine_analysis_never_throws `{R : Rules} fen0 depth g e g' :
  analyzePosition fen0 depth g <> (Throw e, g').
Proof.
  unfold analyzePosition, isReady. cbn [negb]. unfold bind, random, in_timer.
  match goal with |- context [match ?m with (r, s) => _ end] => destruct m as [[x | e1 | e1] s1] end;
    discriminate.
Qed.

(** X13.  The fallback of [EnhancedChessEngineService.analyzePosition] never
    produces an analysis.  [analyzeWithStockfish] throws only when
    [chess.load] rejects the FEN, and [basicAnalysis] then starts with the
    same [chess.load]: on such a string the call throws; on every string the
    library loads, the result is the one of [analyzeWithStockfish],
    including the case where that call never settles. *)
Theorem fallback_analysis_never_answers `{R : Rules} (toFixed2 : Q -> string)
    (fen0 : string) (depth timeout : Z) (g : Rng) :
  (load fen0 = None ->
   exists e, Service.analyzePosition toFixed2 fen0 depth timeout g = (Throw e, g)) /\
  (forall b : Board, load fen0 = Some b ->
   Service.analyzePosition toFixed2 fen0 depth timeout g =
     Enhanced.analyzeWithStockfish fen0 depth timeout g).
Proof.
  split.
  - intros Hl. eexists.
    unfold Service.analyzePosition, Enhanced.analyzeWithStockfish, Service.basicAnalysis,
      try_catch, bind, pure_res, throw.
    rewrite Hl. cbn [of_option]. reflexivity.
  - intros b Hl. unfold Service.analyzePosition, try_catch at 1.
    destruct (Enhanced.analyzeWithStockfish fen0 depth timeout g) as [[a | e | e] g1] eqn:H;
      try reflexivity.
    exfalso. unfold Enhanced.analyzeWithStockfish, try_catch, bind at 1, pure_res in H.
    rewrite Hl in H. cbn [of_option] in H. unfold bind in H.
    destruct (analyzePosition fen0 depth g) as [[x | e1 | e1] s1] eqn:Ha.
    + discriminate H.
    + exact (engine_analysis_never_throws fen0 depth g e1 s1 Ha).
    + discriminate H.
Qed.

(** ** The terms of the evaluation *)

Section EvaluationTerms.

Context `{R : Rules}.

Lemma countAttackers_none (b : Board) square c :
  (forall m, In m (moves b) -> m_to m <> square) ->
  fold_left (fun attackers mv =>
    if String.eqb (m_to mv) square &&
       match get b (m_from mv) with
       | Some pc => color_eqb (p_color pc) c
       | None => false
       end
    then attackers + 1 else attackers) (moves b) 0 = 0.
Proof.
  generalize 0. induction (moves b) as [| mv ms IH]; intros n H.
  - reflexivity.
  - cbn [fold_left].
    destruct (String.eqb (m_to mv) square) eqn:E.
    + apply String.eqb_eq in E. exfalso. apply (H mv); [left; reflexivity | exact E].
    + cbn [andb]. apply IH. intros m Hin. apply H. right. exact Hin.
Qed.

Lemma center_control_bounds (b : Board) squares : forall n,
  n - 20 * Z.of_nat (length squares) <=
    fold_left (fun positional square =>
      match get b square with
      | Some pc => positional + (if color_eqb (p_color pc) White then 20 else -20)
      | None => positional
      end) squares n
  <= n + 20 * Z.of_nat (length squares).
Proof.
  induction squares as [| sq squares IH]; intros n.
  - simpl. lia.
  - cbn [fold_left length].
    destruct (get b sq) as [pc |]; [destruct (color_eqb (p_color pc) White) |];
      match goal with |- context [fold_left _ _ ?x] => specialize (IH x) end; lia.
Qed.

Lemma count_developed_bounds (b : Board) c squares :
  0 <= count_developed b c squares <= Z.of_nat (length squares).
Proof.
  unfold count_developed.
  assert (H : forall n, n <= fold_left (fun n square =>
              match get b square with
              | Some pc => if color_eqb (p_color pc) c && is_minor (p_type pc) then n + 1 else n
              | None => n
              end) squares n <= n + Z.of_nat (length squares)).
  { induction squares as [| sq squares IH]; intros n.
    - simpl. lia.
    - cbn [fold_left length].
      destruct (get b sq) as [pc |];
        [destruct (color_eqb (p_color pc) c && is_minor (p_type pc)) |];
        match goal with |- context [fold_left _ _ ?x] => specialize (IH x) end; lia. }
  specialize (H 0). lia.
Qed.

End EvaluationTerms.

(** X14.  The king-safety term is zero whenever no legal move ends on the
    square of a king, which is the case in every position of a game: the
    attackers of a king are counted among the legal moves of the side to
    move, by their destination. *)
Theorem king_safety_vanishes `{R : Rules} (b : Board) :
  (forall m c, In m (moves b) -> findKing b c <> Some (m_to m)) ->
  evaluateKingSafety b = 0.
Proof.
  intros H. unfold evaluateKingSafety.
  destruct (findKing b White) as [whiteKing |] eqn:Hw; [| reflexivity].
  destruct (findKing b Black) as [blackKing |] eqn:Hb; [| reflexivity].
  unfold countAttackers. rewrite !countAttackers_none; [reflexivity | |].
  - intros m Hin E. apply (H m Black Hin). rewrite Hb, E. reflexivity.
  - intros m Hin E. apply (H m White Hin). rewrite Hw, E. reflexivity.
Qed.

Lemma king_safety_vanishes_witness :
  evaluateKingSafety (R := Book.rules Book.locked_table)
    {| Book.bk_fen := Book.locked0; Book.bk_history := [] |} = 0.
Proof.
  apply (king_safety_vanishes (R := Book.rules Book.locked_table)).
  intros m c Hin. vm_compute in Hin. destruct Hin as [<- | []].
  destruct c; vm_compute; discriminate.
Defined.

(** X15.  The positional term lies between -180 and 180: at most 20 for
    each of the four centre squares and 10 for each of the ten development
    squares of a side. *)
Theorem positional_term_bounds `{R : Rules} (b : Board) :
  -180 <= evaluatePosition b <= 180.
Proof.
  unfold evaluatePosition, countDevelopedPieces.
  pose proof (center_control_bounds b centerSquares 0) as Hc.
  pose proof (count_developed_bounds b White developmentSquares_white) as Hw.
  pose proof (count_developed_bounds b Black developmentSquares_black) as Hb.
  cbn [length centerSquares developmentSquares_white developmentSquares_black] in Hc, Hw, Hb.
  cbn [fst snd].
  destruct (length (history b) <? 10)%nat; lia.
Qed.

(** ** The beginner tier *)

Lemma floor_exact (i len : nat) :
  (i < len)%nat ->
  Js.floor ((Z.of_nat i # Pos.of_nat len) * inject_Z (Z.of_nat len)) = Z.of_nat i.
Proof.
  intros Hlt. unfold Js.floor, Qfloor, Qmult, inject_Z. cbn [Qnum Qden].
  rewrite Pos.mul_1_r.
  replace (Z.pos (Pos.of_nat len)) with (Z.of_nat len).
  - apply Z.div_mul. lia.
  - rewrite <- (positive_nat_Z (Pos.of_nat len)). rewrite Nat2Pos.id by lia. reflexivity.
Qed.

Lemma draws_ok (i len : nat) :
  (i < len)%nat -> rng_ok (draws (1 # 2) (Z.of_nat i # Pos.of_nat len)).
Proof.
  intros Hlt [| n]; cbn [draws].
  - split; [discriminate | reflexivity].
  - assert (Hp : Z.pos (Pos.of_nat len) = Z.of_nat len).
    { rewrite <- (positive_nat_Z (Pos.of_nat len)). rewrite Nat2Pos.id by lia. reflexivity. }
    unfold Qle, Qlt. cbn [Qnum Qden]. rewrite Hp. split; lia.
Qed.

(** X16.  The beginner tier can play any legal move: for every move [m] of
    the enumeration that the library accepts, there are draws of the
    generator (a first one of at least 0.3, which skips the engine analysis,
    and a second one that selects [m]) for which [getStockfishMove] returns
    what the library reports for [m]. *)
Theorem beginner_can_play_any_legal_move `{R : Rules} (fen0 : string) (b : Board) (m : Move) :
  load fen0 = Some b -> In m (moves b) -> accepts b ->
  exists g mv b' g',
    rng_ok g /\
    move b (req_of_move m) = Some (mv, b') /\
    Enhanced.getStockfishMove fen0 Beginner g = (Ok (Some (bot_move mv b')), g').
Proof.
  intros Hl Hin Hacc.
  destruct (In_nth_error _ _ Hin) as [i Hi].
  assert (Hlt : (i < length (moves b))%nat) by (apply nth_error_Some; congruence).
  destruct (Hacc m Hin) as (mv & b' & Hmv).
  set (g := draws (1 # 2) (Z.of_nat i # Pos.of_nat (length (moves b)))).
  exists g, mv, b', (fun n => g (S (S n))).
  split; [apply draws_ok; exact Hlt |]. split; [exact Hmv |].
  assert (Hsel : Enhanced.selectMove fen0 Beginner (moves b) g =
                 (Ok (Some m), fun n => g (S (S n)))).
  { unfold Enhanced.selectMove, bind, random, ret. cbn [fst snd].
    change (g 0%nat) with (1 # 2)%Q.
    change (Qltb (1 # 2) (3 # 10)) with false. cbv beta iota.
    change (g 1%nat) with (Z.of_nat i # Pos.of_nat (length (moves b)))%Q.
    rewrite floor_exact by exact Hlt.
    unfold nth_Z. destruct (Z.of_nat i <? 0) eqn:E; [apply Z.ltb_lt in E; lia |].
    rewrite Nat2Z.id, Hi. reflexivity. }
  unfold Enhanced.getStockfishMove.
  rewrite (run_bind _ _ g b g) by (unfold pure_res; rewrite Hl; reflexivity).
  destruct (moves b) as [| m0 ms] eqn:Hm; [destruct Hin |].
  rewrite (run_bind _ _ g (Some m) (fun n => g (S (S n)))) by exact Hsel.
  rewrite (run_bind _ _ _ (mv, b') (fun n => g (S (S n))))
    by (unfold pure_res; rewrite Hmv; reflexivity).
  reflexivity.
Qed.

Lemma beginner_can_play_any_legal_move_witness :
  exists g mv b' g',
    rng_ok g /\
    move (Rules := Book.rules Book.locked_table)
      {| Book.bk_fen := Book.locked0; Book.bk_history := [] |}
      (req_of_move (Book.mv "g4" "g5" "g5")) = Some (mv, b') /\
    Enhanced.getStockfishMove (R := Book.rules Book.locked_table) Book.locked0 Beginner g =
      (Ok (Some (bot_move mv b')), g').
Proof.
  apply (beginner_can_play_any_legal_move (R := Book.rules Book.locked_table) Book.locked0
           {| Book.bk_fen := Book.locked0; Book.bk_history := [] |} (Book.mv "g4" "g5" "g5")).
  - reflexivity.
  - vm_compute. tauto.
  - intros m Hin. vm_compute in Hin. destruct Hin as [<- | []].
    eexists. eexists. vm_compute. reflexivity.
Defined.

(** ** [ChessEngineService]: move selection and analysis *)

Lemma Qle_bool_false (x y : Q) : Qle_bool x y = false -> (y < x)%Q.
Proof.
  intros H. apply Qnot_le_lt. intros Hle. apply Qle_bool_iff in Hle. congruence.
Qed.

Lemma confidence_range (r : Q) :
  (0 <= r)%Q -> (r < 1)%Q ->
  (70 <= Js.min 95 (70 + r * 25))%Q /\ (Js.min 95 (70 + r * 25) <= 95)%Q.
Proof.
  intros H0 H1. unfold Js.min.
  destruct (Qle_bool 95 (70 + r * 25)) eqn:E.
  - apply Qle_bool_iff in E. lra.
  - lra.
Qed.

Section DemoService.

Context `{R : Rules}.
Variable captured : Move -> bool.
Variable toFixed1 : Q -> string.

Lemma pick_listed {A} (l : list A) g :
  rng_ok g -> l <> [] ->
  exists x, ChessEngineService.pick l g = (Ok (Some x), fun n => g (S n)) /\ In x l.
Proof.
  intros Hok Hne. unfold ChessEngineService.pick, bind, random, ret.
  destruct (nth_Z_listed l (Js.floor (g 0%nat * inject_Z (Z.of_nat (length l))))) as (x & Hx & Hin).
  { apply floor_index; try apply Hok. destruct l; [congruence | simpl; lia]. }
  exists x. rewrite Hx. split; [reflexivity | exact Hin].
Qed.

Lemma getBestMove_listed ms g :
  rng_ok g -> ms <> [] ->
  exists m,
    ChessEngineService.getBestMove captured ms g = (Ok (Some m), fun n => g (S n)) /\ In m ms.
Proof.
  intros Hok Hne. unfold ChessEngineService.getBestMove.
  destruct (List.filter captured ms) as [| c cs] eqn:Hc; cbn [length Nat.ltb Nat.leb].
  - destruct (List.filter (fun mv => included (m_san mv) ChessEngineService.centerNames) ms)
      as [| c cs] eqn:Hcen; cbn [length Nat.ltb Nat.leb].
    + apply pick_listed; assumption.
    + destruct (pick_listed (c :: cs) g Hok ltac:(discriminate)) as (m & Hm & Hin).
      rewrite <- Hcen in Hin. apply filter_In in Hin as [Hin _].
      exists m. split; assumption.
  - destruct (pick_listed (c :: cs) g Hok ltac:(discriminate)) as (m & Hm & Hin).
    rewrite <- Hc in Hin. apply filter_In in Hin as [Hin _].
    exists m. split; assumption.
Qed.

End DemoService.

(** X17.  [getBestMove] always returns one of the moves it is given, after
    exactly one draw; it returns a capture whenever one of them is a
    capture, and otherwise one of the named centre and development moves
    (e4, e5, d4, d5, Nf3, Nc3, Nf6, Nc6) whenever one of them is legal. *)
Theorem getBestMove_prefers_captures (captured : Move -> bool) (ms : list Move) (g : Rng) :
  rng_ok g -> ms <> [] ->
  exists m,
    ChessEngineService.getBestMove captured ms g = (Ok (Some m), fun n => g (S n)) /\
    In m ms /\
    (existsb captured ms = true -> captured m = true) /\
    (existsb captured ms = false ->
     existsb (fun mv => included (m_san mv) ChessEngineService.centerNames) ms = true ->
     included (m_san m) ChessEngineService.centerNames = true).
Proof.
  intros Hok Hne. unfold ChessEngineService.getBestMove.
  destruct (List.filter captured ms) as [| c cs] eqn:Hc.
  - assert (Hnone : existsb captured ms = false).
    { destruct (existsb captured ms) eqn:E; [| reflexivity].
      apply existsb_exists in E as (x & Hx & Hcap).
      assert (Hin : In x (List.filter captured ms)) by (apply filter_In; split; assumption).
      rewrite Hc in Hin. destruct Hin. }
    cbn [length Nat.ltb Nat.leb].
    destruct (List.filter (fun mv => included (m_san mv) ChessEngineService.centerNames) ms)
      as [| c cs] eqn:Hcen.
    + cbn [length Nat.ltb Nat.leb].
      destruct (pick_listed (A := Move) ms g Hok Hne) as (m & Hm & Hin).
      exists m. split; [exact Hm |]. split; [exact Hin |].
      split; [intros E; congruence |].
      intros _ E. apply existsb_exists in E as (x & Hx & Hcx).
      assert (Hin' : In x (List.filter
                (fun mv => included (m_san mv) ChessEngineService.centerNames) ms))
        by (apply filter_In; split; assumption).
      rewrite Hcen in Hin'. destruct Hin'.
    + cbn [length Nat.ltb Nat.leb].
      destruct (pick_listed (c :: cs) g Hok ltac:(discriminate)) as (m & Hm & Hin).
      rewrite <- Hcen in Hin. apply filter_In in Hin as [Hin Hcm].
      exists m. split; [exact Hm |]. split; [exact Hin |].
      split; [intros E; congruence | intros _ _; exact Hcm].
  - cbn [length Nat.ltb Nat.leb].
    destruct (pick_listed (c :: cs) g Hok ltac:(discriminate)) as (m & Hm & Hin).
    rewrite <- Hc in Hin. apply filter_In in Hin as [Hin Hcm].
    exists m. split; [exact Hm |]. split; [exact Hin |].
    split; [intros _; exact Hcm |].
    intros E. exfalso.
    assert (Hx : In c (List.filter captured ms)) by (rewrite Hc; left; reflexivity).
    apply filter_In in Hx as [Hx Hcc].
    assert (E' : existsb captured ms = true) by (apply existsb_exists; exists c; split; assumption).
    congruence.
Qed.

Lemma getBestMove_prefers_captures_witness :
  exists m,
    ChessEngineService.getBestMove takes
      (moves (Rules := Book.rules Book.mate_table)
         {| Book.bk_fen := Book.mated_w; Book.bk_history := [] |}) (always (1 # 4)) =
      (Ok (Some m), fun n => always (1 # 4) (S n)) /\
    takes m = true.
Proof.
  destruct (getBestMove_prefers_captures takes
              (moves (Rules := Book.rules Book.mate_table)
                 {| Book.bk_fen := Book.mated_w; Book.bk_history := [] |}) (always (1 # 4)))
    as (m & Hm & _ & Hc & _).
  - intros n. unfold always. split; [discriminate | reflexivity].
  - vm_compute. discriminate.
  - exists m. split; [exact Hm | apply Hc; vm_compute; reflexivity].
Defined.

Lemma shifted_ok g : rng_ok g -> rng_ok (fun n => g (S n)).
Proof. intros Hok n. apply Hok. Qed.

(** X18.  On every position the library loads, [analyzePosition] of
    [ChessEngineService] answers.  For a position that is over it draws
    nothing and reports the terminal evaluation (30000 in favour of the side
    that gave mate, 0 otherwise), no principal variation and the best move
    "Game Over"; otherwise the best move is a legal move, the principal
    variation is that move alone, the evaluation is in centipawns, the
    confidence is at least 70 and at most 95 and the analysis time at least
    500 and at most 1500: the bounds that rounding to a double keeps, the
    upper ones being reached there though not by the exact numbers.  The
    error "No legal moves available" is never raised. *)
Theorem demo_analysis_answers `{R : Rules} `{!Lawful R}
    (captured : Move -> bool) (toFixed1 : Q -> string)
    (fen0 : string) (depth timeout : Z) (g : Rng) (b : Board) :
  rng_ok g -> load fen0 = Some b ->
  exists a g',
    ChessEngineService.analyzePosition captured toFixed1 fen0 depth timeout g = (Ok a, g') /\
    da_depth a = depth /\ later g g' /\
    if isGameOver b then
      g' = g /\ da_principalVariation a = [] /\ bm_san (da_bestMove a) = "Game Over" /\
      ev_value (da_evaluation a) =
        (if isCheckmate b then (if color_eqb (turn b) White then -30000 else 30000) else 0)
    else
      exists m, In m (moves b) /\ da_bestMove a = best_of m /\
        da_principalVariation a = [m_san m] /\ ev_type (da_evaluation a) = Cp /\
        (70 <= da_confidence a)%Q /\ (da_confidence a <= 95)%Q /\
        (500 <= da_analysisTime a)%Q /\ (da_analysisTime a <= 1500)%Q.
Proof.
  intros Hok Hl. unfold ChessEngineService.analyzePosition, try_catch.
  rewrite (run_bind _ _ g b g) by (unfold pure_res; rewrite Hl; reflexivity).
  destruct (isGameOver b) eqn:Hover; cbn [negb].
  - eexists. eexists. split; [reflexivity |]. cbn.
    split; [reflexivity |]. split; [apply later_refl |]. repeat split.
  - assert (Hne : moves b <> []).
    { intros Hm. rewrite (stuck_is_over b Hm) in Hover. discriminate. }
    destruct (moves b) as [| m0 ms] eqn:Hm; [congruence |].
    set (g1 := fun n => g (S n)).
    assert (Hev : exists ev, ChessEngine.evaluatePosition b g = (Ok ev, g1))
      by (unfold ChessEngine.evaluatePosition, bind, random, ret; eexists; reflexivity).
    destruct Hev as [ev Hev]. rewrite (run_bind _ _ g ev g1 Hev).
    destruct (getBestMove_listed captured (m0 :: ms) g1 (shifted_ok g Hok) ltac:(discriminate))
      as (m & Hbest & Hin).
    rewrite (run_bind _ _ g1 (Some m) (fun n => g1 (S n)) Hbest).
    unfold bind, random, ret. eexists. eexists. split; [reflexivity |].
    cbn [da_depth da_bestMove da_principalVariation da_evaluation da_confidence
         da_analysisTime ev_type].
    split; [reflexivity |]. split; [exists 4%nat; intros n; reflexivity |].
    exists m. split; [exact Hin |]. split; [reflexivity |]. split; [reflexivity |].
    split; [reflexivity |].
    destruct (Hok 2%nat) as [H0 H1]. destruct (Hok 3%nat) as [H2 H3].
    destruct (confidence_range (g 2%nat) H0 H1) as [Hc1 Hc2].
    change (g1 (S 0)) with (g 2%nat). change (g1 (S (S 0))) with (g 3%nat).
    split; [exact Hc1 |]. split; [exact Hc2 |]. split; lra.
Qed.

Lemma demo_analysis_answers_witness :
  exists a g',
    ChessEngineService.analyzePosition (R := Book.rules Book.mate_table) takes (fun _ => "0.0")
      Book.mated 15 5000 (always (1 # 4)) = (Ok a, g') /\
    ev_value (da_evaluation a) = 30000.
Proof.
  destruct (demo_analysis_answers (R := Book.rules Book.mate_table)
              (Lawful0 := book_lawful Book.mate_table) takes (fun _ => "0.0")
              Book.mated 15 5000 (always (1 # 4))
              {| Book.bk_fen := Book.mated; Book.bk_history := [] |})
    as (a & g' & H & _ & _ & Hshape).
  - intros n. unfold always. split; [discriminate | reflexivity].
  - reflexivity.
  - exists a, g'. split; [exact H |]. vm_compute in Hshape. apply Hshape.
Defined.

(** ** [ChessEngineService]: the bot *)

Section DemoBot.

Context `{R : Rules} `{!Lawful R}.
Variable captured : Move -> bool.
Variable toFixed1 : Q -> string.

Lemma demo_analysis_settles fen0 depth timeout g (b : Board) :
  rng_ok g -> load fen0 = Some b ->
  exists a g',
    ChessEngineService.analyzePosition captured toFixed1 fen0 depth timeout g = (Ok a, g') /\
    later g g'.
Proof.
  intros Hok Hl. unfold ChessEngineService.analyzePosition, try_catch.
  rewrite (run_bind _ _ g b g) by (unfold pure_res; rewrite Hl; reflexivity).
  destruct (isGameOver b) eqn:Hover; cbn [negb].
  - eexists. eexists. split; [reflexivity | apply later_refl].
  - destruct (moves b) as [| m0 ms] eqn:Hm.
    { rewrite (stuck_is_over b Hm) in Hover. discriminate. }
    set (g1 := fun n => g (S n)).
    assert (Hev : exists ev, ChessEngine.evaluatePosition b g = (Ok ev, g1))
      by (unfold ChessEngine.evaluatePosition, bind, random, ret; eexists; reflexivity).
    destruct Hev as [ev Hev]. rewrite (run_bind _ _ g ev g1 Hev).
    destruct (getBestMove_listed captured (m0 :: ms) g1 (shifted_ok g Hok) ltac:(discriminate))
      as (m & Hbest & Hin).
    rewrite (run_bind _ _ g1 (Some m) (fun n => g1 (S n)) Hbest).
    unfold bind, random, ret. eexists. eexists. split; [reflexivity |].
    exists 4%nat. intros n. reflexivity.
Qed.

Lemma demo_selection fen0 difficulty g (b : Board) :
  rng_ok g -> load fen0 = Some b -> moves b <> [] ->
  exists m g',
    match difficulty with
    | Beginner => ChessEngineService.pick (moves b)
    | Intermediate => ChessEngineService.getBestMove captured (moves b)
    | Advanced =>
        let* analysis := ChessEngineService.analyzePosition captured toFixed1 fen0 15 5000 in
        match List.find (fun mv => String.eqb (m_san mv) (bm_san (da_bestMove analysis)))
                (moves b) with
        | Some mv => ret (Some mv)
        | None => ChessEngineService.getBestMove captured (moves b)
        end
    | Stockfish => ChessEngineService.getBestMove captured (moves b)
    end g = (Ok (Some m), g') /\ In m (moves b).
Proof.
  intros Hok Hl Hne. destruct difficulty.
  - destruct (pick_listed (moves b) g Hok Hne) as (m & Hm & Hin).
    exists m. eexists. split; [exact Hm | exact Hin].
  - destruct (getBestMove_listed captured (moves b) g Hok Hne) as (m & Hm & Hin).
    exists m. eexists. split; [exact Hm | exact Hin].
  - destruct (demo_analysis_settles fen0 15 5000 g b Hok Hl) as (a & g1 & Ha & Hlater).
    rewrite (run_bind _ _ g a g1 Ha).
    destruct (List.find _ (moves b)) as [mv |] eqn:Hf.
    + exists mv, g1. split; [reflexivity |]. apply find_some in Hf as [Hin _]. exact Hin.
    + destruct (getBestMove_listed captured (moves b) g1 (later_ok g g1 Hok Hlater) Hne)
        as (m & Hm & Hin).
      exists m. eexists. split; [exact Hm | exact Hin].
  - destruct (getBestMove_listed captured (moves b) g Hok Hne) as (m & Hm & Hin).
    exists m. eexists. split; [exact Hm | exact Hin].
Qed.

End DemoBot.

(** X19.  On a position with a legal move, when the library accepts the
    moves it lists, [makeBotMove] of [ChessEngineService] returns a move at
    every tier and for every run of the generator: the library's report for
    a move of its enumeration, with the position after it.  No tier depends
    on an analysis that may not settle. *)
Theorem makeBotMove_plays_legal_move `{R : Rules} `{!Lawful R}
    (captured : Move -> bool) (toFixed1 : Q -> string)
    (fen0 : string) (difficulty : Difficulty) (g : Rng) (b : Board) :
  rng_ok g -> load fen0 = Some b -> moves b <> [] -> accepts b ->
  exists m mv b' g',
    In m (moves b) /\ move b (req_of_move m) = Some (mv, b') /\ In mv (moves b) /\
    ChessEngineService.makeBotMove captured toFixed1 fen0 difficulty g =
      (Ok (Some (bot_move mv b')), g').
Proof.
  intros Hok Hl Hne Hacc.
  destruct (demo_selection captured toFixed1 fen0 difficulty g b Hok Hl Hne) as (m & g1 & Hsel & Hin).
  destruct (Hacc m Hin) as (mv & b' & Hmv).
  exists m, mv, b', g1. split; [exact Hin |]. split; [exact Hmv |].
  split; [eapply move_listed; exact Hmv |].
  unfold ChessEngineService.makeBotMove.
  rewrite (run_bind _ _ g b g) by (unfold pure_res; rewrite Hl; reflexivity).
  destruct (moves b) as [| m0 ms] eqn:Hm; [congruence |].
  rewrite (run_bind _ _ g (Some m) g1 Hsel).
  rewrite (run_bind _ _ g1 (mv, b') g1) by (unfold pure_res; rewrite Hmv; reflexivity).
  reflexivity.
Qed.

Lemma makeBotMove_plays_legal_move_witness :
  exists mv b' g',
    ChessEngineService.makeBotMove (R := Book.rules Book.locked_table) takes (fun _ => "0.0")
      Book.locked0 Advanced (always (1 # 4)) =
    (Ok (Some (bot_move (R := Book.rules Book.locked_table) mv b')), g').
Proof.
  destruct (makeBotMove_plays_legal_move (R := Book.rules Book.locked_table)
              (Lawful0 := book_lawful Book.locked_table) takes (fun _ => "0.0")
              Book.locked0 Advanced (always (1 # 4))
              {| Book.bk_fen := Book.locked0; Book.bk_history := [] |})
    as (m & mv & b' & g' & _ & _ & _ & H).
  - intros n. unfold always. split; [discriminate | reflexivity].
  - reflexivity.
  - vm_compute. discriminate.
  - intros m Hin. vm_compute in Hin. destruct Hin as [<- | []].
    eexists. eexists. vm_compute. reflexivity.
  - exists mv, b', g'. exact H.
Defined.

(** ** Validation and execution of a move agree *)

(** What the handler does with the move of a game it found active is
    [validated_move] for the library that throws, followed by the player's
    entry. *)
Lemma handler_runs_validated_move `{R : Rules} gameId game fen0 mv (w : World) :
  (if negb (Enhanced.isLegalMove fen0 mv) then ret (failure 400 "Illegal move")
   else
     let* moveResult := pure_res (Enhanced.makeMove fen0 mv) in
     match moveResult with
     | None => ret (failure 400 "Failed to make move")
     | Some moveResult => Game.player_move gameId game moveResult
     end) w =
  (let* v := pure_res (Guarded.validated_move Guarded.throwing fen0 mv) in
   match v with
   | inl resp => ret resp
   | inr moveResult => Game.player_move gameId game moveResult
   end) w.
Proof.
  unfold Guarded.validated_move, Guarded.isLegalMove, Guarded.makeMove, Guarded.throwing,
    Enhanced.isLegalMove, Enhanced.makeMove.
  destruct (load fen0) as [b |]; [| reflexivity]. cbn [of_option res_bind].
  destruct (move b mv) as [[result b'] |]; reflexivity.
Qed.

(** X20.  Whether the library rejects a move by returning [null] or by
    throwing: [isLegalMove] answers true exactly when [makeMove] returns a
    result; the two tests of the move handler end either in its response
    "Illegal move", the guard having answered false, or with the result of
    [makeMove], so that its 400 response "Failed to make move" is never
    given and nothing is thrown between them; and it is the guard that
    excludes that response, [makeMove] returning [null] for a move the
    library answers [null] to.  With the library that throws, the two
    operations are [isLegalMove] and [makeMove] of the service. *)
Theorem failed_to_make_move_is_dead `{R : Rules} (chess_move : Board -> MoveReq -> Attempt)
    (fen0 : string) (mv : MoveReq) :
  (Guarded.isLegalMove chess_move fen0 mv = true <->
     exists mr, Guarded.makeMove chess_move fen0 mv = Ok (Some mr)) /\
  ((Guarded.isLegalMove chess_move fen0 mv = false /\
    Guarded.validated_move chess_move fen0 mv = Ok (inl (failure 400 "Illegal move"))) \/
   (exists mr, Guarded.makeMove chess_move fen0 mv = Ok (Some mr) /\
               Guarded.validated_move chess_move fen0 mv = Ok (inr mr))) /\
  Guarded.validated_move chess_move fen0 mv <> Ok (inl (failure 400 "Failed to make move")) /\
  (forall b, load fen0 = Some b -> chess_move b mv = Null ->
     Guarded.makeMove chess_move fen0 mv = Ok None) /\
  Guarded.isLegalMove Guarded.throwing fen0 mv = Enhanced.isLegalMove fen0 mv /\
  Guarded.makeMove Guarded.throwing fen0 mv = Enhanced.makeMove fen0 mv.
Proof.
  assert (Hguard : Guarded.isLegalMove chess_move fen0 mv = true <->
                   exists mr, Guarded.makeMove chess_move fen0 mv = Ok (Some mr)).
  { unfold Guarded.isLegalMove, Guarded.makeMove.
    destruct (load fen0) as [b |]; cbn [of_option res_bind].
    - destruct (chess_move b mv) as [result b' | |].
      + split; [intros _; eexists; reflexivity | reflexivity].
      + split; [discriminate | intros [mr H]; discriminate H].
      + split; [discriminate | intros [mr H]; discriminate H].
    - split; [discriminate | intros [mr H]; discriminate H]. }
  assert (Hfragment :
            (Guarded.isLegalMove chess_move fen0 mv = false /\
             Guarded.validated_move chess_move fen0 mv = Ok (inl (failure 400 "Illegal move"))) \/
            (exists mr, Guarded.makeMove chess_move fen0 mv = Ok (Some mr) /\
                        Guarded.validated_move chess_move fen0 mv = Ok (inr mr))).
  { unfold Guarded.validated_move.
    destruct (Guarded.isLegalMove chess_move fen0 mv) eqn:Hlegal; cbn [negb].
    - right. destruct (proj1 Hguard eq_refl) as [mr Hmr].
      exists mr. split; [exact Hmr |]. rewrite Hmr. reflexivity.
    - left. split; reflexivity. }
  split; [exact Hguard |]. split; [exact Hfragment |]. split; [| split; [| split]].
  - destruct Hfragment as [[_ H] | (mr & _ & H)]; rewrite H; discriminate.
  - intros b Hl Hnull. unfold Guarded.makeMove. rewrite Hl. cbn [of_option res_bind].
    rewrite Hnull. reflexivity.
  - unfold Guarded.isLegalMove, Guarded.throwing, Enhanced.isLegalMove.
    destruct (load fen0) as [b |]; [| reflexivity].
    destruct (move b mv) as [[result b'] |]; reflexivity.
  - unfold Guarded.makeMove, Guarded.throwing, Enhanced.makeMove.
    destruct (load fen0) as [b |]; [| reflexivity]. cbn [of_option res_bind].
    destruct (move b mv) as [[result b'] |]; reflexivity.
Qed.

(** On the locked ending, a library that answers [null]: [makeMove] returns
    [null], and the handler has answered "Illegal move" before it would call
    it. *)
Lemma failed_to_make_move_is_dead_witness :
  let ask := {| q_from := "g4"; q_to := "g5"; q_promotion := None |} in
  Guarded.makeMove (R := Book.rules Book.locked_table) Guarded.refusing Book.locked0 ask
    = Ok None /\
  Guarded.validated_move (R := Book.rules Book.locked_table) Guarded.refusing Book.locked0 ask
    = Ok (inl (failure 400 "Illegal move")).
Proof.
  intros ask.
  destruct (failed_to_make_move_is_dead (R := Book.rules Book.locked_table)
              Guarded.refusing Book.locked0 ask) as (_ & Hfragment & _ & Hnull & _).
  split.
  - apply (Hnull {| Book.bk_fen := Book.locked0; Book.bk_history := [] |}); reflexivity.
  - destruct Hfragment as [[_ H] | (mr & H & _)]; [exact H | discriminate H].
Defined.

(** ** The history of analyses *)

Lemma update_stats_totalAnalyses game s :
  totalAnalyses (DataService.update_stats game s) = totalAnalyses s.
Proof.
  unfold DataService.update_stats.
  destruct (bool_decide (g_status game <> Active)); [| reflexivity].
  repeat match goal with |- context [if ?c then _ else _] => destruct c end; reflexivity.
Qed.

Lemma reported_totalAnalyses r s : totalAnalyses (reported r s) = totalAnalyses s.
Proof.
  destruct r as [resp | e | e]; cbn [reported]; try reflexivity.
  destruct (r_game resp); [apply update_stats_totalAnalyses | reflexivity].
Qed.

Lemma in_world_snd {A} (m : M World A) s :
  snd (in_world m s) = {| sv_world := snd (m (sv_world s)); sv_analyses := sv_analyses s |}.
Proof. unfold in_world. destruct (m (sv_world s)). reflexivity. Qed.

Lemma in_world_liftRng_run {A} (m : M Rng A) s :
  in_world (liftRng m) s =
    (fst (m (w_rng (sv_world s))),
     {| sv_world :=
          {| w_rng := snd (m (w_rng (sv_world s))); w_clock := w_clock (sv_world s);
             w_data := w_data (sv_world s) |};
        sv_analyses := sv_analyses s |}).
Proof. unfold in_world, liftRng. destruct (m (w_rng (sv_world s))). reflexivity. Qed.

Section History.

Context `{R : Rules}.
Variable stamp : string -> string.
Variable base36 : Q -> string.
Variable numeric : string -> bool.

Lemma saveAnalysis_effect position analysis source s :
  exists entry s',
    AnalysisRoutes.saveAnalysis stamp base36 position analysis source s = (Ok entry, s') /\
    entry =
      {| ah_id := stamp (w_clock (sv_world s) 0%nat) +:+ "_" +:+ base36 (w_rng (sv_world s) 0%nat);
         ah_position := position; ah_analysis := analysis;
         ah_timestamp := w_clock (sv_world s) 1%nat; ah_source := source |} /\
    sv_analyses s' = <[ah_id entry := entry]> (sv_analyses s) /\
    games (w_data (sv_world s')) = games (w_data (sv_world s)) /\
    stats (w_data (sv_world s')) =
      with_totalAnalyses (total_analyses s + 1) (stats (w_data (sv_world s))).
Proof.
  unfold AnalysisRoutes.saveAnalysis, AnalysisRoutes.generateId, bind, in_world, now, liftRng,
    random, ret, set_analysis, set_totalAnalyses, write_data, total_analyses.
  cbn. eexists. eexists. split; [reflexivity |]. repeat split.
Qed.

Lemma counted_insert s s' id entry :
  counted s ->
  sv_analyses s' = <[id := entry]> (sv_analyses s) ->
  total_analyses s' = total_analyses s + 1 ->
  counted s'.
Proof.
  unfold counted. intros Hc Ha Ht. rewrite Ha, Ht, map_size_insert.
  destruct (sv_analyses s !! id); cbn; lia.
Qed.

Lemma analyzePosition_effect body s :
  let s' := snd (AnalysisRoutes.analyzePosition stamp base36 numeric body s) in
  w_data (sv_world s') = w_data (sv_world s) /\ sv_analyses s' = sv_analyses s \/
  exists entry,
    sv_analyses s' = <[ah_id entry := entry]> (sv_analyses s) /\
    games (w_data (sv_world s')) = games (w_data (sv_world s)) /\
    stats (w_data (sv_world s')) =
      with_totalAnalyses (total_analyses s + 1) (stats (w_data (sv_world s))).
Proof.
  cbv zeta.
  remember (AnalysisRoutes.analyzePosition stamp base36 numeric body s) as run eqn:Hrun.
  unfold AnalysisRoutes.analyzePosition, try_catch in Hrun.
  destruct (falsy (pa_fen body)); [subst run; left; split; reflexivity |].
  destruct (negb (AnalysisRoutes.isValidFen numeric (text (pa_fen body))));
    [subst run; left; split; reflexivity |].
  unfold bind at 1 in Hrun. rewrite in_world_liftRng_run in Hrun.
  destruct (Enhanced.analyzeWithStockfish _ _ _ (w_rng (sv_world s))) as [[a | e | e] g1];
    cbn [fst snd] in Hrun;
    [| subst run; left; split; reflexivity | subst run; left; split; reflexivity].
  unfold bind in Hrun.
  match type of Hrun with
  | context [AnalysisRoutes.saveAnalysis stamp base36 ?p ?an ?src ?st] =>
      destruct (saveAnalysis_effect p an src st) as (entry & s1 & Hs & _ & Ha & Hg & Ht)
  end.
  rewrite Hs in Hrun. subst run. cbn [snd ret]. right. exists entry.
  split; [exact Ha |]. split; [exact Hg | exact Ht].
Qed.

Lemma deleteAnalysis_counted id s :
  counted s -> counted (snd (AnalysisRoutes.deleteAnalysisRoute id s)) /\
  games (w_data (sv_world (snd (AnalysisRoutes.deleteAnalysisRoute id s)))) =
    games (w_data (sv_world s)) /\
  (forall x, with_totalAnalyses x (stats (w_data (sv_world
      (snd (AnalysisRoutes.deleteAnalysisRoute id s))))) =
    with_totalAnalyses x (stats (w_data (sv_world s)))).
Proof.
  intros Hc. unfold AnalysisRoutes.deleteAnalysisRoute, try_catch, bind,
    AnalysisRoutes.deleteAnalysis.
  unfold counted, total_analyses in *.
  destruct (bool_decide (is_Some (sv_analyses s !! id))) eqn:E.
  - apply bool_decide_eq_true in E. cbn. rewrite map_size_delete_Some by exact E.
    assert (Hpos : (0 < size (sv_analyses s))%nat).
    { destruct E as [x Hx]. destruct (size (sv_analyses s)) eqn:Hs; [| lia].
      apply map_size_empty_inv in Hs. rewrite Hs, lookup_empty in Hx. discriminate. }
    split; [lia |]. split; reflexivity.
  - apply bool_decide_eq_false in E. cbn.
    rewrite map_size_delete_None by (destruct (sv_analyses s !! id) eqn:H; [exfalso; apply E; eexists; reflexivity | reflexivity]).
    split; [exact Hc |]. split; reflexivity.
Qed.

End History.

Lemma sound_totalAnalyses d d' :
  games d' = games d ->
  (exists x, stats d' = with_totalAnalyses x (stats d)) ->
  sound d -> sound d'.
Proof.
  intros Hg [x Hs] (Hwf & Ht & Hr). unfold sound, store_wf, tally, rating in *.
  rewrite Hg, Hs. cbn. split; [exact Hwf |]. split; [exact Ht | exact Hr].
Qed.

Section Orderly.

Context `{R : Rules}.
Variable stamp : string -> string.
Variable base36 : Q -> string.
Variable numeric : string -> bool.

Lemma answer_orderly c s :
  counted s /\ sound (w_data (sv_world s)) ->
  counted (answer stamp base36 numeric c s) /\
  sound (w_data (sv_world (answer stamp base36 numeric c s))).
Proof.
  intros [Hc Hs]. destruct c as [rq | body | id]; cbn [answer].
  - rewrite in_world_snd. unfold counted, total_analyses. cbn [sv_world sv_analyses].
    split; [| apply (serve_sound stamp base36 rq); exact Hs].
    assert (H : stats (w_data (snd (handle stamp base36 rq (sv_world s)))) =
                reported (fst (handle stamp base36 rq (sv_world s)))
                  (stats (w_data (sv_world s)))).
    { destruct rq as [b | req | gameId]; cbn [handle].
      - apply accounts_createGame.
      - apply accounts_makeMove.
      - apply accounts_resignGame. }
    rewrite H, reported_totalAnalyses. exact Hc.
  - destruct (analyzePosition_effect stamp base36 numeric body s)
      as [[Hd Ha] | (entry & Ha & Hg & Ht)].
    + unfold counted, total_analyses. rewrite Hd, Ha. split; assumption.
    + split.
      * apply (counted_insert s _ (ah_id entry) entry Hc Ha).
        unfold total_analyses. rewrite Ht. reflexivity.
      * apply (sound_totalAnalyses (w_data (sv_world s))); [exact Hg | | exact Hs].
        eexists. exact Ht.
  - destruct (deleteAnalysis_counted id s Hc) as (Hc' & Hg & Ht). split; [exact Hc' |].
    apply (sound_totalAnalyses (w_data (sv_world s))); [exact Hg | | exact Hs].
    exists (totalAnalyses (stats (w_data (sv_world (snd (AnalysisRoutes.deleteAnalysisRoute id s)))))).
    rewrite <- Ht. destruct (stats _). reflexivity.
Qed.

End Orderly.

Lemma constructed_orderly days_before g clock :
  total_analyses (AnalysisRoutes.constructed days_before g clock) = 2 /\
  size (sv_analyses (AnalysisRoutes.constructed days_before g clock)) = 2%nat /\
  sound (w_data (sv_world (AnalysisRoutes.constructed days_before g clock))).
Proof.
  unfold AnalysisRoutes.constructed, AnalysisRoutes.initializeSampleData,
    AnalysisRoutes.install_sample, bind, in_world, liftRng, random, now, set_analysis,
    set_totalAnalyses, write_data, total_analyses.
  cbn [fst snd sv_world sv_analyses w_data w_rng w_clock stats games].
  assert (Hsize : forall (e1 e2 : AnalysisHistory),
            size (<["sample_2" := e2]> (<["sample_1" := e1]> (∅ : gmap string AnalysisHistory)))
            = 2%nat).
  { intros e1 e2. rewrite map_size_insert_None.
    - rewrite map_size_insert_None; [reflexivity | apply lookup_empty].
    - rewrite lookup_insert_ne by discriminate. apply lookup_empty. }
  change ("sample_" +:+ Js.digits (0 + 1)) with "sample_1".
  change ("sample_" +:+ Js.digits (1 + 1)) with "sample_2".
  rewrite Hsize. split; [reflexivity |]. split; [reflexivity |].
  split; [| split].
  - intros k x Hk. cbn in Hk. rewrite lookup_empty in Hk. discriminate.
  - reflexivity.
  - cbn. lia.
Qed.

(** X21.  From the state the constructor of [DataService] leaves (two
    sample analyses, counted), and through any sequence of game requests,
    position analyses and deletions of analyses, [totalAnalyses] never
    falls below the number of entries in the history, and the games side
    stays sound: games under their own identifiers, [totalGames] the sum of
    the games won, lost and drawn, rating within [800, 2400]. *)
Theorem history_never_undercounted `{R : Rules}
    (stamp : string -> string) (base36 : Q -> string) (numeric : string -> bool)
    (days_before : Z -> string -> string) (cs : list Call) (g : Rng) (clock : nat -> string) :
  let s := answer_all stamp base36 numeric cs (AnalysisRoutes.constructed days_before g clock) in
  counted s /\ sound (w_data (sv_world s)).
Proof.
  cbv zeta.
  assert (H0 : counted (AnalysisRoutes.constructed days_before g clock) /\
               sound (w_data (sv_world (AnalysisRoutes.constructed days_before g clock)))).
  { destruct (constructed_orderly days_before g clock) as (Ht & Hs & Hsound).
    split; [| exact Hsound]. unfold counted. rewrite Ht, Hs. reflexivity. }
  revert H0. generalize (AnalysisRoutes.constructed days_before g clock).
  induction cs as [| c cs IH]; intros s Hs.
  - exact Hs.
  - cbn [answer_all fold_left]. apply IH. apply answer_orderly. exact Hs.
Qed.

(** ** The position analysis handler *)

Lemma in_world_ok {A} (m : M World A) s a s1 :
  in_world m s = (Ok a, s1) ->
  exists w1, m (sv_world s) = (Ok a, w1) /\
             s1 = {| sv_world := w1; sv_analyses := sv_analyses s |}.
Proof.
  unfold in_world. destruct (m (sv_world s)) as [r w1]. intros H. injection H as -> <-.
  exists w1. split; reflexivity.
Qed.

Lemma falsy_false o : falsy o = false -> exists x, o = Some x /\ text o = x.
Proof.
  destruct o as [x |]; [| discriminate]. intros _. exists x. split; reflexivity.
Qed.

Section PositionAnalysis.

Context `{R : Rules}.
Variable stamp : string -> string.
Variable base36 : Q -> string.
Variable numeric : string -> bool.

Lemma analyzeWithStockfish_ok fen0 depth timeout g a g' :
  Enhanced.analyzeWithStockfish fen0 depth timeout g = (Ok a, g') ->
  ca_depth a = depth /\ ca_confidence a = Z.min 98 (85 + depth) /\
  ap_fen (ca_position a) = fen0 /\
  (1 <= length (ca_principalVariation a) <= 3)%nat.
Proof.
  unfold Enhanced.analyzeWithStockfish. intros H.
  apply try_catch_ok in H as [H | (e & g1 & _ & H)]; [| discriminate H].
  apply bind_ok in H as (b & g0 & _ & H).
  apply bind_ok in H as (er & g1 & Her & H).
  apply ret_ok in H as [-> _]. apply analyzePosition_pv in Her as [Hpv Hd].
  cbn. repeat split; try assumption; lia.
Qed.

Lemma stuck_analyzeWithStockfish `{!Lawful R} fen0 depth timeout g (b : Board) :
  load fen0 = Some b -> moves b = [] ->
  exists e, fst (Enhanced.analyzeWithStockfish fen0 depth timeout g) = Fatal e.
Proof.
  intros Hl Hm. destruct (stuck_analysis fen0 depth b g Hl Hm) as (e & g' & H).
  exists e. unfold Enhanced.analyzeWithStockfish, try_catch, bind at 1, pure_res.
  rewrite Hl. cbn [of_option]. unfold bind. rewrite H. reflexivity.
Qed.

End PositionAnalysis.

(** X22.  A position analysis that succeeds was asked with a FEN that
    [isValidFen] accepts; the analysis returned has the requested depth
    capped at 20 (15 when none was given), the confidence
    [min(98, 85 + depth)], the FEN of the request and a principal variation
    of one to three moves; and the history has received exactly one entry
    for it, under a fresh identifier built from the clock and a draw, with
    source [manual], the position of the request and that analysis, while
    [totalAnalyses] went up by one. *)
Theorem position_analysis_saved `{R : Rules}
    (stamp : string -> string) (base36 : Q -> string) (numeric : string -> bool)
    (body : PositionAnalysisRequest) (s : Server) (resp : AnalysisResponse) :
  fst (AnalysisRoutes.analyzePosition stamp base36 numeric body s) = Ok resp ->
  ar_success resp = true ->
  exists fen0 a entry,
    pa_fen body = Some fen0 /\ AnalysisRoutes.isValidFen numeric fen0 = true /\
    ar_analysis resp = Some a /\
    ca_depth a = Z.min (requested_depth body) 20 /\
    ca_confidence a = Z.min 98 (85 + ca_depth a) /\
    ap_fen (ca_position a) = fen0 /\
    (1 <= length (ca_principalVariation a) <= 3)%nat /\
    ah_source entry = Manual /\ ah_analysis entry = kept_analysis a /\
    ah_position entry = {| cp_fen := fen0; cp_turn := fen_turn fen0 |} /\
    sv_analyses (snd (AnalysisRoutes.analyzePosition stamp base36 numeric body s)) =
      <[ah_id entry := entry]> (sv_analyses s) /\
    total_analyses (snd (AnalysisRoutes.analyzePosition stamp base36 numeric body s)) =
      total_analyses s + 1.
Proof.
  intros H Hs. apply fst_ok in H as [s' H]. rewrite H. cbn [snd].
  unfold AnalysisRoutes.analyzePosition in H.
  apply try_catch_ok in H as [H | (e & s1 & _ & H)];
    [| apply ret_ok in H as [-> _]; discriminate Hs].
  destruct (falsy (pa_fen body)) eqn:Hf; [apply ret_ok in H as [-> _]; discriminate Hs |].
  apply falsy_false in Hf as (fen0 & Hfen & Htext). rewrite Htext in H.
  destruct (AnalysisRoutes.isValidFen numeric fen0) eqn:Hv;
    [| apply ret_ok in H as [-> _]; discriminate Hs].
  cbn [negb] in H.
  apply bind_ok in H as (a & s1 & Ha & H).
  apply in_world_ok in Ha as (w1 & Ha & ->).
  apply liftRng_ok in Ha as (g1 & Ha & Hd).
  apply analyzeWithStockfish_ok in Ha as (Hdepth & Hconf & Hpos & Hpv).
  apply bind_ok in H as (entry & s2 & He & H).
  apply ret_ok in H as [-> ->].
  match type of He with
  | AnalysisRoutes.saveAnalysis _ _ ?p ?an ?src ?st = _ =>
      destruct (saveAnalysis_effect stamp base36 p an src st)
        as (entry' & s3 & He' & Hentry & Han & Hg & Ht)
  end.
  rewrite He' in He. injection He as <- <-.
  exists fen0, a, entry'.
  split; [exact Hfen |]. split; [exact Hv |]. split; [reflexivity |].
  split; [exact Hdepth |]. split; [rewrite Hdepth; exact Hconf |].
  split; [exact Hpos |]. split; [exact Hpv |].
  split; [rewrite Hentry; reflexivity |]. split; [rewrite Hentry; reflexivity |].
  split; [rewrite Hentry; reflexivity |]. split; [exact Han |].
  unfold total_analyses. rewrite Ht. cbn. unfold total_analyses. cbn. rewrite Hd. reflexivity.
Qed.

Lemma position_analysis_saved_witness :
  exists resp,
    fst (AnalysisRoutes.analyzePosition (R := Book.rules Book.locked_table)
           (fun _ => "1704067200000") (fun _ => "9") leading_digit
           (analysis_of Book.locked1 30) example_server) = Ok resp /\
    ar_success resp = true /\
    total_analyses (snd (AnalysisRoutes.analyzePosition (R := Book.rules Book.locked_table)
           (fun _ => "1704067200000") (fun _ => "9") leading_digit
           (analysis_of Book.locked1 30) example_server)) = total_analyses example_server + 1.
Proof.
  assert (H : exists resp,
            fst (AnalysisRoutes.analyzePosition (R := Book.rules Book.locked_table)
                   (fun _ => "1704067200000") (fun _ => "9") leading_digit
                   (analysis_of Book.locked1 30) example_server) = Ok resp /\
            ar_success resp = true).
  { vm_compute. eexists. split; reflexivity. }
  destruct H as (resp & H & Hs). exists resp. split; [exact H |]. split; [exact Hs |].
  destruct (position_analysis_saved (R := Book.rules Book.locked_table)
              (fun _ => "1704067200000") (fun _ => "9") leading_digit
              (analysis_of Book.locked1 30) example_server resp H Hs)
    as (fen0 & a & entry & _ & _ & _ & _ & _ & _ & _ & _ & _ & _ & _ & Ht).
  exact Ht.
Defined.

(** X23.  A position analysis is refused with 400 when the request has no
    FEN or an empty one ("No FEN string provided") or a FEN that
    [isValidFen] rejects ("Invalid FEN string"); the engine is not called,
    nothing is saved, and generator and clock are left as they were. *)
Theorem position_analysis_refused `{R : Rules}
    (stamp : string -> string) (base36 : Q -> string) (numeric : string -> bool)
    (body : PositionAnalysisRequest) (s : Server) :
  falsy (pa_fen body) = true \/ AnalysisRoutes.isValidFen numeric (text (pa_fen body)) = false ->
  AnalysisRoutes.analyzePosition stamp base36 numeric body s =
    (Ok (AnalysisRoutes.refused 400
           (if falsy (pa_fen body) then "No FEN string provided" else "Invalid FEN string")), s).
Proof.
  intros H. unfold AnalysisRoutes.analyzePosition, try_catch.
  destruct (falsy (pa_fen body)); [reflexivity |].
  destruct H as [H | H]; [discriminate H |]. rewrite H. reflexivity.
Qed.

Lemma position_analysis_refused_witness :
  AnalysisRoutes.analyzePosition (R := Book.rules Book.locked_table)
    (fun _ => "1704067200000") (fun _ => "9") leading_digit
    (analysis_of "7k/6pP/6P1/1p4P1/9/1p6/pP6/K7 b - - 0 1" 15) example_server =
    (Ok (AnalysisRoutes.refused 400 "Invalid FEN string"), example_server).
Proof.
  apply (position_analysis_refused (R := Book.rules Book.locked_table)
           (fun _ => "1704067200000") (fun _ => "9") leading_digit
           (analysis_of "7k/6pP/6P1/1p4P1/9/1p6/pP6/K7 b - - 0 1" 15) example_server).
  right. vm_compute. reflexivity.
Defined.

(** X24.  A position analysis asked for a position without legal moves
    (checkmate, stalemate) that passes [isValidFen] is never answered: the
    engine's timer callback throws, the handler's [try] does not see it, no
    response is sent and nothing is saved. *)
Theorem position_analysis_hangs `{R : Rules} `{!Lawful R}
    (stamp : string -> string) (base36 : Q -> string) (numeric : string -> bool)
    (body : PositionAnalysisRequest) (s : Server) (fen0 : string) (b : Board) :
  pa_fen body = Some fen0 -> fen0 <> "" ->
  AnalysisRoutes.isValidFen numeric fen0 = true ->
  load fen0 = Some b -> moves b = [] ->
  exists e s',
    AnalysisRoutes.analyzePosition stamp base36 numeric body s = (Fatal e, s') /\
    sv_analyses s' = sv_analyses s /\
    w_data (sv_world s') = w_data (sv_world s).
Proof.
  intros Hfen Hne Hv Hl Hm.
  destruct (stuck_analyzeWithStockfish fen0 (Z.min (requested_depth body) 20)
              (Z.min (match pa_timeout body with Some t => t | None => 5000 end) 10000)
              (w_rng (sv_world s)) b Hl Hm) as (e & He).
  exists e. eexists.
  unfold AnalysisRoutes.analyzePosition, try_catch. rewrite Hfen. cbn [falsy text].
  destruct (String.eqb fen0 "") eqn:E; [apply String.eqb_eq in E; contradiction |].
  rewrite Hv. cbn [negb]. unfold bind at 1. rewrite in_world_liftRng_run.
  unfold requested_depth in He. rewrite He.
  split; [reflexivity |]. split; reflexivity.
Qed.

Lemma position_analysis_hangs_witness :
  exists e s',
    AnalysisRoutes.analyzePosition (R := Book.rules Book.locked_table)
      (fun _ => "1704067200000") (fun _ => "9") leading_digit
      (analysis_of Book.locked2 15) example_server = (Fatal e, s') /\
    sv_analyses s' = sv_analyses example_server.
Proof.
  destruct (position_analysis_hangs (R := Book.rules Book.locked_table)
              (Lawful0 := book_lawful Book.locked_table)
              (fun _ => "1704067200000") (fun _ => "9") leading_digit
              (analysis_of Book.locked2 15) example_server Book.locked2
              {| Book.bk_fen := Book.locked2; Book.bk_history := [] |})
    as (e & s' & H & Ha & _).
  - reflexivity.
  - discriminate.
  - vm_compute. reflexivity.
  - reflexivity.
  - reflexivity.
  - exists e, s'. split; assumption.
Defined.

(** ** What [isValidFen] reads of the castling and en-passant fields *)

(** X25.  Of a castling field and of an en-passant field that begin with
    [-], [isValidFen] reads nothing else: the regular expressions
    [/^-|[KQkq]+$/] and [/^-|[a-h][36]$/] are satisfied by the first
    character alone, so two strings that differ only in such fields are
    accepted or rejected together. *)
Theorem fen_dash_fields_unchecked (numeric : string -> bool)
    (fen1 fen2 placement side castling1 castling2 enPassant1 enPassant2 halfmove fullmove : string) :
  Js.split " " fen1 = [placement; side; castling1; enPassant1; halfmove; fullmove] ->
  Js.split " " fen2 = [placement; side; castling2; enPassant2; halfmove; fullmove] ->
  String.prefix "-" castling1 = true -> String.prefix "-" castling2 = true ->
  String.prefix "-" enPassant1 = true -> String.prefix "-" enPassant2 = true ->
  AnalysisRoutes.isValidFen numeric fen1 = AnalysisRoutes.isValidFen numeric fen2.
Proof.
  intros H1 H2 Hc1 Hc2 He1 He2. unfold AnalysisRoutes.isValidFen.
  rewrite H1, H2. unfold castling_test, en_passant_test.
  rewrite Hc1, Hc2, He1, He2. reflexivity.
Qed.

Lemma fen_dash_fields_unchecked_witness :
  AnalysisRoutes.isValidFen leading_digit "7k/6pP/6P1/1p4P1/8/1p6/pP6/K7 b - - 0 1" =
  AnalysisRoutes.isValidFen leading_digit "7k/6pP/6P1/1p4P1/8/1p6/pP6/K7 b -?! -z9 0 1".
Proof.
  apply (fen_dash_fields_unchecked leading_digit
           "7k/6pP/6P1/1p4P1/8/1p6/pP6/K7 b - - 0 1"
           "7k/6pP/6P1/1p4P1/8/1p6/pP6/K7 b -?! -z9 0 1"
           "7k/6pP/6P1/1p4P1/8/1p6/pP6/K7" "b" "-" "-?!" "-" "-z9" "0" "1");
    reflexivity.
Defined.

(** ** The client: cells and squares *)

(** X26.  On the interactive board, [getSquarePosition] undoes
    [getSquareName]: for either colour and every cell of the grid, the
    position of the cell's name is the cell. *)
Theorem square_name_round_trip (playerColor : Color) (row col : nat) :
  (row < 8)%nat -> (col < 8)%nat ->
  InteractiveChessBoard.getSquarePosition playerColor
    (InteractiveChessBoard.getSquareName playerColor row col) =
  Some (Z.of_nat row, Z.of_nat col).
Proof.
  intros Hr Hc.
  destruct playerColor;
    do 8 (destruct row as [| row]; [do 8 (destruct col as [| col]; [reflexivity |]); lia |]);
    lia.
Qed.

Lemma square_name_round_trip_witness :
  InteractiveChessBoard.getSquareName Black 1 4 = "d2" /\
  InteractiveChessBoard.getSquarePosition Black "d2" = Some (1, 4).
Proof.
  split; [reflexivity |].
  apply (square_name_round_trip Black 1 4); lia.
Defined.

(** X27.  The cell [(row, col)] of the grid shows [board[row][col]], the
    piece standing on the square [ChessBoard.getSquareName] gives (row 0 is
    the eighth rank, column 0 the a-file).  For White the interactive board
    names the cell by that square.  For Black it names it by the square of
    the opposite cell [(7 - row, 7 - col)], never by its own: the name under
    which a click is handled is not the square of the piece shown. *)
Theorem black_cells_named_by_opposite_square (row col : nat) :
  (row < 8)%nat -> (col < 8)%nat ->
  InteractiveChessBoard.getSquareName White row col = ChessBoard.getSquareName row col /\
  InteractiveChessBoard.getSquareName Black row col =
    ChessBoard.getSquareName (7 - row) (7 - col) /\
  InteractiveChessBoard.getSquareName Black row col <> ChessBoard.getSquareName row col.
Proof.
  intros Hr Hc.
  do 8 (destruct row as [| row];
        [do 8 (destruct col as [| col];
               [split; [reflexivity | split; [reflexivity | discriminate]] |]); lia |]);
    lia.
Qed.

Lemma black_cells_named_by_opposite_square_witness :
  ChessBoard.getSquareName 1 4 = "e7" /\
  InteractiveChessBoard.getSquareName Black 1 4 = "d2".
Proof.
  destruct (black_cells_named_by_opposite_square 1 4) as (_ & H & _); [lia | lia |].
  split; [reflexivity | rewrite H; reflexivity].
Defined.

(** ** The client: what the pages say of a finished game *)

(** X28.  For a game that is not active, the badge of the history page
    agrees with what [saveGame] counted: "Won" for a game counted as won,
    "Draw" for one counted as drawn, "Lost" for one counted as lost; a game
    stored without a result gets no badge, and was counted as lost. *)
Theorem badge_matches_statistics (game : ChessGame) (s : UserStats) :
  g_status game <> Active ->
  match Pages.getGameResultBadge game with
  | Some BadgeWon => gamesWon (DataService.update_stats game s) = gamesWon s + 1
  | Some BadgeDraw => gamesDrawn (DataService.update_stats game s) = gamesDrawn s + 1
  | Some BadgeLost => gamesLost (DataService.update_stats game s) = gamesLost s + 1
  | None =>
      falsy (g_result game) = true /\
      gamesLost (DataService.update_stats game s) = gamesLost s + 1
  end.
Proof.
  intros Hfin.
  unfold Pages.getGameResultBadge, Pages.playerWon, DataService.update_stats,
    DataService.result_is, falsy.
  rewrite bool_decide_eq_true_2 by exact Hfin.
  destruct (g_result game) as [r |]; [| split; reflexivity].
  destruct (String.eqb r "") eqn:E0; destruct (String.eqb r "1-0") eqn:E1;
    destruct (String.eqb r "0-1") eqn:E2; destruct (String.eqb r "1/2-1/2") eqn:E3;
    repeat match goal with
           | H : String.eqb _ _ = true |- _ => apply String.eqb_eq in H
           end;
    subst; try discriminate;
    destruct (g_playerColor game); cbn; try reflexivity; split; reflexivity.
Qed.

Lemma badge_matches_statistics_witness :
  let won := with_result "1-0" (with_status Checkmate "2024-01-01T00:10:00.000Z"
               (game_at "game_1" Book.locked0 White Beginner)) in
  Pages.getGameResultBadge won = Some BadgeWon /\
  gamesWon (DataService.update_stats won DataService.initial_stats) = 1.
Proof.
  intros won. split; [reflexivity |].
  pose proof (badge_matches_statistics won DataService.initial_stats) as H.
  cbn in H. apply H. discriminate.
Defined.

(** X29.  A game resigned through the handler reads "You Resigned" on the
    game page and carries the badge "Lost" on the history page, whatever the
    player's colour: the handler always gives the result to the opponent, so
    the text "Bot Resigned - You Win!" is never shown for such a game. *)
Theorem resignation_reads_as_resigned (w : World) (gameId : string) (g : ChessGame) :
  session w gameId = Some g -> g_status g = Active ->
  exists g' w',
    Game.resignGame gameId w = (Ok (success g' None), w') /\
    Pages.getGameResultText g' = "You Resigned" /\
    Pages.getGameResultBadge g' = Some BadgeLost.
Proof.
  intros Hs Hact. unfold session in Hs.
  eexists. eexists. split.
  { unfold Game.resignGame, try_catch, bind, read_data, DataService.getGame.
    rewrite Hs. rewrite bool_decide_eq_false_2 by (intros Hn; exact (Hn Hact)).
    unfold now, assign, write_data, ret. cbn. reflexivity. }
  unfold Pages.getGameResultText, Pages.getGameResultBadge, Pages.playerWon,
    DataService.result_is. cbn.
  destruct (g_playerColor g); cbn; split; reflexivity.
Qed.

Lemma resignation_reads_as_resigned_witness :
  exists g' w',
    Game.resignGame "game_1" (world_with (game_at "game_1" Book.locked0 Black Beginner)
                                (always (1 # 2))) = (Ok (success g' None), w') /\
    Pages.getGameResultText g' = "You Resigned".
Proof.
  destruct (resignation_reads_as_resigned
              (world_with (game_at "game_1" Book.locked0 Black Beginner) (always (1 # 2)))
              "game_1" (game_at "game_1" Book.locked0 Black Beginner))
    as (g' & w' & H & Ht & _).
  - unfold session. cbn. apply lookup_insert_eq.
  - reflexivity.
  - exists g', w'. split; assumption.
Defined.
